(** * mcp-memory-blockchain: ledger, Proof-of-Authority scheduler, contracts

    A shallow embedding of [blockchain/core.py], [blockchain/consensus.py]
    and [blockchain/contracts.py], and the properties of the specification
    that concern them.

    Conventions of the embedding.
    - A Python [int] is a [Z]; a Python [str] is a [string] whose characters
      are code points below 256. Floats occur in [ResourceNumbers] only,
      as the doubles of [PrimFloat].
    - [hashlib.sha256(s.encode()).hexdigest()] and the wall clock are not
      code of the repository: the digest is a function [sha256] the
      development is parametric in, and every clock reading is an argument
      of the operation that reads it.
    - A raised exception is a value [Raise e] of the type [result]; the
      state an operation returns next to it is the state the object is left
      in when the exception propagates.
    - Dictionaries whose iteration order the code never uses are [gmap]s;
      the validator registry, whose insertion order drives the rotation,
      and JSON objects are association lists. *)

From stdpp Require Import gmap strings list fin_maps pretty sorting.
From Equations Require Import Equations.
From Stdlib Require Import Ascii QArith.
From Stdlib Require OrdersEx.
From Stdlib Require PrimFloat FloatOps SpecFloat.

Local Open Scope Z_scope.
Local Open Scope string_scope.

(** ** Python values *)

(** The JSON-serialisable fragment of Python values (floats left out). *)
#[local] Unset Elimination Schemes.
Inductive pyval : Type :=
| VNone
| VBool (b : bool)
| VInt (z : Z)
| VStr (s : string)
| VList (l : list pyval)
| VDict (kvs : list (string * pyval)).
#[local] Set Elimination Schemes.

(** Exceptions the modelled code can raise. *)
Inductive exn : Type :=
| ValueError (msg : string)
| IndexError
| TypeError.

Inductive result (A : Type) : Type :=
| Ok (a : A)
| Raise (e : exn).
Arguments Ok {A} a.
Arguments Raise {A} e.

(** Sequencing: an exception skips the rest ([x ← r; k] below). *)
#[export] Instance result_bind : MBind result := λ A B k r,
  match r with
  | Ok a => k a
  | Raise e => Raise e
  end.
#[export] Instance result_ret : MRet result := @Ok.

(** [bool(v)]: Python truthiness. *)
Definition truthy (v : pyval) : bool :=
  match v with
  | VNone => false
  | VBool b => b
  | VInt z => negb (Z.eqb z 0)
  | VStr s => negb (String.eqb s "")
  | VList l => negb (Nat.eqb (length l) 0)
  | VDict kvs => negb (Nat.eqb (length kvs) 0)
  end.

(** ** [json.dumps(v, sort_keys=True)] *)

Module Json.

Definition dquote : ascii := "034"%char.
Definition backslash : ascii := "092"%char.

Definition hex_digit (n : N) : ascii :=
  match n with
  | 0%N => "0" | 1%N => "1" | 2%N => "2" | 3%N => "3"
  | 4%N => "4" | 5%N => "5" | 6%N => "6" | 7%N => "7"
  | 8%N => "8" | 9%N => "9" | 10%N => "a" | 11%N => "b"
  | 12%N => "c" | 13%N => "d" | 14%N => "e" | _ => "f"
  end%char.

(** [ensure_ascii=True]: the two-character escapes, then [\u00xx] for
    every other character outside [' ' .. '~']. *)
Definition escape_char (c : ascii) : string :=
  let n := N_of_ascii c in
  (
  if N.eqb n 34 then String backslash (String dquote "")
  else if N.eqb n 92 then String backslash (String backslash "")
  else if N.eqb n 10 then String backslash "n"
  else if N.eqb n 13 then String backslash "r"
  else if N.eqb n 9 then String backslash "t"
  else if N.eqb n 12 then String backslash "f"
  else if N.eqb n 8 then String backslash "b"
  else if N.leb 32 n && N.leb n 126 then String c ""
  else String backslash
         (String "u" (String "0" (String "0"
           (String (hex_digit (N.div n 16))
             (String (hex_digit (N.modulo n 16)) "")))))
  )%N.

Fixpoint escape (s : string) : string :=
  match s with
  | EmptyString => ""
  | String c s' => escape_char c +:+ escape s'
  end.

Definition quote (s : string) : string :=
  String dquote (escape s +:+ String dquote "").

(** Insertion of one rendered item into a key-sorted list; [sorted] on
    the items of a dict compares the keys, which are distinct. *)
Fixpoint insert_item (kv : string * string) (l : list (string * string))
  : list (string * string) :=
  match l with
  | [] => [kv]
  | kv' :: l' =>
      if String.leb kv.1 kv'.1 then kv :: l else kv' :: insert_item kv l'
  end.

Fixpoint sort_items (l : list (string * string)) : list (string * string) :=
  match l with
  | [] => []
  | kv :: l' => insert_item kv (sort_items l')
  end.

Definition render_item (kv : string * string) : string :=
  quote kv.1 +:+ ": " +:+ kv.2.

(** The values of a dict are rendered first and the rendered items then
    sorted by key, which yields the text of sorting the items first. *)
Fixpoint dumps (v : pyval) : string :=
  match v with
  | VNone => "null"
  | VBool true => "true"
  | VBool false => "false"
  | VInt z => pretty z
  | VStr s => quote s
  | VList l => "[" +:+ String.concat ", " (map dumps l) +:+ "]"
  | VDict kvs =>
      "{" +:+ String.concat ", "
                (map render_item
                   (sort_items (map (λ kv, (kv.1, dumps kv.2)) kvs)))
          +:+ "}"
  end.

End Json.

(** ** Python [==] on the modelled values *)

(** [True == 1], dicts compare regardless of insertion order. *)
Definition dict_get {A} (k : string) (kvs : list (string * A)) : option A :=
  snd <$> List.find (λ kv, String.eqb kv.1 k) kvs.

Fixpoint py_eqb (v w : pyval) : bool :=
  match v, w with
  | VNone, VNone => true
  | VBool a, VBool b => Bool.eqb a b
  | VBool a, VInt z | VInt z, VBool a => Z.eqb (if a then 1 else 0) z
  | VInt a, VInt b => Z.eqb a b
  | VStr a, VStr b => String.eqb a b
  | VList l, VList l' =>
      (fix all2 (l : list pyval) (l' : list pyval) : bool :=
         match l, l' with
         | [], [] => true
         | x :: l, y :: l' => py_eqb x y && all2 l l'
         | _, _ => false
         end) l l'
  | VDict kvs, VDict kvs' =>
      Nat.eqb (length kvs) (length kvs') &&
      (fix sub (kvs : list (string * pyval)) : bool :=
         match kvs with
         | [] => true
         | kv :: kvs =>
             match dict_get kv.1 kvs' with
             | Some y => py_eqb kv.2 y && sub kvs
             | None => false
             end
         end) kvs
  | _, _ => false
  end.

Definition option_string_eqb (a b : option string) : bool :=
  match a, b with
  | None, None => true
  | Some x, Some y => String.eqb x y
  | _, _ => false
  end.

(** ** The ledger ([blockchain/core.py]) *)

Module Core.

Record Transaction : Type := mkTransaction {
  tx_operation : string;
  tx_data : list (string * pyval);
  tx_timestamp_micros : Z;
  tx_instance_id : string;
  tx_id : string;
  data_hash : string;
  signature : option string
}.

Record Block : Type := mkBlock {
  index : Z;
  timestamp_micros : Z;
  previous_hash : string;
  validator : string;
  transactions : list Transaction;
  merkle_root : string;
  block_hash : string;
  nonce : Z
}.

(** The [__eq__] the dataclass generates: field by field. *)
Definition Transaction_eqb (a b : Transaction) : bool :=
  String.eqb (tx_operation a) (tx_operation b)
  && py_eqb (VDict (tx_data a)) (VDict (tx_data b))
  && Z.eqb (tx_timestamp_micros a) (tx_timestamp_micros b)
  && String.eqb (tx_instance_id a) (tx_instance_id b)
  && String.eqb (tx_id a) (tx_id b)
  && String.eqb (data_hash a) (data_hash b)
  && option_string_eqb (signature a) (signature b).

Record Blockchain : Type := mkBlockchain {
  bc_instance_id : string;
  time_precision_url : option string;
  chain : list Block;
  pending_transactions : list Transaction;
  transaction_pool : gmap string Transaction
}.

Definition set_chain (c : list Block) (bc : Blockchain) : Blockchain :=
  {| bc_instance_id := bc_instance_id bc;
     time_precision_url := time_precision_url bc;
     chain := c;
     pending_transactions := pending_transactions bc;
     transaction_pool := transaction_pool bc |}.

Definition set_pending (p : list Transaction) (bc : Blockchain) : Blockchain :=
  {| bc_instance_id := bc_instance_id bc;
     time_precision_url := time_precision_url bc;
     chain := chain bc;
     pending_transactions := p;
     transaction_pool := transaction_pool bc |}.

Definition set_pool (m : gmap string Transaction) (bc : Blockchain) : Blockchain :=
  {| bc_instance_id := bc_instance_id bc;
     time_precision_url := time_precision_url bc;
     chain := chain bc;
     pending_transactions := pending_transactions bc;
     transaction_pool := m |}.

(** [l.remove(x)] guarded by [x in l]: the first element equal to [x]
    goes, if there is one. *)
Fixpoint list_remove_first (x : Transaction) (l : list Transaction)
  : list Transaction :=
  match l with
  | [] => []
  | y :: l' => if Transaction_eqb y x then l' else y :: list_remove_first x l'
  end.

Section Ledger.

(** [sha256 s] is [hashlib.sha256(s.encode()).hexdigest()]. *)
Variable sha256 : string → string.

(** *** [Transaction] *)

Definition calculate_data_hash
    (operation : string) (data : list (string * pyval))
    (timestamp : Z) (instance : string) : string :=
  let tx_content :=
    VDict [("operation", VStr operation);
           ("data", VDict data);
           ("timestamp_micros", VInt timestamp);
           ("instance_id", VStr instance)] in
  sha256 (Json.dumps tx_content).

Definition Transaction_calculate_data_hash (tx : Transaction) : string :=
  calculate_data_hash (tx_operation tx) (tx_data tx)
    (tx_timestamp_micros tx) (tx_instance_id tx).

(** [Transaction(operation, data, timestamp_micros, instance_id)]: the
    generated [__init__] followed by [__post_init__]. *)
Definition new_Transaction
    (operation : string) (data : list (string * pyval))
    (timestamp : Z) (instance : string) : Transaction :=
  let operation_data := operation +:+ Json.dumps (VDict data) in
  let operation_hash := String.substring 0 8 (sha256 operation_data) in
  {| tx_operation := operation;
     tx_data := data;
     tx_timestamp_micros := timestamp;
     tx_instance_id := instance;
     tx_id := pretty timestamp +:+ "-" +:+ instance +:+ "-" +:+ operation_hash;
     data_hash := calculate_data_hash operation data timestamp instance;
     signature := None |}.

Definition sign (private_key : string) (tx : Transaction) : Transaction :=
  {| tx_operation := tx_operation tx;
     tx_data := tx_data tx;
     tx_timestamp_micros := tx_timestamp_micros tx;
     tx_instance_id := tx_instance_id tx;
     tx_id := tx_id tx;
     data_hash := data_hash tx;
     signature := Some (sha256 (data_hash tx +:+ private_key)) |}.

(** *** [Block] *)

(** [if len(hashes) % 2 != 0: hashes.append(hashes[-1])] *)
Definition pad_odd (hashes : list string) : list string :=
  if Nat.odd (length hashes) then hashes ++ [List.last hashes ""] else hashes.

(** [for i in range(0, len(hashes), 2)]: one hash per pair. The list is
    of even length when the loop runs, so the one-element case is never
    reached. *)
Fixpoint pair_hashes (hashes : list string) : list string :=
  match hashes with
  | a :: b :: rest => sha256 (a +:+ b) :: pair_hashes rest
  | _ => []
  end.

Lemma pair_hashes_length hashes :
  length (pair_hashes hashes) = Nat.div2 (length hashes).
Proof.
  enough (H : length (pair_hashes hashes) = Nat.div2 (length hashes)
              ∧ ∀ a, length (pair_hashes (a :: hashes))
                     = Nat.div2 (S (length hashes))) by apply H.
  induction hashes as [|b rest [IH1 IH2]]; split; try reflexivity.
  - apply IH2.
  - intros a. simpl. f_equal. apply IH1.
Qed.

(** [while len(hashes) > 1: ...; return hashes[0]]. The loop is entered
    with the hashes of a non-empty transaction list. *)
Equations? merkle_loop (hashes : list string) : string
  by wf (length hashes) lt :=
  merkle_loop [] := "";
  merkle_loop [h] := h;
  merkle_loop (a :: b :: rest) := merkle_loop (pair_hashes (pad_odd (a :: b :: rest))).
Proof.
  rewrite pair_hashes_length, Nat.div2_div.
  apply Nat.Div0.div_lt_upper_bound.
  unfold pad_odd. destruct (Nat.odd _); [rewrite length_app|]; simpl; lia.
Qed.

Definition calculate_merkle_root (txs : list Transaction) : string :=
  match txs with
  | [] => sha256 "empty"
  | _ => merkle_loop (map data_hash txs)
  end.

Definition calculate_hash
    (index timestamp : Z) (previous_hash validator merkle_root : string)
    (nonce : Z) : string :=
  let block_data :=
    VDict [("index", VInt index);
           ("timestamp_micros", VInt timestamp);
           ("previous_hash", VStr previous_hash);
           ("validator", VStr validator);
           ("merkle_root", VStr merkle_root);
           ("nonce", VInt nonce)] in
  sha256 (Json.dumps block_data).

Definition Block_calculate_merkle_root (b : Block) : string :=
  calculate_merkle_root (transactions b).

Definition Block_calculate_hash (b : Block) : string :=
  calculate_hash (index b) (timestamp_micros b) (previous_hash b)
    (validator b) (merkle_root b) (nonce b).

(** [Block(index, timestamp_micros, previous_hash, validator,
    transactions)]: [nonce] takes its default 0, then [__post_init__]. *)
Definition new_Block
    (index timestamp : Z) (previous_hash validator : string)
    (txs : list Transaction) : Block :=
  let root := calculate_merkle_root txs in
  {| index := index;
     timestamp_micros := timestamp;
     previous_hash := previous_hash;
     validator := validator;
     transactions := txs;
     merkle_root := root;
     block_hash := calculate_hash index timestamp previous_hash validator root 0;
     nonce := 0 |}.


(** *** [Blockchain] *)

(** [_create_genesis_block], at clock reading [now]. *)
Definition create_genesis_block (validator : string) (now : Z)
    (bc : Blockchain) : Blockchain :=
  let genesis_tx :=
    new_Transaction "genesis"
      [("message", VStr "MAGI Memory Blockchain Genesis")] now validator in
  let genesis_block :=
    new_Block 0 now (String.concat "" (replicate 64 "0")) validator
      [genesis_tx] in
  set_chain (chain bc ++ [genesis_block]) bc.

(** [Blockchain(instance_id, time_precision_url, genesis_validator)] *)
Definition new_Blockchain (instance : string) (url : option string)
    (genesis_validator : string) (now : Z) : Blockchain :=
  create_genesis_block genesis_validator now
    {| bc_instance_id := instance;
       time_precision_url := url;
       chain := [];
       pending_transactions := [];
       transaction_pool := ∅ |}.

Definition create_transaction (operation : string)
    (data : list (string * pyval)) (sign_key : option string) (now : Z)
    (bc : Blockchain) : Transaction * Blockchain :=
  let tx := new_Transaction operation data now (bc_instance_id bc) in
  let tx :=
    match sign_key with
    | Some key => if String.eqb key "" then tx else sign key tx
    | None => tx
    end in
  (tx, set_pending (pending_transactions bc ++ [tx])
         (set_pool (<[tx_id tx := tx]> (transaction_pool bc)) bc)).

(** [create_block(transactions=None, validator=None)]. The pending list
    is cut before the emptiness test, so the state returned with an
    exception already lacks the transactions taken. *)
Definition create_block (txs : option (list Transaction))
    (validator : option string) (now : Z) (bc : Blockchain)
  : result Block * Blockchain :=
  let '(txs, bc) :=
    match txs with
    | None => (take 10 (pending_transactions bc),
               set_pending (drop 10 (pending_transactions bc)) bc)
    | Some txs => (txs, bc)
    end in
  match txs with
  | [] => (Raise (ValueError "No transactions to include in block"), bc)
  | _ =>
      match last (chain bc) with
      | None => (Raise IndexError, bc)
      | Some previous_block =>
          let validator :=
            match validator with
            | Some v => if String.eqb v "" then bc_instance_id bc else v
            | None => bc_instance_id bc
            end in
          (Ok (new_Block (Z.of_nat (length (chain bc))) now
                 (block_hash previous_block) validator txs), bc)
      end
  end.

Definition validate_transaction (tx : Transaction) : bool :=
  String.eqb (data_hash tx) (Transaction_calculate_data_hash tx).

(** [_validate_block]: [self.chain[-1]] raises on an empty chain. *)
Definition validate_block (bc : Blockchain) (block : Block) : result bool :=
  if Z.eqb (index block) 0 then Ok true
  else
    match last (chain bc) with
    | None => Raise IndexError
    | Some previous_block =>
        if negb (Z.eqb (index block) (index previous_block + 1)) then Ok false
        else if negb (String.eqb (previous_hash block)
                        (block_hash previous_block)) then Ok false
        else if negb (String.eqb (block_hash block)
                        (Block_calculate_hash block)) then Ok false
        else if negb (String.eqb (merkle_root block)
                        (Block_calculate_merkle_root block)) then Ok false
        else Ok (forallb validate_transaction (transactions block))
    end.

(** The loop of [add_block] that takes the block's transactions out of
    the pool index and out of the pending list. *)
Definition forget_transaction (bc : Blockchain) (tx : Transaction)
  : Blockchain :=
  set_pending (list_remove_first tx (pending_transactions bc))
    (set_pool (delete (tx_id tx) (transaction_pool bc)) bc).

(** [add_block(block)]. The loop runs over [block.transactions] as a
    list of the block's own: so it is after [create_block()], which
    slices, and whenever the list differs from the pending list. The run
    in which the block carries the pending list itself is
    [Sharing.add_block_shared]. *)
Definition add_block (block : Block) (bc : Blockchain)
  : result bool * Blockchain :=
  match validate_block bc block with
  | Raise e => (Raise e, bc)
  | Ok false => (Ok false, bc)
  | Ok true =>
      (Ok true,
       foldl forget_transaction (set_chain (chain bc ++ [block]) bc)
         (transactions block))
  end.

(** [verify_integrity]: the loop over [enumerate(self.chain)], from
    position [i] on. *)
Fixpoint verify_from (bc : Blockchain) (i : nat) (blocks : list Block)
  : result bool :=
  match blocks with
  | [] => Ok true
  | block :: rest =>
      let broken :=
        match i with
        | O => false
        | S j =>
            match chain bc !! j with
            | Some prev =>
                negb (String.eqb (previous_hash block) (block_hash prev))
            | None => false
            end
        end in
      if broken then Ok false
      else
        match validate_block bc block with
        | Raise e => Raise e
        | Ok false => Ok false
        | Ok true => verify_from bc (S i) rest
        end
  end.

Definition verify_integrity (bc : Blockchain) : result bool :=
  verify_from bc 0 (chain bc).

End Ledger.

End Core.

(** ** Proof of Authority ([blockchain/consensus.py]) *)

Module Consensus.
Import Core.

Record Validator : Type := mkValidator {
  instance_id : string;
  name : string;
  address : string;
  public_key : string;
  is_active : bool;
  last_block_time : option Z
}.

(** [Validator(instance_id, name, address, public_key)] with the defaults
    [is_active=True], [last_block_time=None]. *)
Definition new_Validator (id name address key : string) : Validator :=
  mkValidator id name address key true None.

Definition set_is_active (b : bool) (v : Validator) : Validator :=
  mkValidator (instance_id v) (name v) (address v) (public_key v) b
    (last_block_time v).

Definition set_last_block_time (t : Z) (v : Validator) : Validator :=
  mkValidator (instance_id v) (name v) (address v) (public_key v)
    (is_active v) (Some t).

(** [self.validators] is a dict: its keys are distinct and it iterates in
    insertion order. An update of the object stored under a key keeps the
    key's position. *)
Fixpoint dict_alter {A} (f : A → A) (k : string) (kvs : list (string * A))
  : list (string * A) :=
  match kvs with
  | [] => []
  | kv :: kvs' =>
      if String.eqb kv.1 k then (kv.1, f kv.2) :: kvs'
      else kv :: dict_alter f k kvs'
  end.

Record ProofOfAuthority : Type := mkProofOfAuthority {
  blockchain : Blockchain;
  block_time : Z;
  validators : list (string * Validator);
  current_validator_index : Z
}.

Definition set_blockchain (bc : Blockchain) (poa : ProofOfAuthority)
  : ProofOfAuthority :=
  mkProofOfAuthority bc (block_time poa) (validators poa)
    (current_validator_index poa).

Definition set_validators (vs : list (string * Validator))
    (poa : ProofOfAuthority) : ProofOfAuthority :=
  mkProofOfAuthority (blockchain poa) (block_time poa) vs
    (current_validator_index poa).

Definition set_current_validator_index (i : Z) (poa : ProofOfAuthority)
  : ProofOfAuthority :=
  mkProofOfAuthority (blockchain poa) (block_time poa) (validators poa) i.

Definition add_validator (v : Validator) (poa : ProofOfAuthority)
  : bool * ProofOfAuthority :=
  match dict_get (instance_id v) (validators poa) with
  | Some _ => (false, poa)
  | None => (true, set_validators (validators poa ++ [(instance_id v, v)]) poa)
  end.

Definition remove_validator (id : string) (poa : ProofOfAuthority)
  : bool * ProofOfAuthority :=
  match dict_get id (validators poa) with
  | None => (false, poa)
  | Some _ =>
      (true, set_validators (dict_alter (set_is_active false) id (validators poa)) poa)
  end.

(** The assignment [self.validators[id].is_active = True] by which a
    caller puts a deactivated validator back (the class has no method for
    it); [KeyError] is not modelled, the assignment is only used on a
    registered id. *)
Definition reactivate_validator (id : string) (poa : ProofOfAuthority)
  : ProofOfAuthority :=
  set_validators (dict_alter (set_is_active true) id (validators poa)) poa.

(** [self.current_validator_index += 1] *)
Definition advance (poa : ProofOfAuthority) : ProofOfAuthority :=
  set_current_validator_index (current_validator_index poa + 1) poa.

Definition default_validators : list Validator :=
  [ new_Validator "Melchior-001" "Melchior" "192.168.50.100:8545"
      "melchior_pubkey_placeholder";
    new_Validator "Balthasar-001" "Balthasar" "192.168.50.101:8545"
      "balthasar_pubkey_placeholder";
    new_Validator "Caspar-001" "Caspar" "192.168.50.102:8545"
      "caspar_pubkey_placeholder";
    new_Validator "NAS-001" "NAS" "192.168.50.78:8545"
      "nas_pubkey_placeholder" ].

(** [ProofOfAuthority(blockchain, block_time, validators)]: an omitted or
    empty [validators] list installs the four default ones. *)
Definition new_ProofOfAuthority (bc : Blockchain) (block_time : Z)
    (vs : option (list Validator)) : ProofOfAuthority :=
  let vs :=
    match vs with
    | None | Some [] => default_validators
    | Some vs => vs
    end in
  foldl (λ poa v, (add_validator v poa).2)
    (mkProofOfAuthority bc block_time [] 0) vs.

(** [[v for v in self.validators.values() if v.is_active]] *)
Definition active_validators (poa : ProofOfAuthority) : list Validator :=
  List.filter is_active (map snd (validators poa)).

(** [%] with a positive divisor is [Z.modulo]: the result is in
    [0 .. len-1] whatever the sign of the pointer. *)
Definition get_current_validator (poa : ProofOfAuthority) : option Validator :=
  let active := active_validators poa in
  match active with
  | [] => None
  | _ =>
      active !! Z.to_nat (current_validator_index poa
                          `mod` Z.of_nat (length active))
  end.

Definition is_my_turn (id : string) (poa : ProofOfAuthority) : bool :=
  match get_current_validator poa with
  | Some current => String.eqb (instance_id current) id
  | None => false
  end.

(** [can_create_block], with [now_ms] the value of [time.time() * 1000].
    The source computes the difference in floating point; the model
    computes it in the rationals, so that the two can differ where the
    float operations round, and the [OverflowError] that
    [timestamp_micros / 1000] raises on a timestamp beyond the range of a
    float has no counterpart here. The properties of the scheduler take
    the answer of the gate as a hypothesis. *)
Definition can_create_block (id : string) (now_ms : Q) (poa : ProofOfAuthority)
  : bool :=
  if negb (is_my_turn id poa) then false
  else
    let too_early :=
      match last (chain (blockchain poa)) with
      | Some last_block =>
          let time_since_last :=
            (now_ms - (timestamp_micros last_block # 1000))%Q in
          if Qlt_le_dec time_since_last (inject_Z (block_time poa))
          then true else false
      | None => false
      end in
    if too_early then false
    else negb (Nat.eqb (length (pending_transactions (blockchain poa))) 0).

Section Scheduler.

Variable sha256 : string → string.

(** [create_block(instance_id)]: [now_ms] is the clock of
    [can_create_block], [now] the timestamp the ledger stamps the block
    with. An exception of [Blockchain.create_block] propagates after the
    ledger has been changed and before the validator and the pointer
    are. *)
Definition create_block (id : string) (now_ms : Q) (now : Z)
    (poa : ProofOfAuthority) : result (option Block) * ProofOfAuthority :=
  if negb (can_create_block id now_ms poa) then (Ok None, poa)
  else
    match dict_get id (validators poa) with
    | None => (Ok None, poa)
    | Some validator =>
        if negb (is_active validator) then (Ok None, poa)
        else
          match Core.create_block sha256 None (Some id) now (blockchain poa) with
          | (Raise e, bc) => (Raise e, set_blockchain bc poa)
          | (Ok block, bc) =>
              let poa := set_blockchain bc poa in
              let poa :=
                set_validators
                  (dict_alter (set_last_block_time (timestamp_micros block))
                     id (validators poa)) poa in
              (Ok (Some block), advance poa)
          end
    end.




End Scheduler.

End Consensus.

(** ** Contracts ([blockchain/contracts.py]) *)

(** Keys of Python dictionaries: the hashable values of the fragment.
    [True] and [1] are the same key. *)
Inductive pykey : Type :=
| KNone
| KInt (z : Z)
| KStr (s : string).

#[export] Instance pykey_eq_dec : EqDecision pykey.
Proof. solve_decision. Defined.

#[export] Instance pykey_countable : Countable pykey.
Proof.
  refine (inj_countable'
    (λ k, match k with
          | KNone => inl ()
          | KInt z => inr (inl z)
          | KStr s => inr (inr s)
          end)
    (λ x, match x with
          | inl () => KNone
          | inr (inl z) => KInt z
          | inr (inr s) => KStr s
          end) _).
  intros []; reflexivity.
Defined.

(** [hash(v)]: [None] stands for the [TypeError] of an unhashable value. *)
Definition py_hash (v : pyval) : option pykey :=
  match v with
  | VNone => Some KNone
  | VBool b => Some (KInt (if b then 1 else 0))
  | VInt z => Some (KInt z)
  | VStr s => Some (KStr s)
  | VList _ | VDict _ => None
  end.

(** A value used as a number in [+], [*], [<=]: anything but an [int] or a
    [bool] ends in a [TypeError]. *)
Definition py_num (v : pyval) : result Z :=
  match v with
  | VInt z => Ok z
  | VBool b => Ok (if b then 1 else 0)
  | _ => Raise TypeError
  end.

(** [str(v)] inside an f-string, for the hashable values. *)
Definition py_str (v : pyval) : string :=
  match v with
  | VNone => "None"
  | VBool true => "True"
  | VBool false => "False"
  | VInt z => pretty z
  | VStr s => s
  | VList _ | VDict _ => ""
  end.

(** [params.get(k)] and [params.get(k, d)] *)
Definition params_get (params : gmap string pyval) (k : string) : pyval :=
  default VNone (params !! k).

Definition params_get_default (params : gmap string pyval) (k : string)
    (d : pyval) : pyval :=
  default d (params !! k).

(** The result map of a contract call. *)
Abbreviation pydict := (list (string * pyval)).

Module MemoryLock.

Record Lock : Type := mkLock {
  holder : string;
  acquired : Z;
  expires : Z
}.

Record MemoryLockContract : Type := mkMemoryLockContract {
  contract_id : string;
  owner : string;
  created_at : Z;
  locks : gmap pykey Lock;
  lock_duration_ms : Z
}.

Definition set_locks (l : gmap pykey Lock) (c : MemoryLockContract)
  : MemoryLockContract :=
  mkMemoryLockContract (contract_id c) (owner c) (created_at c) l
    (lock_duration_ms c).

(** [MemoryLockContract(contract_id, owner)] at clock reading [now]. *)
Definition new (id owner : string) (now : Z) : MemoryLockContract :=
  mkMemoryLockContract id owner now ∅ 30000.

Definition entity_name_required : pydict :=
  [("success", VBool false); ("error", VStr "entity_name required")].

Definition acquire_lock (params : gmap string pyval) (caller : string)
    (now : Z) (c : MemoryLockContract) : result pydict * MemoryLockContract :=
  let entity_name := params_get params "entity_name" in
  let duration_ms :=
    params_get_default params "duration_ms" (VInt (lock_duration_ms c)) in
  if negb (truthy entity_name) then (Ok entity_name_required, c)
  else
    match py_hash entity_name with
    | None => (Raise TypeError, c)
    | Some key =>
        let install :=
          match py_num duration_ms with
          | Raise e => (Raise e, c)
          | Ok d =>
              let lock := mkLock caller now (now + d * 1000) in
              (Ok [("success", VBool true);
                   ("entity_name", entity_name);
                   ("holder", VStr caller);
                   ("expires", VInt (expires lock))],
               set_locks (<[key := lock]> (locks c)) c)
          end in
        match locks c !! key with
        | Some lock =>
            if Z.ltb now (expires lock) then
              (Ok [("success", VBool false);
                   ("error", VStr "Entity already locked");
                   ("holder", VStr (holder lock));
                   ("expires", VInt (expires lock))], c)
            else install
        | None => install
        end
    end.

Definition release_lock (params : gmap string pyval) (caller : string)
    (c : MemoryLockContract) : result pydict * MemoryLockContract :=
  let entity_name := params_get params "entity_name" in
  if negb (truthy entity_name) then (Ok entity_name_required, c)
  else
    match py_hash entity_name with
    | None => (Raise TypeError, c)
    | Some key =>
        match locks c !! key with
        | None => (Ok [("success", VBool false); ("error", VStr "No lock found")], c)
        | Some lock =>
            if negb (String.eqb (holder lock) caller) then
              (Ok [("success", VBool false);
                   ("error", VStr "Only lock holder can release")], c)
            else
              (Ok [("success", VBool true); ("entity_name", entity_name)],
               set_locks (delete key (locks c)) c)
        end
    end.

Definition check_lock (params : gmap string pyval) (now : Z)
    (c : MemoryLockContract) : result pydict * MemoryLockContract :=
  let entity_name := params_get params "entity_name" in
  if negb (truthy entity_name) then (Ok entity_name_required, c)
  else
    match py_hash entity_name with
    | None => (Raise TypeError, c)
    | Some key =>
        match locks c !! key with
        | None => (Ok [("success", VBool true); ("locked", VBool false)], c)
        | Some lock =>
            if Z.leb (expires lock) now then
              (Ok [("success", VBool true); ("locked", VBool false)],
               set_locks (delete key (locks c)) c)
            else
              (Ok [("success", VBool true);
                   ("locked", VBool true);
                   ("holder", VStr (holder lock));
                   ("expires", VInt (expires lock))], c)
        end
    end.

Definition extend_lock (params : gmap string pyval) (caller : string)
    (c : MemoryLockContract) : result pydict * MemoryLockContract :=
  let entity_name := params_get params "entity_name" in
  let extension_ms :=
    params_get_default params "extension_ms" (VInt (lock_duration_ms c)) in
  if negb (truthy entity_name) then (Ok entity_name_required, c)
  else
    match py_hash entity_name with
    | None => (Raise TypeError, c)
    | Some key =>
        match locks c !! key with
        | None => (Ok [("success", VBool false); ("error", VStr "No lock found")], c)
        | Some lock =>
            if negb (String.eqb (holder lock) caller) then
              (Ok [("success", VBool false);
                   ("error", VStr "Only lock holder can extend")], c)
            else
              match py_num extension_ms with
              | Raise e => (Raise e, c)
              | Ok d =>
                  let lock' :=
                    mkLock (holder lock) (acquired lock) (expires lock + d * 1000) in
                  (Ok [("success", VBool true);
                       ("entity_name", entity_name);
                       ("new_expires", VInt (expires lock'))],
                   set_locks (<[key := lock']> (locks c)) c)
              end
        end
    end.

(** [execute(function, params, caller)] at clock reading [now]. *)
Definition execute (function : string) (params : gmap string pyval)
    (caller : string) (now : Z) (c : MemoryLockContract)
  : result pydict * MemoryLockContract :=
  if String.eqb function "acquire_lock" then acquire_lock params caller now c
  else if String.eqb function "release_lock" then release_lock params caller c
  else if String.eqb function "check_lock" then check_lock params now c
  else if String.eqb function "extend_lock" then extend_lock params caller c
  else (Raise (ValueError ("Unknown function: " +:+ function)), c).

Definition validate (params : gmap string pyval) : result bool :=
  duration ← py_num (params_get_default params "lock_duration_ms" (VInt 30000));
  Ok (Z.leb 1000 duration && Z.leb duration 300000).

Definition functions : list string :=
  ["acquire_lock"; "release_lock"; "check_lock"; "extend_lock"].

End MemoryLock.

Module ResourceAllocation.

Record Allocation : Type := mkAllocation {
  cpu : Z;
  memory : Z;
  storage : Z;
  allocated_at : Z
}.

Record Limits : Type := mkLimits {
  total_cpu : Z;
  total_memory : Z;
  total_storage : Z
}.

Record Usage : Type := mkUsage {
  used_cpu : Z;
  used_memory : Z;
  used_storage : Z
}.

Record ResourceAllocationContract : Type := mkResourceAllocationContract {
  contract_id : string;
  owner : string;
  created_at : Z;
  allocations : gmap string Allocation;
  limits : Limits;
  used : Usage
}.

Definition set_state (a : gmap string Allocation) (u : Usage)
    (c : ResourceAllocationContract) : ResourceAllocationContract :=
  mkResourceAllocationContract (contract_id c) (owner c) (created_at c) a
    (limits c) u.

(** [ResourceAllocationContract(contract_id, owner)] at clock reading [now]. *)
Definition new (id owner : string) (now : Z) : ResourceAllocationContract :=
  mkResourceAllocationContract id owner now ∅
    (mkLimits 400 16384 102400) (mkUsage 0 0 0).

Definition allocation_dict (a : Allocation) : pyval :=
  VDict [("cpu", VInt (cpu a));
         ("memory", VInt (memory a));
         ("storage", VInt (storage a));
         ("allocated_at", VInt (allocated_at a))].

Definition available (c : ResourceAllocationContract) : pyval :=
  VDict [("cpu", VInt (total_cpu (limits c) - used_cpu (used c)));
         ("memory", VInt (total_memory (limits c) - used_memory (used c)));
         ("storage", VInt (total_storage (limits c) - used_storage (used c)))].

(** The capacity test, an [or] of three comparisons evaluated left to
    right: a comparison is only evaluated when the ones before it are
    false. *)
Definition exceeds (c : ResourceAllocationContract) (cpu memory storage : pyval)
  : result bool :=
  n ← py_num cpu;
  if Z.ltb (total_cpu (limits c)) (used_cpu (used c) + n) then Ok true
  else
    m ← py_num memory;
    if Z.ltb (total_memory (limits c)) (used_memory (used c) + m) then Ok true
    else
      s ← py_num storage;
      Ok (Z.ltb (total_storage (limits c)) (used_storage (used c) + s)).

(** [_request_resources] on the values of the fragment, whose numbers are
    integers; [ResourceNumbers.request_resources] below is the method on
    floats as well. A quantity given as a [bool] is stored as the integer
    it counts as. *)
Definition request_resources (params : gmap string pyval) (caller : string)
    (now : Z) (c : ResourceAllocationContract)
  : result pydict * ResourceAllocationContract :=
  let cpu := params_get_default params "cpu" (VInt 0) in
  let memory := params_get_default params "memory" (VInt 0) in
  let storage := params_get_default params "storage" (VInt 0) in
  match exceeds c cpu memory storage with
  | Raise e => (Raise e, c)
  | Ok true =>
      (Ok [("success", VBool false);
           ("error", VStr "Insufficient resources");
           ("available", available c)], c)
  | Ok false =>
      match py_num cpu, py_num memory, py_num storage with
      | Ok n, Ok m, Ok s =>
          let u :=
            match allocations c !! caller with
            | Some old_alloc =>
                mkUsage (used_cpu (used c) - ResourceAllocation.cpu old_alloc)
                  (used_memory (used c) - ResourceAllocation.memory old_alloc)
                  (used_storage (used c) - ResourceAllocation.storage old_alloc)
            | None => used c
            end in
          let alloc := mkAllocation n m s now in
          (Ok [("success", VBool true); ("allocation", allocation_dict alloc)],
           set_state (<[caller := alloc]> (allocations c))
             (mkUsage (used_cpu u + n) (used_memory u + m) (used_storage u + s)) c)
      | _, _, _ => (Raise TypeError, c)
      end
  end.

Definition release_resources (params : gmap string pyval) (caller : string)
    (c : ResourceAllocationContract)
  : result pydict * ResourceAllocationContract :=
  match allocations c !! caller with
  | None => (Ok [("success", VBool false); ("error", VStr "No allocation found")], c)
  | Some alloc =>
      (Ok [("success", VBool true)],
       set_state (delete caller (allocations c))
         (mkUsage (used_cpu (used c) - cpu alloc)
            (used_memory (used c) - memory alloc)
            (used_storage (used c) - storage alloc)) c)
  end.

Definition get_allocation (params : gmap string pyval)
    (c : ResourceAllocationContract)
  : result pydict * ResourceAllocationContract :=
  let instance_id := params_get params "instance_id" in
  if negb (truthy instance_id) then
    (Ok [("success", VBool false); ("error", VStr "instance_id required")], c)
  else
    match py_hash instance_id with
    | None => (Raise TypeError, c)
    | Some key =>
        let found :=
          match key with
          | KStr s => allocations c !! s
          | _ => None
          end in
        match found with
        | None => (Ok [("success", VBool true); ("allocation", VNone)], c)
        | Some alloc =>
            (Ok [("success", VBool true); ("allocation", allocation_dict alloc)], c)
        end
    end.

Definition get_usage (c : ResourceAllocationContract)
  : result pydict * ResourceAllocationContract :=
  (Ok [("success", VBool true);
       ("limits", VDict [("total_cpu", VInt (total_cpu (limits c)));
                         ("total_memory", VInt (total_memory (limits c)));
                         ("total_storage", VInt (total_storage (limits c)))]);
       ("used", VDict [("cpu", VInt (used_cpu (used c)));
                       ("memory", VInt (used_memory (used c)));
                       ("storage", VInt (used_storage (used c)))]);
       ("available", available c)], c).

(** [execute(function, params, caller)] at clock reading [now]. *)
Definition execute (function : string) (params : gmap string pyval)
    (caller : string) (now : Z) (c : ResourceAllocationContract)
  : result pydict * ResourceAllocationContract :=
  if String.eqb function "request_resources" then
    request_resources params caller now c
  else if String.eqb function "release_resources" then
    release_resources params caller c
  else if String.eqb function "get_allocation" then get_allocation params c
  else if String.eqb function "get_usage" then get_usage c
  else (Raise (ValueError ("Unknown function: " +:+ function)), c).

(** [cpu >= 0 and memory >= 0 and storage >= 0], left to right. *)
Definition validate (params : gmap string pyval) : result bool :=
  n ← py_num (params_get_default params "cpu" (VInt 0));
  if negb (Z.leb 0 n) then Ok false
  else
    m ← py_num (params_get_default params "memory" (VInt 0));
    if negb (Z.leb 0 m) then Ok false
    else
      s ← py_num (params_get_default params "storage" (VInt 0));
      Ok (Z.leb 0 s).

Definition functions : list string :=
  ["request_resources"; "release_resources"; "get_allocation"; "get_usage"].

End ResourceAllocation.

Module WorkflowAutomation.

Record Workflow : Type := mkWorkflow {
  wf_owner : string;
  steps : pyval;
  triggers : pyval;
  wf_created_at : Z;
  is_active : bool
}.

Record Execution : Type := mkExecution {
  workflow_id : pyval;
  triggered_by : string;
  started_at : Z;
  status : string;
  current_step : Z;
  input_data : pyval;
  step_results : list pyval
}.

Record WorkflowAutomationContract : Type := mkWorkflowAutomationContract {
  contract_id : string;
  owner : string;
  created_at : Z;
  workflows : gmap pykey Workflow;
  executions : gmap string Execution
}.

(** [WorkflowAutomationContract(contract_id, owner)] at clock reading [now]. *)
Definition new (id owner : string) (now : Z) : WorkflowAutomationContract :=
  mkWorkflowAutomationContract id owner now ∅ ∅.

Definition execution_dict (e : Execution) : pyval :=
  VDict [("workflow_id", workflow_id e);
         ("triggered_by", VStr (triggered_by e));
         ("started_at", VInt (started_at e));
         ("status", VStr (status e));
         ("current_step", VInt (current_step e));
         ("input_data", input_data e);
         ("step_results", VList (step_results e))].

Definition register_workflow (params : gmap string pyval) (caller : string)
    (now : Z) (c : WorkflowAutomationContract)
  : result pydict * WorkflowAutomationContract :=
  let workflow_id := params_get params "workflow_id" in
  let steps := params_get_default params "steps" (VList []) in
  let triggers := params_get_default params "triggers" (VList []) in
  if negb (truthy workflow_id) || negb (truthy steps) then
    (Ok [("success", VBool false);
         ("error", VStr "workflow_id and steps required")], c)
  else
    match py_hash workflow_id with
    | None => (Raise TypeError, c)
    | Some key =>
        (Ok [("success", VBool true); ("workflow_id", workflow_id)],
         mkWorkflowAutomationContract (contract_id c) (owner c) (created_at c)
           (<[key := mkWorkflow caller steps triggers now true]> (workflows c))
           (executions c))
    end.

(** [trigger_workflow] reads the clock twice: [now] goes into the
    execution id, [now'] into [started_at]. *)
Definition trigger_workflow (params : gmap string pyval) (caller : string)
    (now now' : Z) (c : WorkflowAutomationContract)
  : result pydict * WorkflowAutomationContract :=
  let workflow_id := params_get params "workflow_id" in
  let input_data := params_get_default params "input_data" (VDict []) in
  if negb (truthy workflow_id) then
    (Ok [("success", VBool false); ("error", VStr "workflow_id required")], c)
  else
    match py_hash workflow_id with
    | None => (Raise TypeError, c)
    | Some key =>
        match workflows c !! key with
        | None =>
            (Ok [("success", VBool false); ("error", VStr "Workflow not found")], c)
        | Some _ =>
            let execution_id := py_str workflow_id +:+ "-" +:+ pretty now in
            let execution :=
              mkExecution workflow_id caller now' "running" 0 input_data [] in
            (Ok [("success", VBool true); ("execution_id", VStr execution_id)],
             mkWorkflowAutomationContract (contract_id c) (owner c) (created_at c)
               (workflows c) (<[execution_id := execution]> (executions c)))
        end
    end.

Definition get_execution_status (params : gmap string pyval)
    (c : WorkflowAutomationContract)
  : result pydict * WorkflowAutomationContract :=
  let execution_id := params_get params "execution_id" in
  if negb (truthy execution_id) then
    (Ok [("success", VBool false); ("error", VStr "execution_id required")], c)
  else
    match py_hash execution_id with
    | None => (Raise TypeError, c)
    | Some key =>
        let found :=
          match key with
          | KStr s => executions c !! s
          | _ => None
          end in
        match found with
        | None =>
            (Ok [("success", VBool false); ("error", VStr "Execution not found")], c)
        | Some e =>
            (Ok [("success", VBool true); ("execution", execution_dict e)], c)
        end
    end.

(** [execute(function, params, caller)] at clock readings [now], [now']. *)
Definition execute (function : string) (params : gmap string pyval)
    (caller : string) (now now' : Z) (c : WorkflowAutomationContract)
  : result pydict * WorkflowAutomationContract :=
  if String.eqb function "register_workflow" then
    register_workflow params caller now c
  else if String.eqb function "trigger_workflow" then
    trigger_workflow params caller now now' c
  else if String.eqb function "get_execution_status" then
    get_execution_status params c
  else (Raise (ValueError ("Unknown function: " +:+ function)), c).

Definition functions : list string :=
  ["register_workflow"; "trigger_workflow"; "get_execution_status"].

End WorkflowAutomation.

(** ** The Merkle fold in the specification's words *)

Module Spec.
Section Fold.

Variable sha256 : string → string.

(** One level: the hashes are paired from the left, and a last hash left
    without a partner (a level of odd length) is paired with itself. *)
Fixpoint pair_level (hashes : list string) : list string :=
  match hashes with
  | [] => []
  | [a] => [sha256 (a +:+ a)]
  | a :: b :: rest => sha256 (a +:+ b) :: pair_level rest
  end.

Lemma pair_level_length hashes :
  length (pair_level hashes) = Nat.div2 (S (length hashes)).
Proof.
  enough (H : length (pair_level hashes) = Nat.div2 (S (length hashes))
              ∧ ∀ a, length (pair_level (a :: hashes))
                     = Nat.div2 (S (S (length hashes)))) by apply H.
  induction hashes as [|b rest [IH1 IH2]]; split; try reflexivity.
  - apply IH2.
  - intros a. simpl. f_equal. apply IH1.
Qed.

(** Levels are folded until one hash remains; no hash at all folds to the
    digest of ["empty"]. *)
Equations? merkle_fold (hashes : list string) : string
  by wf (length hashes) lt :=
merkle_fold [] := sha256 "empty";
merkle_fold [h] := h;
merkle_fold (a :: b :: rest) := merkle_fold (pair_level (a :: b :: rest)).
Proof.
  simpl. rewrite pair_level_length, Nat.div2_div.
  pose proof (Nat.Div0.div_lt_upper_bound (S (length rest)) 2 (S (length rest))).
  lia.
Qed.

End Fold.
End Spec.

(** ** Sample runs *)

(** The ledger is parametric in the digest; the sample runs below use a
    digest that wraps its argument, which keeps every hashed text
    readable. *)
Module Sample.
Import Core.

Definition digest (s : string) : string := "#" +:+ s.

Definition ledger : Blockchain := new_Blockchain digest "TEST-001" None "GENESIS" 1000.

(** [create_transaction(operation, data)], [create_block()] and
    [add_block(block)] in a row, as the integrity test of the repository
    does; the clock reads [now] and [now']. *)
Definition append_block (sha256 : string → string)
    (round : string * list (string * pyval) * Z * Z) (bc : Blockchain)
  : result bool * Blockchain :=
  let '(operation, data, now, now') := round in
  let bc := (create_transaction sha256 operation data None now bc).2 in
  match create_block sha256 None None now' bc with
  | (Raise e, bc) => (Raise e, bc)
  | (Ok block, bc) => add_block sha256 block bc
  end.

Fixpoint append_blocks (sha256 : string → string)
    (rounds : list (string * list (string * pyval) * Z * Z)) (bc : Blockchain)
  : list (result bool) * Blockchain :=
  match rounds with
  | [] => ([], bc)
  | round :: rounds =>
      let '(r, bc) := append_block sha256 round bc in
      let '(rs, bc) := append_blocks sha256 rounds bc in
      (r :: rs, bc)
  end.

(** The five rounds of [test_blockchain_integrity_verification]. *)
Definition test_rounds : list (string * list (string * pyval) * Z * Z) :=
  [("test_op", [("index", VInt 0)], 2000, 2001);
   ("test_op", [("index", VInt 1)], 3000, 3001);
   ("test_op", [("index", VInt 2)], 4000, 4001);
   ("test_op", [("index", VInt 3)], 5000, 5001);
   ("test_op", [("index", VInt 4)], 6000, 6001)].

(** A scheduler over the four default validators, and one whose ledger
    holds a pending transaction. *)
Definition scheduler : Consensus.ProofOfAuthority :=
  Consensus.new_ProofOfAuthority ledger 1000 None.

Definition busy_scheduler : Consensus.ProofOfAuthority :=
  Consensus.new_ProofOfAuthority
    (create_transaction digest "create_entity" [("name", VStr "Entity1")]
       None 2000 ledger).2
    1000 None.

End Sample.

(** * Properties *)


(** ** Canonical JSON *)

Section CanonicalJson.

Lemma string_leb_iff a b :
  String.leb a b = true ↔ a = b ∨ String.compare a b = Lt.
Proof.
  unfold String.leb. pose proof (String.compare_eq_iff a b) as Heq.
  destruct (String.compare a b) eqn:Hc; split; try done.
  - by left; apply Heq.
  - by right.
  - intros [->|?]; [|done]. pose proof (String.compare_antisym b b) as Ha.
    rewrite Hc in Ha. discriminate.
Qed.

Lemma string_compare_OT a b :
  OrdersEx.String_as_OT.compare a b = String.compare a b.
Proof.
  revert b.
  induction a as [|x a IH]; intros [|y b]; simpl; rewrite ?IH; reflexivity.
Qed.

Lemma string_leb_trans a b c :
  String.leb a b = true → String.leb b c = true → String.leb a c = true.
Proof.
  rewrite !string_leb_iff. intros [->|Hab] [->|Hbc]; auto.
  right. rewrite <- string_compare_OT in *.
  exact (StrictOrder_Transitive (R:=OrdersEx.String_as_OT.lt) _ _ _ Hab Hbc).
Qed.

(** Two items with different keys go into a list in either order. *)
Lemma insert_item_comm x y l :
  x.1 ≠ y.1 →
  Json.insert_item x (Json.insert_item y l)
  = Json.insert_item y (Json.insert_item x l).
Proof.
  intros Hne. induction l as [|z l IH]; simpl.
  - destruct (String.leb x.1 y.1) eqn:Hxy, (String.leb y.1 x.1) eqn:Hyx;
      try reflexivity.
    + destruct Hne. by apply String.leb_antisym.
    + destruct (String.leb_total x.1 y.1); congruence.
  - destruct (String.leb y.1 z.1) eqn:Hyz, (String.leb x.1 z.1) eqn:Hxz; simpl;
      rewrite ?Hyz, ?Hxz.
    + destruct (String.leb x.1 y.1) eqn:Hxy, (String.leb y.1 x.1) eqn:Hyx;
        try reflexivity.
      * destruct Hne. by apply String.leb_antisym.
      * destruct (String.leb_total x.1 y.1); congruence.
    + destruct (String.leb x.1 y.1) eqn:Hxy; [|reflexivity].
      pose proof (string_leb_trans _ _ _ Hxy Hyz). congruence.
    + destruct (String.leb y.1 x.1) eqn:Hyx; [|reflexivity].
      pose proof (string_leb_trans _ _ _ Hyx Hxz). congruence.
    + by rewrite IH.
Qed.

Lemma sort_items_perm l l' :
  l ≡ₚ l' → NoDup l.*1 → Json.sort_items l = Json.sort_items l'.
Proof.
  induction 1 as [|x l l' Hp IH|x y l|l l' l'' Hp IH Hp' IH']; intros Hnd; simpl.
  - reflexivity.
  - rewrite IH; [reflexivity|]. by inversion Hnd.
  - apply insert_item_comm. simpl in Hnd. inversion Hnd as [|? ? Hin _]; subst.
    intros Heq. apply Hin. rewrite Heq. left.
  - rewrite IH by done. apply IH'. by rewrite <- Hp.
Qed.

Lemma dumps_dict kvs :
  Json.dumps (VDict kvs)
  = "{" +:+ String.concat ", "
              (map Json.render_item
                 (Json.sort_items (map (λ kv, (kv.1, Json.dumps kv.2)) kvs)))
        +:+ "}".
Proof. reflexivity. Qed.

(** The text of a dict does not depend on the order its keys were
    inserted in. *)
Lemma dumps_dict_perm kvs kvs' :
  NoDup kvs.*1 → kvs' ≡ₚ kvs →
  Json.dumps (VDict kvs') = Json.dumps (VDict kvs).
Proof.
  intros Hnd Hp. rewrite !dumps_dict.
  rewrite (sort_items_perm (map (λ kv, (kv.1, Json.dumps kv.2)) kvs')
             (map (λ kv, (kv.1, Json.dumps kv.2)) kvs)); [reflexivity| |].
  - by apply Permutation_map.
  - rewrite Hp. rewrite <- list_fmap_compose.
    erewrite list_fmap_ext; [exact Hnd|]. by intros ? [].
Qed.

End CanonicalJson.

(** ** Transactions: identifier and data hash *)

Section TransactionIdentity.

Variable sha256 : string → string.

Lemma new_Transaction_tx_id operation data timestamp instance :
  Core.tx_id (Core.new_Transaction sha256 operation data timestamp instance)
  = pretty timestamp +:+ "-" +:+ instance +:+ "-"
    +:+ String.substring 0 8 (sha256 (operation +:+ Json.dumps (VDict data))).
Proof. reflexivity. Qed.

Lemma new_Transaction_data_hash operation data timestamp instance :
  Core.data_hash (Core.new_Transaction sha256 operation data timestamp instance)
  = sha256 ("{" +:+ String.concat ", "
              [Json.quote "data" +:+ ": " +:+ Json.dumps (VDict data);
               Json.quote "instance_id" +:+ ": " +:+ Json.quote instance;
               Json.quote "operation" +:+ ": " +:+ Json.quote operation;
               Json.quote "timestamp_micros" +:+ ": " +:+ pretty timestamp]
            +:+ "}").
Proof. reflexivity. Qed.

(** C4. Constructing a transaction from an operation, a data map, a
    timestamp and an instance id gives it the identifier
    "<timestamp>-<instance>-<first 8 characters of the digest of the
    operation followed by the key-sorted JSON of the data>" and, as data
    hash, the digest of the key-sorted JSON of the four fields, whose text
    lists them in the order data, instance_id, operation,
    timestamp_micros; two constructions from equal inputs give the same
    identifier and the same data hash. *)
Theorem transaction_id_and_data_hash
    (operation : string) (data : list (string * pyval)) (timestamp : Z)
    (instance : string) :
  let tx := Core.new_Transaction sha256 operation data timestamp instance in
  Core.tx_id tx
  = pretty timestamp +:+ "-" +:+ instance +:+ "-"
    +:+ String.substring 0 8 (sha256 (operation +:+ Json.dumps (VDict data)))
  ∧ Core.data_hash tx
    = sha256 (Json.dumps (VDict [("operation", VStr operation);
                                 ("data", VDict data);
                                 ("timestamp_micros", VInt timestamp);
                                 ("instance_id", VStr instance)]))
  ∧ Core.data_hash tx
    = sha256 ("{" +:+ String.concat ", "
                [Json.quote "data" +:+ ": " +:+ Json.dumps (VDict data);
                 Json.quote "instance_id" +:+ ": " +:+ Json.quote instance;
                 Json.quote "operation" +:+ ": " +:+ Json.quote operation;
                 Json.quote "timestamp_micros" +:+ ": " +:+ pretty timestamp]
              +:+ "}")
  ∧ ∀ operation' data' timestamp' instance',
      operation' = operation → data' = data → timestamp' = timestamp →
      instance' = instance →
      let tx' :=
        Core.new_Transaction sha256 operation' data' timestamp' instance' in
      Core.tx_id tx' = Core.tx_id tx ∧ Core.data_hash tx' = Core.data_hash tx.
Proof.
  repeat split; try reflexivity; by subst.
Qed.

(** The data hash a transaction is validated against is the one its
    construction stored. *)
Lemma new_Transaction_valid operation data timestamp instance :
  Core.validate_transaction sha256
    (Core.new_Transaction sha256 operation data timestamp instance) = true.
Proof. apply String.eqb_refl. Qed.

(** X1. The identifier and the data hash depend on the data as a map: the
    order in which its keys were inserted does not matter. *)
Theorem transaction_key_order_irrelevant
    (operation : string) (data data' : list (string * pyval)) (timestamp : Z)
    (instance : string) :
  NoDup data.*1 → data' ≡ₚ data →
  Core.tx_id (Core.new_Transaction sha256 operation data' timestamp instance)
  = Core.tx_id (Core.new_Transaction sha256 operation data timestamp instance)
  ∧ Core.data_hash (Core.new_Transaction sha256 operation data' timestamp instance)
    = Core.data_hash (Core.new_Transaction sha256 operation data timestamp instance).
Proof.
  intros Hnd Hp. pose proof (dumps_dict_perm _ _ Hnd Hp) as Hd.
  rewrite !new_Transaction_tx_id, !new_Transaction_data_hash.
  by rewrite Hd.
Qed.

End TransactionIdentity.

Lemma transaction_id_and_data_hash_sample :
  let tx :=
    Core.new_Transaction Sample.digest "create_entity"
      [("name", VStr "TestEntity"); ("type", VStr "Test")]
      1750400000000000 "TEST-001" in
  Core.tx_id tx = "1750400000000000-TEST-001-#create_"
  ∧ Core.data_hash tx
    = Core.data_hash
        (Core.new_Transaction Sample.digest "create_entity"
           [("name", VStr "TestEntity"); ("type", VStr "Test")]
           1750400000000000 "TEST-001").
Proof.
  pose proof (transaction_id_and_data_hash Sample.digest "create_entity"
                [("name", VStr "TestEntity"); ("type", VStr "Test")]
                1750400000000000 "TEST-001") as (Hid & _ & _ & Hdet).
  split.
  - vm_compute. reflexivity.
  - apply (Hdet "create_entity" _ 1750400000000000 "TEST-001");
      reflexivity.
Defined.

Lemma transaction_key_order_irrelevant_sample :
  Core.data_hash
    (Core.new_Transaction Sample.digest "create_entity"
       [("type", VStr "Test"); ("name", VStr "TestEntity")] 5 "TEST-001")
  = Core.data_hash
      (Core.new_Transaction Sample.digest "create_entity"
         [("name", VStr "TestEntity"); ("type", VStr "Test")] 5 "TEST-001").
Proof.
  apply (transaction_key_order_irrelevant Sample.digest "create_entity"
           [("name", VStr "TestEntity"); ("type", VStr "Test")]
           [("type", VStr "Test"); ("name", VStr "TestEntity")]).
  - apply (bool_decide_unpack _). vm_compute. exact I.
  - apply perm_swap.
Defined.

(** ** Blocks: the Merkle root *)

Section MerkleRoot.

Variable sha256 : string → string.

(** Padding a level of odd length with its last hash and pairing is
    pairing with the last hash doubled. *)
Lemma pair_hashes_pad_odd hashes :
  Core.pair_hashes sha256 (Core.pad_odd hashes) = Spec.pair_level sha256 hashes.
Proof.
  enough (H : Core.pair_hashes sha256 (Core.pad_odd hashes)
              = Spec.pair_level sha256 hashes
              ∧ ∀ a, Core.pair_hashes sha256 (Core.pad_odd (a :: hashes))
                     = Spec.pair_level sha256 (a :: hashes)) by apply H.
  induction hashes as [|b rest [IH1 IH2]]; split; try reflexivity.
  - apply IH2.
  - intros a. unfold Core.pad_odd in *.
    change (length (a :: b :: rest)) with (S (S (length rest))).
    rewrite Nat.odd_succ_succ.
    destruct (Nat.odd (length rest)) eqn:Hodd.
    + destruct rest as [|c rest]; [discriminate|].
      simpl. f_equal. apply IH1.
    + simpl. f_equal. apply IH1.
Qed.

Lemma merkle_loop_fold hashes :
  hashes ≠ [] →
  Core.merkle_loop sha256 hashes = Spec.merkle_fold sha256 hashes.
Proof.
  induction hashes as [hashes IH] using (induction_ltof1 _ (@length _)).
  unfold ltof in IH.
  destruct hashes as [|a [|b rest]]; intros Hne; [done| reflexivity |].
  rewrite Core.merkle_loop_equation_3, Spec.merkle_fold_equation_3.
  rewrite pair_hashes_pad_odd. apply IH.
  - rewrite Spec.pair_level_length, Nat.div2_div.
    pose proof (Nat.Div0.div_lt_upper_bound (S (length (a :: b :: rest))) 2
                  (length (a :: b :: rest))).
    simpl in *. lia.
  - discriminate.
Qed.

Lemma calculate_merkle_root_fold txs :
  Core.calculate_merkle_root sha256 txs
  = Spec.merkle_fold sha256 (map Core.data_hash txs).
Proof.
  destruct txs as [|tx txs]; [reflexivity|].
  unfold Core.calculate_merkle_root. apply merkle_loop_fold. discriminate.
Qed.

(** C5. The Merkle root a block is constructed with is the pairwise fold
    of the data hashes of its transactions, a level of odd length being
    completed with its last hash, until one hash remains; a block
    constructed without transactions has the digest of "empty" as root;
    and recomputing the root of a freshly constructed block from the
    transactions it stores gives the root it stores. *)
Theorem merkle_root_is_pairwise_fold
    (index timestamp : Z) (previous_hash validator : string)
    (txs : list Core.Transaction) :
  let block :=
    Core.new_Block sha256 index timestamp previous_hash validator txs in
  Core.merkle_root block
  = Spec.merkle_fold sha256 (map Core.data_hash (Core.transactions block))
  ∧ Core.merkle_root
      (Core.new_Block sha256 index timestamp previous_hash validator [])
    = sha256 "empty"
  ∧ Core.Block_calculate_merkle_root sha256 block = Core.merkle_root block.
Proof.
  repeat split. apply calculate_merkle_root_fold.
Qed.

End MerkleRoot.

(** ** The ledger: validation and integrity *)

Section LedgerProperties.
Import Core.

Variable sha256 : string → string.

Lemma validate_block_head bc block :
  validate_block sha256 bc block = Ok true →
  index block = 0 ∨ ∃ head, last (chain bc) = Some head ∧ index block = index head + 1.
Proof.
  unfold validate_block. destruct (Z.eqb_spec (index block) 0) as [?|Hne]; [by left|].
  destruct (last (chain bc)) as [head|]; [|done].
  destruct (Z.eqb_spec (index block) (index head + 1)); [|done].
  intros _. right. eauto.
Qed.

(** No exception on a non-empty chain. *)
Lemma validate_block_no_raise bc block :
  chain bc ≠ [] → ∃ b, validate_block sha256 bc block = Ok b.
Proof.
  intros Hne. unfold validate_block.
  destruct (Z.eqb (index block) 0); [eauto|].
  destruct (last (chain bc)) as [head|] eqn:Hl.
  - repeat (match goal with |- context [if ?c then _ else _] => destruct c end; eauto).
  - apply last_None in Hl. done.
Qed.

Lemma verify_from_rejects bc i blocks block :
  chain bc ≠ [] → block ∈ blocks →
  validate_block sha256 bc block = Ok false →
  verify_from sha256 bc i blocks = Ok false.
Proof.
  intros Hne Hin Hbad. revert i.
  induction blocks as [|b blocks IH]; intros i; [by apply elem_of_nil in Hin|].
  simpl. match goal with |- (if ?c then _ else _) = _ => destruct c end; [done|].
  destruct (validate_block_no_raise bc b Hne) as [[] Hv]; rewrite Hv; [|done].
  apply IH. apply elem_of_cons in Hin as [->|?]; [congruence|done].
Qed.

Definition ledger_inv (bc : Blockchain) : Prop :=
  chain bc ≠ []
  ∧ (∀ i b, chain bc !! i = Some b → index b = Z.of_nat i)
  ∧ Forall (λ tx, validate_transaction sha256 tx = true) (pending_transactions bc).

Lemma new_Blockchain_inv instance url validator now :
  ledger_inv (new_Blockchain sha256 instance url validator now).
Proof.
  split; [done|]. split; [|constructor].
  intros [|i] b; simpl; [|by rewrite lookup_nil]. by intros [= <-].
Qed.

Lemma list_remove_first_subseteq x l : list_remove_first x l ⊆ l.
Proof.
  induction l as [|y l IH]; simpl; [done|].
  destruct (Transaction_eqb y x).
  - by apply list_subseteq_cons.
  - intros z [->|Hz]%elem_of_cons; [left|right; by apply IH].
Qed.

Lemma forallb_Forall {A} (f : A → bool) l :
  Forall (λ x, f x = true) l → forallb f l = true.
Proof. induction 1 as [|x l Hx _ IH]; simpl; [done|]. by rewrite Hx, IH. Qed.

Lemma forget_transactions_chain txs bc :
  chain (foldl forget_transaction bc txs) = chain bc.
Proof. revert bc. induction txs as [|tx txs IH]; intros bc; simpl; [done|]. by rewrite IH. Qed.

Lemma forget_transactions_pending txs bc :
  pending_transactions (foldl forget_transaction bc txs) ⊆ pending_transactions bc.
Proof.
  revert bc. induction txs as [|tx txs IH]; intros bc; simpl; [done|].
  etrans; [apply IH|]. apply list_remove_first_subseteq.
Qed.

Lemma new_Block_valid bc head now validator txs :
  ledger_inv bc → last (chain bc) = Some head →
  Forall (λ tx, validate_transaction sha256 tx = true) txs →
  validate_block sha256 bc
    (new_Block sha256 (Z.of_nat (length (chain bc))) now (block_hash head) validator txs)
  = Ok true.
Proof.
  intros (Hne & Hidx & _) Hlast Htxs. unfold validate_block. simpl index.
  destruct (Z.eqb_spec (Z.of_nat (length (chain bc))) 0) as [H0|_].
  { destruct (chain bc); [done|]. simpl in H0. lia. }
  rewrite Hlast.
  assert (index head + 1 = Z.of_nat (length (chain bc))) as ->.
  { rewrite last_lookup in Hlast. rewrite (Hidx _ _ Hlast).
    destruct (chain bc); [done|]. simpl. lia. }
  rewrite Z.eqb_refl. simpl. rewrite !String.eqb_refl. simpl.
  f_equal. by apply forallb_Forall.
Qed.

Lemma append_block_ok round bc :
  ledger_inv bc →
  ∃ bc', Sample.append_block sha256 round bc = (Ok true, bc')
         ∧ ledger_inv bc'
         ∧ length (chain bc') = S (length (chain bc)).
Proof.
  intros Hinv. destruct round as [[[operation data] now] now'].
  pose proof Hinv as (Hne & Hidx & Hpend).
  unfold Sample.append_block, create_transaction. cbn [snd].
  set (tx := new_Transaction sha256 operation data now (bc_instance_id bc)).
  assert (Hvalid : Forall (λ tx, validate_transaction sha256 tx = true)
                     (pending_transactions bc ++ [tx])).
  { apply Forall_app. split; [done|]. constructor; [|done].
    apply String.eqb_refl. }
  unfold create_block. cbn [pending_transactions set_pending set_pool chain].
  destruct (take 10 (pending_transactions bc ++ [tx])) as [|tx0 txs] eqn:Htake.
  { apply (f_equal length) in Htake. rewrite length_take, length_app in Htake.
    cbn [length] in Htake. lia. }
  destruct (last (chain bc)) as [head|] eqn:Hlast; [|by apply last_None in Hlast].
  set (bc2 := set_pending _ _).
  assert (Hinv2 : ledger_inv bc2).
  { split; [done|]. split; [done|]. simpl.
    by apply Forall_drop. }
  assert (Htxs : Forall (λ tx, validate_transaction sha256 tx = true) (tx0 :: txs)).
  { rewrite <- Htake. by apply Forall_take. }
  pose proof (new_Block_valid bc2 head now' (bc_instance_id bc) _
                Hinv2 Hlast Htxs) as Hv.
  unfold add_block. change (chain bc2) with (chain bc) in *.
  change (bc_instance_id bc2) with (bc_instance_id bc).
  rewrite Hv. eexists. split; [reflexivity|].
  split; [|by rewrite forget_transactions_chain; simpl; rewrite length_app; simpl; lia].
  split; [|split].
  - rewrite forget_transactions_chain. simpl. by destruct (chain bc).
  - rewrite forget_transactions_chain. simpl. intros i b Hb.
    apply lookup_app_Some in Hb as [Hb|[Hge Hb]]; [by apply Hidx|].
    apply list_lookup_singleton_Some in Hb as [Hi <-]. simpl. lia.
  - eapply Forall_forall. intros x Hx.
    apply forget_transactions_pending in Hx. simpl in Hx.
    destruct Hinv2 as (_ & _ & Hp2). by eapply Forall_forall in Hp2.
Qed.

Lemma append_blocks_ok rounds bc :
  ledger_inv bc →
  ∃ bc', Sample.append_blocks sha256 rounds bc
         = (replicate (length rounds) (Ok true), bc')
         ∧ ledger_inv bc'
         ∧ length (chain bc') = (length rounds + length (chain bc))%nat.
Proof.
  revert bc. induction rounds as [|round rounds IH]; intros bc Hinv.
  - by exists bc.
  - destruct (append_block_ok round bc Hinv) as (bc1 & Hr & Hinv1 & Hlen1).
    destruct (IH bc1 Hinv1) as (bc2 & Hrs & Hinv2 & Hlen2).
    exists bc2. simpl. rewrite Hr, Hrs. split; [done|]. split; [done|]. lia.
Qed.

Lemma verify_integrity_long_chain bc :
  ledger_inv bc → (2 ≤ length (chain bc))%nat →
  verify_integrity sha256 bc = Ok false.
Proof.
  intros (Hne & Hidx & _) Hlen.
  destruct (lookup_lt_is_Some_2 (chain bc) 1) as [b Hb]; [lia|].
  destruct (last (chain bc)) as [head|] eqn:Hlast; [|by apply last_None in Hlast].
  apply (verify_from_rejects bc 0 (chain bc) b Hne).
  - by eapply list_elem_of_lookup_2.
  - unfold validate_block. rewrite (Hidx _ _ Hb), Hlast.
    rewrite last_lookup in Hlast. rewrite (Hidx _ _ Hlast).
    destruct (Z.eqb_spec (Z.of_nat 1) 0); [lia|].
    destruct (Z.eqb_spec (Z.of_nat 1)
                (Z.of_nat (Nat.pred (length (chain bc))) + 1)); [lia|done].
Qed.

(** C1 (what the code does). After the genesis block, five rounds of
    [create_transaction], [create_block] and [add_block] are all accepted
    and leave a chain of six blocks, and [verify_integrity] then answers
    false: it validates every stored block against the head of the chain,
    so that the block at position 1 is refused for not having the index
    that follows the head's. *)
Theorem verify_integrity_rejects_appended_chain
    (instance : string) (url : option string) (validator : string) (now : Z)
    (r1 r2 r3 r4 r5 : string * list (string * pyval) * Z * Z) :
  let built :=
    Sample.append_blocks sha256 [r1; r2; r3; r4; r5]
      (new_Blockchain sha256 instance url validator now) in
  built.1 = [Ok true; Ok true; Ok true; Ok true; Ok true]
  ∧ length (chain built.2) = 6%nat
  ∧ verify_integrity sha256 built.2 = Ok false.
Proof.
  destruct (append_blocks_ok [r1; r2; r3; r4; r5]
              (new_Blockchain sha256 instance url validator now)
              (new_Blockchain_inv instance url validator now))
    as (bc' & Hrun & Hinv & Hlen).
  cbv zeta. rewrite Hrun. cbn [fst snd]. split; [reflexivity|].
  split; [exact Hlen|].
  apply verify_integrity_long_chain; [done|]. rewrite Hlen. simpl. lia.
Qed.

(** What holds of C2: a candidate block whose index is not 0 and whose
    previous hash differs from the block hash of the head of the chain is
    refused by [add_block]: the call returns false without raising, and
    the chain, the pending list and the pool index are what they were. *)
Theorem add_block_rejects_wrong_previous_hash
    (block : Block) (bc : Blockchain) (head : Block) :
  last (chain bc) = Some head →
  index block ≠ 0 →
  previous_hash block ≠ block_hash head →
  add_block sha256 block bc = (Ok false, bc).
Proof.
  intros Hlast Hidx Hprev. unfold add_block, validate_block.
  destruct (Z.eqb_spec (index block) 0); [done|]. rewrite Hlast.
  destruct (Z.eqb (index block) (index head + 1)); [|done]. simpl.
  destruct (String.eqb_spec (previous_hash block) (block_hash head)); done.
Qed.

End LedgerProperties.

(** The run of the repository's integrity test, with the sample digest. *)
Example verify_integrity_test_run :
  Core.verify_integrity Sample.digest
    (Sample.append_blocks Sample.digest Sample.test_rounds Sample.ledger).2
  = Ok false.
Proof. vm_compute. reflexivity. Qed.

(** A block that claims index 0 is taken for a genesis block and appended
    whatever its previous hash is. *)
Definition stray_genesis : Core.Block :=
  Core.new_Block Sample.digest 0 2000 "no such block" "Melchior-001" [].

(** The previous hash of [stray_genesis] is not the block hash of the
    head, and [add_block] returns true and appends it. *)
Lemma add_block_accepts_index_zero :
  (∃ head, last (Core.chain Sample.ledger) = Some head
           ∧ Core.previous_hash stray_genesis ≠ Core.block_hash head)
  ∧ (Core.add_block Sample.digest stray_genesis Sample.ledger).1 = Ok true
  ∧ Core.chain (Core.add_block Sample.digest stray_genesis Sample.ledger).2
    = (Core.chain Sample.ledger ++ [stray_genesis])%list.
Proof.
  split; [|split; reflexivity].
  eexists. split; [reflexivity|]. vm_compute. discriminate.
Qed.

Lemma add_block_rejects_wrong_previous_hash_sample :
  Core.add_block Sample.digest
    (Core.new_Block Sample.digest 1 2000 "no such block" "Melchior-001" [])
    Sample.ledger
  = (Ok false, Sample.ledger).
Proof.
  eapply (add_block_rejects_wrong_previous_hash Sample.digest).
  - reflexivity.
  - discriminate.
  - vm_compute. discriminate.
Defined.

(** ** A second block of index 0 *)

Section StrayGenesis.
Import Core.

Variable sha256 : string → string.

(** The link test of [verify_integrity] fails at the last block of the
    chain when that block does not name the hash of the one before it. *)
Lemma verify_from_broken_link bc blocks i block prev :
  chain bc ≠ [] →
  chain bc !! (i + length blocks)%nat = Some prev →
  previous_hash block ≠ block_hash prev →
  verify_from sha256 bc (S i) (blocks ++ [block]) = Ok false.
Proof.
  intros Hne. revert i. induction blocks as [|b blocks IH]; intros i Hprev Hlink.
  - cbn [app verify_from length] in *. rewrite Nat.add_0_r in Hprev.
    rewrite Hprev. by destruct (String.eqb_spec (previous_hash block) (block_hash prev)).
  - cbn [app verify_from].
    match goal with |- (if ?c then _ else _) = _ => destruct c end; [done|].
    destruct (validate_block_no_raise sha256 bc b Hne) as [[] Hv]; rewrite Hv; [|done].
    apply IH; [|done]. cbn [length] in Hprev.
    by rewrite Nat.add_succ_comm.
Qed.

(** C2. The claim fails on a block that claims index 0: on a ledger that
    has a head, [add_block] returns true for it whatever its previous
    hash is and appends it, and the chain it leaves no longer passes
    [verify_integrity], whose link test finds the last block not naming
    the hash of the block before it. *)
Theorem add_block_appends_second_genesis
    (bc : Blockchain) (block head : Block) :
  last (chain bc) = Some head →
  index block = 0 →
  previous_hash block ≠ block_hash head →
  ∃ bc' stored,
    add_block sha256 block bc = (Ok true, bc')
    ∧ chain bc' = (chain bc ++ [stored])%list
    ∧ index stored = 0
    ∧ previous_hash stored = previous_hash block
    ∧ block_hash stored = block_hash block
    ∧ verify_integrity sha256 bc' = Ok false.
Proof.
  intros Hhead Hidx Hlink. unfold add_block, validate_block. rewrite Hidx.
  cbn [Z.eqb]. eexists _, block. split; [done|].
  rewrite forget_transactions_chain. cbn [chain set_chain].
  split; [done|]. split; [done|]. split; [done|]. split; [done|].
  unfold verify_integrity. rewrite forget_transactions_chain. cbn [chain set_chain].
  destruct (chain bc) as [|genesis blocks] eqn:Hchain; [done|].
  cbn [app verify_from].
  set (bc' := foldl forget_transaction _ _).
  assert (Hchain' : chain bc' = (genesis :: blocks ++ [block])%list).
  { unfold bc'. by rewrite forget_transactions_chain. }
  assert (Hne : chain bc' ≠ []) by by rewrite Hchain'.
  destruct (validate_block_no_raise sha256 bc' genesis Hne) as [[] Hv];
    rewrite Hv; [|done].
  apply (verify_from_broken_link bc' blocks 0 block head); [done| |done].
  rewrite Hchain'. cbn [Nat.add].
  rewrite app_comm_cons, lookup_app_l by (cbn [length]; lia).
  rewrite <- Hhead, last_lookup. by cbn [length Nat.pred].
Qed.

End StrayGenesis.

Lemma add_block_appends_second_genesis_sample :
  Core.verify_integrity Sample.digest Sample.ledger = Ok true
  ∧ (Core.add_block Sample.digest stray_genesis Sample.ledger).1 = Ok true
  ∧ map Core.index
      (Core.chain (Core.add_block Sample.digest stray_genesis Sample.ledger).2)
    = [0; 0]
  ∧ Core.verify_integrity Sample.digest
      (Core.add_block Sample.digest stray_genesis Sample.ledger).2
    = Ok false.
Proof.
  destruct (add_block_appends_second_genesis Sample.digest Sample.ledger
              stray_genesis
              (default stray_genesis (last (Core.chain Sample.ledger))))
    as (bc' & stored & Hadd & Hchain & Hidx & _ & _ & Hverify).
  - reflexivity.
  - reflexivity.
  - vm_compute. discriminate.
  - rewrite Hadd. cbn [fst snd]. split; [reflexivity|]. split; [reflexivity|].
    split; [|exact Hverify]. rewrite Hchain, map_app. cbn [map].
    rewrite Hidx. reflexivity.
Defined.

(** ** Proof of Authority: rotation and block creation *)

Section ConsensusProperties.
Import Core Consensus.

Variable sha256 : string → string.

Definition registry_wf (vs : list (string * Validator)) : Prop :=
  NoDup vs.*1 ∧ Forall (λ kv, instance_id kv.2 = kv.1) vs.


Lemma dict_get_cons {A} k k' (v' : A) kvs :
  dict_get k ((k', v') :: kvs)
  = if String.eqb k' k then Some v' else dict_get k kvs.
Proof. unfold dict_get. simpl. by destruct (String.eqb k' k). Qed.

Lemma dict_alter_keys {A} (f : A → A) k kvs : (dict_alter f k kvs).*1 = kvs.*1.
Proof.
  induction kvs as [|[k' v'] kvs IH]; [done|]. simpl dict_alter.
  destruct (String.eqb k' k); rewrite !fmap_cons; simpl; by rewrite ?IH.
Qed.

Lemma dict_get_alter {A} (f : A → A) k kvs :
  dict_get k (dict_alter f k kvs) = f <$> dict_get k kvs.
Proof.
  induction kvs as [|[k' v'] kvs IH]; simpl; [done|].
  destruct (String.eqb k' k) eqn:Hk; simpl; rewrite !dict_get_cons, Hk; [done|].
  apply IH.
Qed.

Lemma dict_get_alter_ne {A} (f : A → A) k k' kvs :
  k ≠ k' → dict_get k' (dict_alter f k kvs) = dict_get k' kvs.
Proof.
  intros Hne. induction kvs as [|[k0 v0] kvs IH]; simpl; [done|].
  destruct (String.eqb_spec k0 k) as [->|Hk]; simpl; rewrite !dict_get_cons.
  - by destruct (String.eqb_spec k k').
  - by rewrite IH.
Qed.

Lemma dict_alter_alter {A} (f g : A → A) k kvs :
  dict_alter g k (dict_alter f k kvs) = dict_alter (g ∘ f) k kvs.
Proof.
  induction kvs as [|[k' v'] kvs IH]; simpl; [done|].
  destruct (String.eqb k' k) eqn:Hk; simpl; rewrite Hk; [done|]. by rewrite IH.
Qed.

Lemma dict_alter_id {A} (f : A → A) k kvs v :
  dict_get k kvs = Some v → f v = v → dict_alter f k kvs = kvs.
Proof.
  induction kvs as [|[k' v'] kvs IH]; simpl; [done|]. rewrite dict_get_cons.
  destruct (String.eqb k' k); [intros [= ->] ->; done|].
  intros ??. by rewrite IH.
Qed.

Definition other_than (id : string) (v : Validator) : bool :=
  negb (String.eqb (instance_id v) id).

Lemma filter_other_than_absent id vs :
  Forall (λ kv, instance_id kv.2 = kv.1) vs → id ∉ vs.*1 →
  List.filter (other_than id) (List.filter is_active (map snd vs))
  = List.filter is_active (map snd vs).
Proof.
  induction 1 as [|[k v] vs Hk _ IH]; simpl; [done|].
  intros Hnotin. apply not_elem_of_cons in Hnotin as [Hne Hnotin].
  simpl in Hk. destruct (is_active v); simpl; [|by apply IH].
  unfold other_than at 1. rewrite Hk.
  destruct (String.eqb_spec k id) as [->|_]; [done|]. simpl. f_equal. by apply IH.
Qed.

Lemma active_after_deactivation id vs v :
  registry_wf vs → dict_get id vs = Some v →
  List.filter is_active (map snd (dict_alter (set_is_active false) id vs))
  = List.filter (other_than id) (List.filter is_active (map snd vs)).
Proof.
  intros [Hnd Hkeys]. revert Hnd.
  induction Hkeys as [|[k w] vs Hk Hkeys IH]; [done|].
  rewrite fmap_cons, NoDup_cons. intros [Hnotin Hnd]. rewrite dict_get_cons.
  simpl in *. destruct (String.eqb_spec k id) as [->|Hne].
  - intros _. simpl. rewrite <- (filter_other_than_absent id vs) at 1 by done.
    destruct (is_active w); simpl; [|done].
    unfold other_than at 2. by rewrite Hk, String.eqb_refl.
  - intros Hget. simpl. destruct (is_active w); simpl; [|by apply IH].
    unfold other_than at 1. rewrite Hk.
    destruct (String.eqb_spec k id); [done|]. simpl. f_equal. by apply IH.
Qed.

Lemma active_validators_NoDup poa :
  registry_wf (validators poa) → NoDup (active_validators poa).
Proof.
  intros [Hnd Hkeys]. unfold active_validators.
  apply NoDup_ListNoDup, List.NoDup_filter, NoDup_ListNoDup.
  apply (NoDup_fmap_1 instance_id). rewrite <- list_fmap_compose.
  erewrite list_fmap_ext; [exact Hnd|].
  intros i [k v] Hi. simpl. eapply Forall_lookup_1 in Hkeys; [|done]. done.
Qed.

Lemma get_current_validator_iter k poa :
  active_validators poa ≠ [] →
  get_current_validator (Nat.iter k advance poa)
  = active_validators poa
      !! Z.to_nat ((current_validator_index poa + Z.of_nat k)
                   `mod` Z.of_nat (length (active_validators poa))).
Proof.
  intros Hne.
  assert (Hiter : ∀ k, active_validators (Nat.iter k advance poa) = active_validators poa
                       ∧ current_validator_index (Nat.iter k advance poa)
                         = current_validator_index poa + Z.of_nat k).
  { clear. intros k. induction k as [|k [IH1 IH2]]; simpl; [split; [done|lia]|].
    split; [exact IH1|]. rewrite IH2. lia. }
  destruct (Hiter k) as [Ha Hi]. unfold get_current_validator.
  rewrite Ha, Hi. by destruct (active_validators poa).
Qed.

Lemma set_is_active_restore v :
  is_active v = true → (set_is_active true ∘ set_is_active false) v = v.
Proof. destruct v; simpl; by intros ->. Qed.

(** C6. With exactly four active validators, four advances of the pointer
    bring the turn back to the validator that held it, and no smaller
    positive number of advances does; deactivating a registered, active
    validator keeps its entry and its position in the registry and takes
    it, and only it, out of the active rotation; setting it active again
    restores the registry, hence the rotation, as it was. *)
Theorem round_robin_period_and_reactivation (poa : ProofOfAuthority) :
  (length (active_validators poa) = 4%nat →
   get_current_validator (advance (advance (advance (advance poa))))
   = get_current_validator poa
   ∧ is_Some (get_current_validator poa)
   ∧ (registry_wf (validators poa) →
      ∀ k, (0 < k < 4)%nat →
           get_current_validator (Nat.iter k advance poa)
           ≠ get_current_validator poa))
  ∧ (∀ id v,
       registry_wf (validators poa) →
       dict_get id (validators poa) = Some v → is_active v = true →
       let poa' := (remove_validator id poa).2 in
       (remove_validator id poa).1 = true
       ∧ dict_get id (validators poa') = Some (set_is_active false v)
       ∧ (validators poa').*1 = (validators poa).*1
       ∧ active_validators poa'
         = List.filter (other_than id) (active_validators poa)
       ∧ Forall (λ w, instance_id w ≠ id) (active_validators poa')
       ∧ reactivate_validator id poa' = poa).
Proof.
  split.
  - intros Hlen.
    assert (Hne : active_validators poa ≠ []).
    { intros H0. by rewrite H0 in Hlen. }
    pose proof (get_current_validator_iter 0 poa Hne) as H0. simpl in H0.
    rewrite Z.add_0_r, Hlen in H0.
    split; [|split].
    + rewrite H0. change (advance (advance (advance (advance poa))))
        with (Nat.iter 4 advance poa).
      rewrite get_current_validator_iter, Hlen by done. do 2 f_equal.
      Z.to_euclidean_division_equations. lia.
    + rewrite H0. apply lookup_lt_is_Some_2. rewrite Hlen.
      Z.to_euclidean_division_equations. lia.
    + intros Hwf k Hk. rewrite H0, get_current_validator_iter, Hlen by done.
      destruct (active_validators poa
                  !! Z.to_nat (current_validator_index poa `mod` Z.of_nat 4))
        as [w|] eqn:Hw.
      * intros Hw'. pose proof (NoDup_lookup _ _ _ _ (active_validators_NoDup _ Hwf) Hw' Hw).
        Z.to_euclidean_division_equations. lia.
      * apply lookup_ge_None in Hw. rewrite Hlen in Hw.
        Z.to_euclidean_division_equations. lia.
  - intros id v Hwf Hget Hactive. unfold remove_validator. rewrite Hget.
    cbn [fst snd]. unfold set_validators at 1 2 3; cbn [validators].
    split; [done|]. split; [by rewrite dict_get_alter, Hget|].
    split; [apply dict_alter_keys|].
    assert (Hact : active_validators
                     (set_validators (dict_alter (set_is_active false) id (validators poa)) poa)
                   = List.filter (other_than id) (active_validators poa)).
    { unfold active_validators. cbn [validators set_validators].
      by eapply active_after_deactivation. }
    split; [exact Hact|]. split.
    + rewrite Hact. apply Forall_forall. intros w Hw.
      apply list_elem_of_In, List.filter_In in Hw as [_ Hw].
      unfold other_than in Hw. by destruct (String.eqb_spec (instance_id w) id).
    + unfold reactivate_validator, set_validators. cbn [validators blockchain block_time current_validator_index].
      rewrite dict_alter_alter.
      rewrite (dict_alter_id _ _ _ v Hget (set_is_active_restore v Hactive)).
      by destruct poa.
Qed.

(** C10. When [create_block] of the scheduler returns a block, the block
    is not appended (the chain is unchanged); its transactions are the
    first ten pending ones, or all of them when there are fewer, and they
    leave the pending list while the pool index is untouched; the entry of
    the creating validator gets the block's timestamp as last block time
    and no other entry changes; the pointer grows by one; the block time
    and the ledger's other fields are unchanged. *)
Theorem create_block_frame
    (id : string) (now_ms : Q) (now : Z) (poa poa' : ProofOfAuthority)
    (block : Block) :
  Consensus.create_block sha256 id now_ms now poa = (Ok (Some block), poa') →
  let bc := blockchain poa in
  let bc' := blockchain poa' in
  chain bc' = chain bc
  ∧ length (chain bc') = length (chain bc)
  ∧ transactions block = take 10 (pending_transactions bc)
  ∧ (1 ≤ length (transactions block) ≤ 10)%nat
  ∧ pending_transactions bc' = drop 10 (pending_transactions bc)
  ∧ transaction_pool bc' = transaction_pool bc
  ∧ (∀ tx, tx ∈ transactions block →
           transaction_pool bc' !! tx_id tx = transaction_pool bc !! tx_id tx)
  ∧ bc_instance_id bc' = bc_instance_id bc
  ∧ time_precision_url bc' = time_precision_url bc
  ∧ timestamp_micros block = now
  ∧ validators poa'
    = dict_alter (set_last_block_time (timestamp_micros block)) id (validators poa)
  ∧ last_block_time <$> dict_get id (validators poa')
    = Some (Some (timestamp_micros block))
  ∧ (∀ id', id' ≠ id →
            dict_get id' (validators poa') = dict_get id' (validators poa))
  ∧ current_validator_index poa' = current_validator_index poa + 1
  ∧ block_time poa' = block_time poa.
Proof.
  unfold Consensus.create_block.
  destruct (can_create_block id now_ms poa); simpl; [|done].
  destruct (dict_get id (validators poa)) as [v|] eqn:Hget; [|done].
  destruct (is_active v); simpl; [|done].
  unfold Core.create_block.
  destruct (take 10 (pending_transactions (blockchain poa))) as [|tx txs] eqn:Htake;
    [done|].
  cbn [chain set_pending].
  destruct (last (chain (blockchain poa))) as [head|]; [|done].
  intros [= <- <-].
  cbn [blockchain validators current_validator_index block_time advance
       set_current_validator_index set_validators set_blockchain
       chain pending_transactions transaction_pool bc_instance_id
       time_precision_url set_pending transactions timestamp_micros new_Block].
  rewrite dict_get_alter, Hget.
  repeat split; try done.
  - simpl. lia.
  - rewrite <- Htake, length_take. lia.
  - intros id' Hne. by apply dict_get_alter_ne.
Qed.

End ConsensusProperties.
Lemma round_robin_sample :
  Consensus.get_current_validator
    (Consensus.advance (Consensus.advance (Consensus.advance
       (Consensus.advance Sample.scheduler))))
  = Consensus.get_current_validator Sample.scheduler
  ∧ Consensus.reactivate_validator "Caspar-001"
      (Consensus.remove_validator "Caspar-001" Sample.scheduler).2
    = Sample.scheduler.
Proof.
  destruct (round_robin_period_and_reactivation Sample.scheduler) as [Hturn Hback].
  split.
  - apply Hturn. reflexivity.
  - eapply Hback.
    + split.
      * apply (bool_decide_unpack _). vm_compute. exact I.
      * repeat constructor.
    + reflexivity.
    + reflexivity.
Defined.

Lemma create_block_frame_sample :
  ∃ block poa',
    Consensus.create_block Sample.digest "Melchior-001" 5000 5000000
      Sample.busy_scheduler = (Ok (Some block), poa')
    ∧ Core.chain (Consensus.blockchain poa')
      = Core.chain (Consensus.blockchain Sample.busy_scheduler)
    ∧ Consensus.current_validator_index poa' = 1.
Proof.
  eexists _, _. split; [vm_compute; reflexivity|].
  edestruct (create_block_frame Sample.digest "Melchior-001" 5000 5000000
               Sample.busy_scheduler) as (Hchain & _ & _ & _ & _ & _ & _ & _ & _ & _ & _ & _ & _ & Hidx & _).
  { vm_compute. reflexivity. }
  split; [exact Hchain | exact Hidx].
Defined.

(** ** Contracts *)

Section ContractProperties.

Lemma not_in_functions (function : string) (known : list string) :
  function ∉ known → Forall (λ f, String.eqb function f = false) known.
Proof.
  intros Hnotin. apply Forall_forall. intros f Hf.
  destruct (String.eqb_spec function f) as [->|]; done.
Qed.

(** C7. For each of the three contracts, a call of [execute] with a
    function name that is not one of the names the contract dispatches on
    raises the exception [ValueError("Unknown function: <name>")],
    whatever the parameters, the caller, the clock and the state, which is
    left as it was; it does not return a result map. *)
Theorem unknown_function_raises
    (function : string) (params : gmap string pyval) (caller : string)
    (now now' : Z) :
  (function ∉ MemoryLock.functions →
   ∀ c, MemoryLock.execute function params caller now c
        = (Raise (ValueError ("Unknown function: " +:+ function)), c))
  ∧ (function ∉ ResourceAllocation.functions →
     ∀ c, ResourceAllocation.execute function params caller now c
          = (Raise (ValueError ("Unknown function: " +:+ function)), c))
  ∧ (function ∉ WorkflowAutomation.functions →
     ∀ c, WorkflowAutomation.execute function params caller now now' c
          = (Raise (ValueError ("Unknown function: " +:+ function)), c)).
Proof.
  split; [|split]; intros Hf%not_in_functions c.
  - unfold MemoryLock.execute.
    repeat (apply Forall_cons in Hf as [-> Hf]). reflexivity.
  - unfold ResourceAllocation.execute.
    repeat (apply Forall_cons in Hf as [-> Hf]). reflexivity.
  - unfold WorkflowAutomation.execute.
    repeat (apply Forall_cons in Hf as [-> Hf]). reflexivity.
Qed.

End ContractProperties.

Lemma unknown_function_raises_sample :
  (MemoryLock.execute "steal_lock" ∅ "Instance-001" 10
     (MemoryLock.new "lock-contract-1" "TEST-001" 1)).1
  = Raise (ValueError "Unknown function: steal_lock")
  ∧ (ResourceAllocation.execute "steal_lock" ∅ "Instance-001" 10
       (ResourceAllocation.new "resource-contract-1" "TEST-001" 1)).1
    = Raise (ValueError "Unknown function: steal_lock")
  ∧ (WorkflowAutomation.execute "steal_lock" ∅ "Instance-001" 10 11
       (WorkflowAutomation.new "workflow-contract-1" "TEST-001" 1)).1
    = Raise (ValueError "Unknown function: steal_lock").
Proof.
  destruct (unknown_function_raises "steal_lock" ∅ "Instance-001" 10 11)
    as (Hlock & Hres & Hwf).
  assert (Hnotin : ∀ known : list string,
            bool_decide ("steal_lock" ∉ known) = true → "steal_lock" ∉ known).
  { intros known. apply bool_decide_eq_true_1. }
  split; [|split].
  - rewrite Hlock; [reflexivity|]. by apply Hnotin.
  - rewrite Hres; [reflexivity|]. by apply Hnotin.
  - rewrite Hwf; [reflexivity|]. by apply Hnotin.
Defined.
Section LockProperties.
Import MemoryLock.

Lemma params_get_str params k s :
  params !! k = Some (VStr s) → s ≠ "" →
  params_get params k = VStr s ∧ truthy (params_get params k) = true.
Proof.
  intros Hk Hs. unfold params_get. rewrite Hk. split; [done|]. simpl.
  by destruct (String.eqb_spec s "").
Qed.

(** C8 (amended). For a non-empty entity name and a numeric duration:
    [acquire_lock] fails, reporting the holder and the expiry of the
    entry, when the table holds an entry for the entity that expires
    strictly after [now], and otherwise installs the entry
    (caller, now, now + duration_ms * 1000) and succeeds;
    [release_lock] deletes the entry when the caller is its holder, and
    fails without changing the table when the caller is not, or when
    there is no entry. *)
Theorem lock_acquire_and_release
    (c : MemoryLockContract) (params : gmap string pyval)
    (entity caller : string) (now duration_ms : Z) :
  entity ≠ "" →
  params !! "entity_name" = Some (VStr entity) →
  py_num (params_get_default params "duration_ms" (VInt (lock_duration_ms c)))
  = Ok duration_ms →
  let key := KStr entity in
  let held := ∃ lock, locks c !! key = Some lock ∧ now < expires lock in
  (∀ lock, locks c !! key = Some lock → now < expires lock →
     acquire_lock params caller now c
     = (Ok [("success", VBool false);
            ("error", VStr "Entity already locked");
            ("holder", VStr (holder lock));
            ("expires", VInt (expires lock))], c))
  ∧ (¬ held →
     acquire_lock params caller now c
     = (Ok [("success", VBool true);
            ("entity_name", VStr entity);
            ("holder", VStr caller);
            ("expires", VInt (now + duration_ms * 1000))],
        set_locks
          (<[key := mkLock caller now (now + duration_ms * 1000)]> (locks c)) c))
  ∧ (∀ lock, locks c !! key = Some lock → holder lock = caller →
     release_lock params caller c
     = (Ok [("success", VBool true); ("entity_name", VStr entity)],
        set_locks (delete key (locks c)) c))
  ∧ (∀ lock, locks c !! key = Some lock → holder lock ≠ caller →
     release_lock params caller c
     = (Ok [("success", VBool false);
            ("error", VStr "Only lock holder can release")], c))
  ∧ (locks c !! key = None →
     release_lock params caller c
     = (Ok [("success", VBool false); ("error", VStr "No lock found")], c)).
Proof.
  intros Hne Hparam Hdur key held.
  destruct (params_get_str _ _ _ Hparam Hne) as [Hget Htruthy].
  unfold acquire_lock, release_lock. rewrite Htruthy, Hget, Hdur.
  cbn [negb py_hash]. fold key.
  split; [|split; [|split; [|split]]].
  - intros lock Hlock Hlt. rewrite Hlock.
    by destruct (Z.ltb_spec now (expires lock)); [|lia].
  - intros Hfree. destruct (locks c !! key) as [lock|] eqn:Hlock; [|done].
    destruct (Z.ltb_spec now (expires lock)); [|done].
    destruct Hfree. by exists lock.
  - intros lock Hlock <-. by rewrite Hlock, String.eqb_refl.
  - intros lock Hlock Hother. rewrite Hlock.
    by destruct (String.eqb_spec (holder lock) caller).
  - by intros ->.
Qed.

End LockProperties.

(** C8 (as stated) fails: an empty entity name is refused although the
    lock table holds no entry at all. *)
Lemma acquire_lock_refuses_empty_name :
  MemoryLock.locks (MemoryLock.new "lock-contract-1" "TEST-001" 1) = ∅
  ∧ MemoryLock.acquire_lock {["entity_name" := VStr ""]} "Instance-001" 10
      (MemoryLock.new "lock-contract-1" "TEST-001" 1)
    = (Ok [("success", VBool false); ("error", VStr "entity_name required")],
       MemoryLock.new "lock-contract-1" "TEST-001" 1).
Proof. split; reflexivity. Qed.

Lemma lock_acquire_and_release_sample :
  MemoryLock.acquire_lock
    {["entity_name" := VStr "TestEntity"; "duration_ms" := VInt 5000]}
    "Instance-001" 10 (MemoryLock.new "lock-contract-1" "TEST-001" 1)
  = (Ok [("success", VBool true);
         ("entity_name", VStr "TestEntity");
         ("holder", VStr "Instance-001");
         ("expires", VInt 5000010)],
     MemoryLock.set_locks
       {[KStr "TestEntity" := MemoryLock.mkLock "Instance-001" 10 5000010]}
       (MemoryLock.new "lock-contract-1" "TEST-001" 1)).
Proof.
  edestruct (lock_acquire_and_release
               (MemoryLock.new "lock-contract-1" "TEST-001" 1)
               {["entity_name" := VStr "TestEntity"; "duration_ms" := VInt 5000]}
               "TestEntity" "Instance-001" 10 5000)
    as (_ & Hfree & _).
  - discriminate.
  - reflexivity.
  - reflexivity.
  - rewrite Hfree; [reflexivity|]. intros (lock & Hlock & _). discriminate.
Defined.
Section ResourceProperties.
Import ResourceAllocation.

(** What a call of [request_resources] with numeric quantities does. *)
Lemma request_resources_outcome
    (c : ResourceAllocationContract) (params : gmap string pyval)
    (caller : string) (now n m s : Z) :
  py_num (params_get_default params "cpu" (VInt 0)) = Ok n →
  py_num (params_get_default params "memory" (VInt 0)) = Ok m →
  py_num (params_get_default params "storage" (VInt 0)) = Ok s →
  request_resources params caller now c
  = if bool_decide ((used_cpu (used c) + n ≤ total_cpu (limits c))%Z
                    ∧ (used_memory (used c) + m ≤ total_memory (limits c))%Z
                    ∧ (used_storage (used c) + s ≤ total_storage (limits c))%Z)
    then
      let old := default (mkAllocation 0 0 0 0) (allocations c !! caller) in
      (Ok [("success", VBool true);
           ("allocation", allocation_dict (mkAllocation n m s now))],
       set_state (<[caller := mkAllocation n m s now]> (allocations c))
         (mkUsage (used_cpu (used c) - cpu old + n)
            (used_memory (used c) - memory old + m)
            (used_storage (used c) - storage old + s)) c)
    else
      (Ok [("success", VBool false);
           ("error", VStr "Insufficient resources");
           ("available", available c)], c).
Proof.
  intros Hn Hm Hs. unfold request_resources, exceeds. rewrite Hn, Hm, Hs.
  cbn [mbind result_bind].
  destruct (Z.ltb_spec (total_cpu (limits c)) (used_cpu (used c) + n));
    [by rewrite bool_decide_eq_false_2 by lia|].
  destruct (Z.ltb_spec (total_memory (limits c)) (used_memory (used c) + m));
    [by rewrite bool_decide_eq_false_2 by lia|].
  destruct (Z.ltb_spec (total_storage (limits c)) (used_storage (used c) + s));
    [by rewrite bool_decide_eq_false_2 by lia|].
  rewrite bool_decide_eq_true_2 by lia.
  destruct (allocations c !! caller) as [old|]; cbn [default]; [done|].
  cbn [cpu memory storage]. by rewrite !Z.sub_0_r.
Qed.

(** The sum of one dimension over the allocations map. *)
Definition total (f : Allocation → Z) (m : gmap string Allocation) : Z :=
  map_fold (λ _ a acc, f a + acc) 0 m.

Definition accounted (c : ResourceAllocationContract) : Prop :=
  used_cpu (used c) = total cpu (allocations c)
  ∧ used_memory (used c) = total memory (allocations c)
  ∧ used_storage (used c) = total storage (allocations c).

Definition within_limits (c : ResourceAllocationContract) : Prop :=
  (0 ≤ used_cpu (used c) ≤ total_cpu (limits c))%Z
  ∧ (0 ≤ used_memory (used c) ≤ total_memory (limits c))%Z
  ∧ (0 ≤ used_storage (used c) ≤ total_storage (limits c))%Z.

Definition nonneg_allocation (a : Allocation) : Prop :=
  (0 ≤ cpu a)%Z ∧ (0 ≤ memory a)%Z ∧ (0 ≤ storage a)%Z.

(** One call of [execute]. *)
Record call : Type := mkCall {
  call_function : string;
  call_params : gmap string pyval;
  call_caller : string;
  call_now : Z
}.

Definition step (c : ResourceAllocationContract) (k : call)
  : ResourceAllocationContract :=
  (execute (call_function k) (call_params k) (call_caller k) (call_now k) c).2.

Definition run (calls : list call) (c : ResourceAllocationContract)
  : ResourceAllocationContract :=
  foldl step c calls.

(** Every [request_resources] call of the sequence passes quantities the
    contract's own [validate] accepts: numbers that are not negative. *)
Definition nonnegative_requests (calls : list call) : Prop :=
  Forall (λ k, call_function k = "request_resources" →
               validate (call_params k) = Ok true) calls.

Lemma total_empty f : total f ∅ = 0.
Proof. apply map_fold_empty. Qed.

Lemma total_delete f m k a :
  m !! k = Some a → total f m = f a + total f (delete k m).
Proof.
  intros Hk. unfold total.
  apply (map_fold_delete_L (λ _ a acc, f a + acc) 0 k a m); [intros; lia|done].
Qed.

Lemma total_insert_fresh f m k a :
  m !! k = None → total f (<[k:=a]> m) = f a + total f m.
Proof.
  intros Hk. unfold total.
  apply (map_fold_insert_L (λ _ a acc, f a + acc) 0 k a m); [intros; lia|done].
Qed.

Lemma total_insert f m k a :
  total f (<[k:=a]> m)
  = total f m - default 0 (f <$> m !! k) + f a.
Proof.
  destruct (m !! k) as [old|] eqn:Hk; simpl.
  - rewrite <- insert_delete_eq, total_insert_fresh by apply lookup_delete_eq.
    rewrite (total_delete f m k old Hk). lia.
  - rewrite total_insert_fresh by done. lia.
Qed.

Lemma total_nonneg f m :
  map_Forall (λ _ a, (0 ≤ f a)%Z) m → (0 ≤ total f m)%Z.
Proof.
  induction m as [|k a m Hk _ IH] using map_first_key_ind.
  - by rewrite total_empty.
  - intros Hall. rewrite total_insert_fresh by done.
    apply map_Forall_insert in Hall as [Ha Hall]; [|done].
    specialize (IH Hall). lia.
Qed.

Lemma request_resources_cases params caller now c :
  (request_resources params caller now c).2 = c
  ∨ ∃ n m s,
      py_num (params_get_default params "cpu" (VInt 0)) = Ok n
      ∧ py_num (params_get_default params "memory" (VInt 0)) = Ok m
      ∧ py_num (params_get_default params "storage" (VInt 0)) = Ok s.
Proof.
  unfold request_resources.
  destruct (exceeds c _ _ _) as [[]|]; [by left| |by left].
  destruct (py_num (params_get_default params "cpu" (VInt 0))) as [n|];
    [|by left].
  destruct (py_num (params_get_default params "memory" (VInt 0))) as [m|];
    [|by left].
  destruct (py_num (params_get_default params "storage" (VInt 0))) as [s|];
    [|by left].
  right. by exists n, m, s.
Qed.

Lemma validate_true params :
  validate params = Ok true →
  ∃ n m s,
    py_num (params_get_default params "cpu" (VInt 0)) = Ok n
    ∧ py_num (params_get_default params "memory" (VInt 0)) = Ok m
    ∧ py_num (params_get_default params "storage" (VInt 0)) = Ok s
    ∧ (0 ≤ n)%Z ∧ (0 ≤ m)%Z ∧ (0 ≤ s)%Z.
Proof.
  unfold validate.
  destruct (py_num (params_get_default params "cpu" (VInt 0))) as [n|];
    [|done]. cbn [mbind result_bind].
  destruct (Z.leb_spec 0 n); [|done]. cbn [negb].
  destruct (py_num (params_get_default params "memory" (VInt 0))) as [m|];
    [|done]. cbn [mbind result_bind].
  destruct (Z.leb_spec 0 m); [|done]. cbn [negb].
  destruct (py_num (params_get_default params "storage" (VInt 0))) as [s|];
    [|done]. cbn [mbind result_bind].
  destruct (Z.leb_spec 0 s); [|done]. intros _.
  by exists n, m, s.
Qed.

Lemma release_resources_state params caller c :
  (release_resources params caller c).2
  = match allocations c !! caller with
    | None => c
    | Some a =>
        set_state (delete caller (allocations c))
          (mkUsage (used_cpu (used c) - cpu a) (used_memory (used c) - memory a)
             (used_storage (used c) - storage a)) c
    end.
Proof. unfold release_resources. by destruct (allocations c !! caller). Qed.

Lemma get_allocation_state params c : (get_allocation params c).2 = c.
Proof.
  unfold get_allocation.
  destruct (negb _); [done|]. destruct (py_hash _) as [[]|]; try done.
  by destruct (allocations c !! s).
Qed.

(** The state after a call, by the function called. *)
Lemma step_cases c k :
  step c k = c
  ∨ (call_function k = "request_resources"
     ∧ step c k = (request_resources (call_params k) (call_caller k) (call_now k) c).2)
  ∨ (call_function k = "release_resources"
     ∧ step c k = (release_resources (call_params k) (call_caller k) c).2).
Proof.
  unfold step, execute.
  destruct (String.eqb_spec (call_function k) "request_resources"); [by right; left|].
  destruct (String.eqb_spec (call_function k) "release_resources"); [by right; right|].
  left. destruct (String.eqb (call_function k) "get_allocation");
    [apply get_allocation_state|].
  by destruct (String.eqb (call_function k) "get_usage").
Qed.

Lemma step_accounted c k : accounted c → accounted (step c k).
Proof.
  intros (Hc & Hm & Hs).
  destruct (step_cases c k) as [->|[[_ ->]|[_ ->]]]; [done| |].
  - destruct (request_resources_cases (call_params k) (call_caller k)
                (call_now k) c) as [->|(n & m & s & Hn & Hm' & Hs')]; [done|].
    rewrite (request_resources_outcome c _ _ _ n m s Hn Hm' Hs').
    case_bool_decide; [|done]. unfold accounted. cbn.
    rewrite !total_insert, <- Hc, <- Hm, <- Hs.
    by destruct (allocations c !! call_caller k).
  - rewrite release_resources_state.
    destruct (allocations c !! call_caller k) as [a|] eqn:Ha; [|done].
    unfold accounted. cbn.
    rewrite Hc, Hm, Hs, !(total_delete _ _ _ a Ha). lia.
Qed.

Definition sound (c : ResourceAllocationContract) : Prop :=
  accounted c
  ∧ map_Forall (λ _ a, nonneg_allocation a) (allocations c)
  ∧ (used_cpu (used c) ≤ total_cpu (limits c))%Z
  ∧ (used_memory (used c) ≤ total_memory (limits c))%Z
  ∧ (used_storage (used c) ≤ total_storage (limits c))%Z.

Lemma sound_within_limits c : sound c → within_limits c.
Proof.
  intros ((Hc & Hm & Hs) & Hall & ? & ? & ?). unfold within_limits.
  rewrite Hc, Hm, Hs in *.
  repeat split; try done; apply total_nonneg;
    eapply map_Forall_impl; try exact Hall; by intros ?? (? & ? & ?).
Qed.

Lemma step_sound c k :
  sound c →
  (call_function k = "request_resources" → validate (call_params k) = Ok true) →
  sound (step c k).
Proof.
  intros Hsound Hvalid. pose proof Hsound as (Hacc & Hall & Hc & Hm & Hs).
  split; [by apply step_accounted|].
  destruct (step_cases c k) as [->|[[Hf ->]|[_ ->]]]; [done| |].
  - destruct (validate_true _ (Hvalid Hf))
      as (n & m & s & Hn & Hm' & Hs' & ? & ? & ?).
    rewrite (request_resources_outcome c _ _ _ n m s Hn Hm' Hs').
    case_bool_decide as Hfits; [|done]. cbn.
    split; [by apply map_Forall_insert_2|].
    destruct (allocations c !! call_caller k) as [old|] eqn:Hold; cbn.
    + apply Hall in Hold as (? & ? & ?). lia.
    + lia.
  - rewrite release_resources_state.
    destruct (allocations c !! call_caller k) as [a|] eqn:Ha; [|done]. cbn.
    split; [by apply map_Forall_delete|].
    apply Hall in Ha as (? & ? & ?). lia.
Qed.

Lemma new_sound id owner now : sound (new id owner now).
Proof.
  unfold sound, accounted. cbn. rewrite !total_empty.
  repeat split; try done; apply map_Forall_empty.
Qed.

(** C9 (amended). With requests whose quantities are integers: from the
    initial state, after every sequence of calls of [execute] (requests,
    releases, queries, and calls that raise), each used quantity is the
    sum of that dimension over the allocations map; and when every
    [request_resources] call of the sequence passed non-negative
    quantities, each used quantity lies between 0 and its limit. *)
Theorem used_is_sum_of_allocations
    (id owner : string) (now : Z) (calls : list call) :
  let c := run calls (new id owner now) in
  accounted c ∧ (nonnegative_requests calls → within_limits c).
Proof.
  cbv zeta. split.
  - assert (H : ∀ c, accounted c → accounted (run calls c)).
    { induction calls as [|k calls IH]; intros c Hc; [done|].
      apply IH. by apply step_accounted. }
    apply H. apply new_sound.
  - intros Hcalls. apply sound_within_limits.
    assert (H : ∀ c, sound c → sound (run calls c)).
    { induction Hcalls as [|k calls Hk _ IH]; intros c Hc; [done|].
      apply IH. by apply step_sound. }
    apply H, new_sound.
Qed.

End ResourceProperties.

(** The calls of the repository's [test_resource_allocation]. *)
Definition allocation_test_calls : list call :=
  [ mkCall "request_resources"
      {["cpu" := VInt 50; "memory" := VInt 1024; "storage" := VInt 5120]}
      "Instance-001" 10;
    mkCall "get_usage" ∅ "Instance-001" 11;
    mkCall "request_resources"
      {["cpu" := VInt 100; "memory" := VInt 2048; "storage" := VInt 10240]}
      "Instance-002" 12;
    mkCall "request_resources"
      {["cpu" := VInt 300; "memory" := VInt 8192; "storage" := VInt 51200]}
      "Instance-003" 13;
    mkCall "release_resources" ∅ "Instance-001" 14 ].

Lemma used_is_sum_of_allocations_sample :
  within_limits
    (run allocation_test_calls
       (ResourceAllocation.new "resource-contract-1" "TEST-001" 1))
  ∧ ResourceAllocation.used_cpu
      (ResourceAllocation.used
         (run allocation_test_calls
            (ResourceAllocation.new "resource-contract-1" "TEST-001" 1)))
    = 100.
Proof.
  destruct (used_is_sum_of_allocations "resource-contract-1" "TEST-001" 1
              allocation_test_calls) as [_ Hlimits].
  split; [|reflexivity].
  apply Hlimits. repeat constructor; intros _; reflexivity.
Defined.

(** ** [ResourceAllocationContract] on quantities that are floats

    [ResourceAllocation] above takes the quantities of a request for
    integers. The methods accept every Python number: here the two methods
    that change the state are embedded again for quantities that are a
    [bool], an [int] or a [float], with the arithmetic of Python on them.
    On integers the two embeddings agree ([request_resources_on_integers],
    [release_resources_on_integers]). *)

Module ResourceNumbers.
Import PrimFloat FloatOps SpecFloat.

(** A Python number: a [bool], an [int], or a [float], which is a C
    double. *)
Inductive number : Type :=
| NBool (b : bool)
| NInt (z : Z)
| NFloat (f : float).

(** The integer a [bool] or an [int] is in arithmetic. *)
Definition as_int (n : number) : option Z :=
  match n with
  | NBool b => Some (if b then 1 else 0)
  | NInt z => Some z
  | NFloat _ => None
  end.

(** The conversion of an [int] operand to a double: the nearest double,
    ties to even. [None] stands for the [OverflowError] of an [int]
    beyond the range of a double. *)
Definition int_to_float (z : Z) : option float :=
  match binary_normalize prec emax z 0 false with
  | S754_infinity _ => None
  | sf => Some (SF2Prim sf)
  end.

Definition as_float (n : number) : option float :=
  match n with
  | NBool b => int_to_float (if b then 1 else 0)
  | NInt z => int_to_float z
  | NFloat f => Some f
  end.

(** [a + b] and [a - b]: exact on two integers; as soon as one operand
    is a [float] the other is converted and the operation is the one of
    doubles. *)
Definition num_add (a b : number) : option number :=
  match as_int a, as_int b with
  | Some x, Some y => Some (NInt (x + y))
  | _, _ =>
      match as_float a, as_float b with
      | Some x, Some y => Some (NFloat (PrimFloat.add x y))
      | _, _ => None
      end
  end.

Definition num_sub (a b : number) : option number :=
  match as_int a, as_int b with
  | Some x, Some y => Some (NInt (x - y))
  | _, _ =>
      match as_float a, as_float b with
      | Some x, Some y => Some (NFloat (PrimFloat.sub x y))
      | _, _ => None
      end
  end.

(** The order of a [float] and an [int], which Python decides on the
    exact values, without converting the [int]. A NaN compares with
    nothing. *)
Definition float_compare_int (f : float) (z : Z) : option comparison :=
  match Prim2SF f with
  | S754_nan => None
  | S754_infinity negative => Some (if negative then Lt else Gt)
  | S754_zero _ => Some (Z.compare 0 z)
  | S754_finite negative m e =>
      let v := if negative then Z.neg m else Z.pos m in
      if Z.leb 0 e then Some (Z.compare (v * 2 ^ e) z)
      else Some (Z.compare v (z * 2 ^ (- e)))
  end.

Definition num_compare_int (a : number) (z : Z) : option comparison :=
  match a with
  | NBool b => Some (Z.compare (if b then 1 else 0) z)
  | NInt x => Some (Z.compare x z)
  | NFloat f => float_compare_int f z
  end.

(** [a > z] and [a >= z] for an [int] [z]. *)
Definition num_gt (a : number) (z : Z) : bool :=
  match num_compare_int a z with
  | Some Gt => true
  | _ => false
  end.

Definition num_ge (a : number) (z : Z) : bool :=
  match num_compare_int a z with
  | Some Gt | Some Eq => true
  | _ => false
  end.

Record Allocation : Type := mkAllocation {
  cpu : number;
  memory : number;
  storage : number;
  allocated_at : Z
}.

Record Usage : Type := mkUsage {
  used_cpu : number;
  used_memory : number;
  used_storage : number
}.

Record Contract : Type := mkContract {
  contract_id : string;
  owner : string;
  created_at : Z;
  allocations : gmap string Allocation;
  limits : ResourceAllocation.Limits;
  used : Usage
}.

Definition set_allocations (a : gmap string Allocation) (c : Contract)
  : Contract :=
  mkContract (contract_id c) (owner c) (created_at c) a (limits c) (used c).

Definition set_used (u : Usage) (c : Contract) : Contract :=
  mkContract (contract_id c) (owner c) (created_at c) (allocations c)
    (limits c) u.

(** [ResourceAllocationContract(contract_id, owner)] at clock reading
    [now]. *)
Definition new (id owner : string) (now : Z) : Contract :=
  mkContract id owner now ∅ (ResourceAllocation.mkLimits 400 16384 102400)
    (mkUsage (NInt 0) (NInt 0) (NInt 0)).

(** The values of a result dictionary. *)
Inductive value : Type :=
| Plain (v : pyval)
| Numbers (kvs : list (string * number)).

(** A method: it runs on the state of the contract and returns, with the
    state it leaves, its result or [None] for an [OverflowError]. An
    exception ends the method where it occurs, and the assignments made
    before it stay. *)
Definition method (A : Type) : Type := Contract → option A * Contract.

Definition ret {A} (a : A) : method A := λ c, (Some a, c).

Definition bind {A B} (m : method A) (k : A → method B) : method B :=
  λ c, match m c with
       | (Some a, c') => k a c'
       | (None, c') => (None, c')
       end.

Definition eval {A} (o : option A) : method A := λ c, (o, c).

Definition state : method Contract := λ c, (Some c, c).

Definition assign (f : Contract → Contract) : method unit :=
  λ c, (Some tt, f c).

Notation "'let*' x ':=' m 'in' k" := (bind m (λ x, k))
  (at level 10, x name, m at level 100, k at level 200, only parsing).
Notation "m ';;' k" := (bind m (λ _, k))
  (at level 100, k at level 200, right associativity, only parsing).

(** [used["cpu"] -= q], [used["cpu"] += q] and the like. *)
Definition update_cpu (op : number → number → option number) (q : number)
  : method unit :=
  let* c := state in
  let* v := eval (op (used_cpu (used c)) q) in
  assign (set_used (mkUsage v (used_memory (used c)) (used_storage (used c)))).

Definition update_memory (op : number → number → option number) (q : number)
  : method unit :=
  let* c := state in
  let* v := eval (op (used_memory (used c)) q) in
  assign (set_used (mkUsage (used_cpu (used c)) v (used_storage (used c)))).

Definition update_storage (op : number → number → option number) (q : number)
  : method unit :=
  let* c := state in
  let* v := eval (op (used_storage (used c)) q) in
  assign (set_used (mkUsage (used_cpu (used c)) (used_memory (used c)) v)).

(** [used[k] + q > limits[k]] *)
Definition exceeds (used_k q : number) (limit : Z) : method bool :=
  let* sum := eval (num_add used_k q) in
  ret (num_gt sum limit).

(** [limits[k] - used[k]] *)
Definition headroom (limit : Z) (used_k : number) : method number :=
  eval (num_sub (NInt limit) used_k).

Definition available : method value :=
  let* c := state in
  let* a_cpu :=
    headroom (ResourceAllocation.total_cpu (limits c)) (used_cpu (used c)) in
  let* a_memory :=
    headroom (ResourceAllocation.total_memory (limits c))
      (used_memory (used c)) in
  let* a_storage :=
    headroom (ResourceAllocation.total_storage (limits c))
      (used_storage (used c)) in
  ret (Numbers [("cpu", a_cpu); ("memory", a_memory); ("storage", a_storage)]).

Definition allocation_dict (a : Allocation) : value :=
  Numbers [("cpu", cpu a);
           ("memory", memory a);
           ("storage", storage a);
           ("allocated_at", NInt (allocated_at a))].

(** The capacity test: an [or] of three comparisons, evaluated left to
    right as far as needed. *)
Definition insufficient (q_cpu q_memory q_storage : number) : method bool :=
  let* c := state in
  let* over :=
    exceeds (used_cpu (used c)) q_cpu
      (ResourceAllocation.total_cpu (limits c)) in
  if over then ret true
  else
    let* over :=
      exceeds (used_memory (used c)) q_memory
        (ResourceAllocation.total_memory (limits c)) in
    if over then ret true
    else
      exceeds (used_storage (used c)) q_storage
        (ResourceAllocation.total_storage (limits c)).

(** [_request_resources(params, caller)] at clock reading [now], for
    [params] whose quantities are numbers. *)
Definition request_resources (params : gmap string number) (caller : string)
    (now : Z) : method (list (string * value)) :=
  let q_cpu := default (NInt 0) (params !! "cpu") in
  let q_memory := default (NInt 0) (params !! "memory") in
  let q_storage := default (NInt 0) (params !! "storage") in
  let* over := insufficient q_cpu q_memory q_storage in
  if over then
    let* room := available in
    ret [("success", Plain (VBool false));
         ("error", Plain (VStr "Insufficient resources"));
         ("available", room)]
  else
    let* c := state in
    match allocations c !! caller with
    | Some old_alloc =>
        update_cpu num_sub (cpu old_alloc);;
        update_memory num_sub (memory old_alloc);;
        update_storage num_sub (storage old_alloc)
    | None => ret tt
    end;;
    let alloc := mkAllocation q_cpu q_memory q_storage now in
    assign (λ c, set_allocations (<[caller := alloc]> (allocations c)) c);;
    update_cpu num_add q_cpu;;
    update_memory num_add q_memory;;
    update_storage num_add q_storage;;
    ret [("success", Plain (VBool true)); ("allocation", allocation_dict alloc)].

(** [_release_resources(params, caller)] *)
Definition release_resources (caller : string)
  : method (list (string * value)) :=
  let* c := state in
  match allocations c !! caller with
  | None =>
      ret [("success", Plain (VBool false));
           ("error", Plain (VStr "No allocation found"))]
  | Some alloc =>
      update_cpu num_sub (cpu alloc);;
      update_memory num_sub (memory alloc);;
      update_storage num_sub (storage alloc);;
      assign (λ c, set_allocations (delete caller (allocations c)) c);;
      ret [("success", Plain (VBool true))]
  end.

(** [validate(params)]: [cpu >= 0 and memory >= 0 and storage >= 0]. *)
Definition validate (params : gmap string number) : bool :=
  num_ge (default (NInt 0) (params !! "cpu")) 0
  && num_ge (default (NInt 0) (params !! "memory")) 0
  && num_ge (default (NInt 0) (params !! "storage")) 0.

(** The literals [0.1] and [0.4] of Python. *)
Definition tenth : float := 0x1.999999999999ap-4%float.
Definition four_tenths : float := 0x1.999999999999ap-2%float.

End ResourceNumbers.

Section NumbersOnIntegers.
Import ResourceNumbers.

(** The state of [ResourceAllocation], with its integers as numbers. *)
Definition of_allocation (a : ResourceAllocation.Allocation) : Allocation :=
  mkAllocation (NInt (ResourceAllocation.cpu a))
    (NInt (ResourceAllocation.memory a))
    (NInt (ResourceAllocation.storage a))
    (ResourceAllocation.allocated_at a).

Definition of_contract (c : ResourceAllocation.ResourceAllocationContract)
  : Contract :=
  mkContract (ResourceAllocation.contract_id c) (ResourceAllocation.owner c)
    (ResourceAllocation.created_at c)
    (of_allocation <$> ResourceAllocation.allocations c)
    (ResourceAllocation.limits c)
    (mkUsage (NInt (ResourceAllocation.used_cpu (ResourceAllocation.used c)))
       (NInt (ResourceAllocation.used_memory (ResourceAllocation.used c)))
       (NInt (ResourceAllocation.used_storage (ResourceAllocation.used c)))).

Lemma num_gt_int x limit : num_gt (NInt x) limit = Z.ltb limit x.
Proof.
  unfold num_gt. cbn [num_compare_int]. rewrite Z.ltb_compare, (Z.compare_antisym x).
  by destruct (x ?= limit)%Z.
Qed.

(** On integer quantities [request_resources] raises nothing and leaves
    the state that the embedding on integers leaves. *)
Lemma request_resources_on_integers
    (q : gmap string Z) (caller : string) (now : Z)
    (c : ResourceAllocation.ResourceAllocationContract) :
  ∃ r,
    request_resources (NInt <$> q) caller now (of_contract c)
    = (Some r,
       of_contract
         (ResourceAllocation.request_resources (VInt <$> q) caller now c).2).
Proof.
  set (n := default 0 (q !! "cpu")).
  set (m := default 0 (q !! "memory")).
  set (s := default 0 (q !! "storage")).
  assert (Hv : ∀ k, params_get_default (VInt <$> q) k (VInt 0)
                    = VInt (default 0 (q !! k))).
  { intros k. unfold params_get_default. rewrite lookup_fmap.
    by destruct (q !! k). }
  assert (Hq : ∀ k, default (NInt 0) ((NInt <$> q) !! k)
                    = NInt (default 0 (q !! k))).
  { intros k. rewrite lookup_fmap. by destruct (q !! k). }
  rewrite (request_resources_outcome c (VInt <$> q) caller now n m s)
    by (by rewrite Hv).
  unfold request_resources. rewrite !Hq. fold n m s.
  unfold insufficient, exceeds, bind, state, eval, ret.
  cbn [of_contract used limits used_cpu used_memory used_storage
       num_add as_int]. rewrite !num_gt_int.
  destruct (Z.ltb_spec (ResourceAllocation.total_cpu (ResourceAllocation.limits c))
              (ResourceAllocation.used_cpu (ResourceAllocation.used c) + n)).
  { rewrite bool_decide_eq_false_2 by lia. by eexists. }
  destruct (Z.ltb_spec (ResourceAllocation.total_memory (ResourceAllocation.limits c))
              (ResourceAllocation.used_memory (ResourceAllocation.used c) + m)).
  { rewrite bool_decide_eq_false_2 by lia. by eexists. }
  destruct (Z.ltb_spec (ResourceAllocation.total_storage (ResourceAllocation.limits c))
              (ResourceAllocation.used_storage (ResourceAllocation.used c) + s)).
  { rewrite bool_decide_eq_false_2 by lia. by eexists. }
  rewrite bool_decide_eq_true_2 by lia.
  cbn [allocations of_contract]. rewrite lookup_fmap.
  destruct (ResourceAllocation.allocations c !! caller) as [old|];
    cbn [fmap option_fmap option_map default snd];
    eexists; unfold update_cpu, update_memory, update_storage, assign, bind,
      state, eval, ret, set_used, set_allocations, of_contract,
      ResourceAllocation.set_state;
    cbn; rewrite fmap_insert; repeat f_equal; lia.
Qed.

(** Likewise for [release_resources]. *)
Lemma release_resources_on_integers
    (params : gmap string pyval) (caller : string)
    (c : ResourceAllocation.ResourceAllocationContract) :
  ∃ r,
    release_resources caller (of_contract c)
    = (Some r,
       of_contract (ResourceAllocation.release_resources params caller c).2).
Proof.
  rewrite release_resources_state.
  unfold release_resources, bind, state. cbn [allocations of_contract].
  rewrite lookup_fmap.
  destruct (ResourceAllocation.allocations c !! caller) as [a|];
    cbn [fmap option_fmap option_map]; [|by eexists].
  eexists. unfold update_cpu, update_memory, update_storage, assign, bind,
    state, eval, ret, set_used, set_allocations, of_contract,
    ResourceAllocation.set_state.
  cbn. by rewrite fmap_delete.
Qed.

End NumbersOnIntegers.

(** Two requests of a fraction of a CPU, released in the order of the
    larger first. *)
Module FloatRuns.
Import PrimFloat ResourceNumbers.

Definition fresh : Contract := new "resource-contract-1" "TEST-001" 1.

Definition first_request : gmap string number := {["cpu" := NFloat tenth]}.
Definition second_request : gmap string number :=
  {["cpu" := NFloat four_tenths]}.

Definition after_first : Contract :=
  (request_resources first_request "Instance-001" 10 fresh).2.

Definition after_second : Contract :=
  (request_resources second_request "Instance-002" 11 after_first).2.

Definition after_release : Contract :=
  (release_resources "Instance-002" after_second).2.

Definition after_releases : Contract :=
  (release_resources "Instance-001" after_release).2.

(** 0.09999999999999998, which is [0.1 + 0.4 - 0.4] in doubles. *)
Definition round_trip : PrimFloat.float := 0x1.9999999999998p-4%float.

(** -2.7755575615628914e-17, which is [(0.1 + 0.4 - 0.4) - 0.1] in
    doubles. *)
Definition drift : PrimFloat.float := (-0x1p-55)%float.

End FloatRuns.

(** A request of 0.4 CPU that is granted while 0.1 is in use, and its
    release: the used CPU is not 0.1 again. *)
Example round_trip_drifts_on_floats :
  ResourceNumbers.used_cpu (ResourceNumbers.used FloatRuns.after_first)
  = ResourceNumbers.NFloat ResourceNumbers.tenth
  ∧ ResourceNumbers.used_cpu (ResourceNumbers.used FloatRuns.after_release)
    = ResourceNumbers.NFloat FloatRuns.round_trip
  ∧ PrimFloat.eqb FloatRuns.round_trip ResourceNumbers.tenth = false.
Proof. repeat split; vm_compute; reflexivity. Qed.

(** C9 (as stated) fails on quantities that are floats. Two requests of
    0.1 and 0.4 CPU, both non-negative and both granted, and the two
    releases, all successful, leave no allocation, whose sum is 0, and a
    used CPU of -2.7755575615628914e-17, which is neither that sum nor at
    least 0. *)
Lemma used_drifts_on_float_quantities :
  ResourceNumbers.validate FloatRuns.first_request = true
  ∧ ResourceNumbers.validate FloatRuns.second_request = true
  ∧ (∃ granted,
       (ResourceNumbers.request_resources FloatRuns.first_request
          "Instance-001" 10 FloatRuns.fresh).1
       = Some (("success", ResourceNumbers.Plain (VBool true)) :: granted))
  ∧ (∃ granted,
       (ResourceNumbers.request_resources FloatRuns.second_request
          "Instance-002" 11 FloatRuns.after_first).1
       = Some (("success", ResourceNumbers.Plain (VBool true)) :: granted))
  ∧ (ResourceNumbers.release_resources "Instance-002" FloatRuns.after_second).1
    = Some [("success", ResourceNumbers.Plain (VBool true))]
  ∧ (ResourceNumbers.release_resources "Instance-001" FloatRuns.after_release).1
    = Some [("success", ResourceNumbers.Plain (VBool true))]
  ∧ ResourceNumbers.allocations FloatRuns.after_releases = ∅
  ∧ ResourceNumbers.used_cpu (ResourceNumbers.used FloatRuns.after_releases)
    = ResourceNumbers.NFloat FloatRuns.drift
  ∧ ResourceNumbers.num_ge
      (ResourceNumbers.used_cpu (ResourceNumbers.used FloatRuns.after_releases))
      0
    = false.
Proof.
  repeat split; try (vm_compute; reflexivity); eexists; vm_compute; reflexivity.
Qed.

(** A contract in which Instance-001 holds 300 of the 400 units of cpu. *)
Definition loaded_contract : ResourceAllocation.ResourceAllocationContract :=
  (ResourceAllocation.request_resources {["cpu" := VInt 300]} "Instance-001" 10
     (ResourceAllocation.new "resource-contract-1" "TEST-001" 1)).2.

(** C3 (what the code does). Instance-001 holds 300 units of cpu and asks
    for 200 instead. Taking its old allocation out first leaves 0 + 200,
    within the limit of 400 in every dimension; the code tests
    300 + 200 against the limit before it takes the old allocation out,
    and rejects the request with a headroom of 100. *)
Theorem request_resources_checks_before_release :
  ResourceAllocation.allocations loaded_contract !! "Instance-001"
  = Some (ResourceAllocation.mkAllocation 300 0 0 10)
  ∧ ResourceAllocation.used loaded_contract = ResourceAllocation.mkUsage 300 0 0
  ∧ (300 - 300 + 200 ≤ ResourceAllocation.total_cpu
                          (ResourceAllocation.limits loaded_contract))%Z
  ∧ ResourceAllocation.request_resources {["cpu" := VInt 200]} "Instance-001" 20
      loaded_contract
    = (Ok [("success", VBool false);
           ("error", VStr "Insufficient resources");
           ("available", VDict [("cpu", VInt 100);
                                ("memory", VInt 16384);
                                ("storage", VInt 102400)])],
       loaded_contract).
Proof. repeat split; try reflexivity. vm_compute. discriminate. Qed.

(** * Further functions of the ledger *)

(** ** Queries of [Blockchain] ([blockchain/core.py]) *)

Module Queries.
Import Core.

(** The transactions of the chain, block by block, in the order the two
    nested loops of [get_transaction] and [get_audit_trail] visit them. *)
Definition chain_transactions (bc : Blockchain) : list Transaction :=
  concat (map transactions (chain bc)).


(** The assignments [block.nonce = n] and [block.transactions = txs] on a
    stored block, as the integrity test of the repository does the first:
    the other stored fields, hashes included, stay. *)
Definition set_nonce (n : Z) (b : Block) : Block :=
  mkBlock (index b) (timestamp_micros b) (previous_hash b) (validator b)
    (transactions b) (merkle_root b) (block_hash b) n.

Definition set_transactions (txs : list Transaction) (b : Block) : Block :=
  mkBlock (index b) (timestamp_micros b) (previous_hash b) (validator b)
    txs (merkle_root b) (block_hash b) (nonce b).

(** The text [json.dumps(block_data, sort_keys=True)] that
    [_calculate_hash] builds from the header fields and passes to the
    digest. *)
Definition header_text (b : Block) : string :=
  Json.dumps
    (VDict [("index", VInt (index b));
            ("timestamp_micros", VInt (timestamp_micros b));
            ("previous_hash", VStr (previous_hash b));
            ("validator", VStr (validator b));
            ("merkle_root", VStr (merkle_root b));
            ("nonce", VInt (nonce b))]).

End Queries.

(** ** The ledger: lookups, own blocks, tampering *)

Section LedgerLookups.
Import Core Queries.

Variable sha256 : string → string.

Lemma sign_tx_id key tx : tx_id (sign sha256 key tx) = tx_id tx.
Proof. reflexivity. Qed.


Lemma forget_transactions_pool txs bc k :
  transaction_pool (foldl forget_transaction bc txs) !! k
  = if bool_decide (k ∈ map tx_id txs) then None else transaction_pool bc !! k.
Proof.
  revert bc. induction txs as [|tx txs IH]; intros bc; [done|].
  cbn [foldl map]. rewrite IH. cbn [forget_transaction transaction_pool set_pending set_pool].
  destruct (decide (k = tx_id tx)) as [->|Hne].
  - rewrite lookup_delete_eq, (bool_decide_eq_true_2 (_ ∈ _ :: _)) by left.
    by case_bool_decide.
  - rewrite lookup_delete_ne by done.
    case_bool_decide as H1; case_bool_decide as H2; try done.
    + destruct H2. by right.
    + apply elem_of_cons in H2 as [?|?]; done.
Qed.



End LedgerLookups.

Section LedgerBlocks.
Import Core Queries.

Variable sha256 : string → string.

(** X4. [create_block()] raises exactly when there is no transaction to take;
    otherwise the block holds the first ten pending transactions at most,
    what stays pending follows them in the old list, and the block is
    numbered by the length of the chain and linked to the head. *)
Theorem create_block_takes_oldest
    (signer : option string) (now : Z) (bc : Blockchain) (head : Block) :
  last (chain bc) = Some head →
  let r := create_block sha256 None signer now bc in
  (pending_transactions bc = [] →
   r = (Raise (ValueError "No transactions to include in block"), bc))
  ∧ (pending_transactions bc ≠ [] →
     ∃ block,
       r.1 = Ok block
       ∧ (transactions block ++ pending_transactions r.2)%list
         = pending_transactions bc
       ∧ (1 ≤ length (transactions block) ≤ 10)%nat
       ∧ index block = Z.of_nat (length (chain bc))
       ∧ previous_hash block = block_hash head
       ∧ timestamp_micros block = now
       ∧ nonce block = 0
       ∧ chain r.2 = chain bc
       ∧ transaction_pool r.2 = transaction_pool bc).
Proof.
  intros Hlast. cbv zeta. unfold create_block. split.
  - intros Hnil. rewrite Hnil. cbn. by destruct bc; simplify_eq/=.
  - intros Hne.
    destruct (take 10 (pending_transactions bc)) as [|tx txs] eqn:Htake.
    { destruct (pending_transactions bc); done. }
    cbn [chain set_pending]. rewrite Hlast. eexists. split; [reflexivity|].
    cbn [fst snd transactions new_Block pending_transactions set_pending
         index previous_hash timestamp_micros nonce chain transaction_pool].
    rewrite <- Htake, take_drop, length_take.
    repeat split; try done; [|lia].
    destruct (pending_transactions bc); [done|]. simpl. lia.
Qed.

(** X5. A block the ledger creates from its own pending transactions is
    accepted by [add_block] exactly when the index of the head is one less
    than the length of the chain. *)
Theorem own_block_accepted_iff
    (signer : option string) (now : Z) (bc : Blockchain) (head : Block) :
  last (chain bc) = Some head →
  pending_transactions bc ≠ [] →
  Forall (λ tx, validate_transaction sha256 tx = true) (pending_transactions bc) →
  ∃ block bc1,
    create_block sha256 None signer now bc = (Ok block, bc1)
    ∧ (add_block sha256 block bc1).1
      = Ok (bool_decide (index head + 1 = Z.of_nat (length (chain bc)))).
Proof.
  intros Hlast Hne Hvalid. unfold create_block.
  destruct (take 10 (pending_transactions bc)) as [|tx txs] eqn:Htake.
  { destruct (pending_transactions bc); done. }
  cbn [chain set_pending]. rewrite Hlast. eexists _, _. split; [reflexivity|].
  unfold add_block, validate_block. cbn [index new_Block chain set_pending].
  destruct (Z.eqb_spec (Z.of_nat (length (chain bc))) 0) as [H0|_].
  { destruct (chain bc); [done|]. simpl in H0. lia. }
  rewrite Hlast.
  destruct (Z.eqb_spec (Z.of_nat (length (chain bc))) (index head + 1)) as [Heq|Hneq];
    cbn [negb].
  - rewrite bool_decide_eq_true_2 by done.
    cbn [previous_hash block_hash merkle_root transactions
         Block_calculate_hash Block_calculate_merkle_root index
         timestamp_micros validator nonce].
    rewrite !String.eqb_refl. cbn [negb].
    rewrite forallb_Forall; [done|]. rewrite <- Htake. by apply Forall_take.
  - by rewrite bool_decide_eq_false_2.
Qed.

(** X6. [verify_integrity] answers false, without raising, for every chain
    whose head has an index other than 0: the head itself is compared with
    the head. *)
Theorem verify_integrity_false_unless_head_index_zero
    (bc : Blockchain) (head : Block) :
  last (chain bc) = Some head →
  index head ≠ 0 →
  verify_integrity sha256 bc = Ok false.
Proof.
  intros Hlast Hidx.
  assert (Hne : chain bc ≠ []) by (by intros H0; rewrite H0 in Hlast).
  apply (verify_from_rejects sha256 bc 0 (chain bc) head Hne).
  - apply last_Some in Hlast as [l ->]. apply elem_of_app. right. left.
  - unfold validate_block. rewrite Hlast.
    destruct (Z.eqb_spec (index head) 0); [done|].
    destruct (Z.eqb_spec (index head) (index head + 1)); [lia|done].
Qed.

(** The Merkle loop does not tell a list of odd length, three hashes or
    more, from the same list with its last hash repeated. *)
Lemma merkle_loop_repeat_last hashes h :
  Nat.odd (length hashes) = true → (3 ≤ length hashes)%nat →
  last hashes = Some h →
  merkle_loop sha256 (hashes ++ [h]) = merkle_loop sha256 hashes.
Proof.
  intros Hodd Hlen Hlast.
  destruct hashes as [|a [|b rest]]; [done|simpl in Hlen; lia|].
  change ((a :: b :: rest) ++ [h])%list with (a :: b :: (rest ++ [h]))%list.
  rewrite !merkle_loop_equation_3. f_equal. f_equal.
  unfold pad_odd. rewrite Hodd.
  change (a :: b :: (rest ++ [h]))%list with ((a :: b :: rest) ++ [h])%list.
  rewrite length_app, Nat.add_1_r, Nat.odd_succ, <- Nat.negb_odd, Hodd. cbn [negb].
  f_equal. f_equal. apply last_Some in Hlast as [l Hl]. rewrite Hl.
  by rewrite List.last_last.
Qed.

(** What [_validate_block] accepts. *)
Lemma validate_block_true_iff bc block :
  validate_block sha256 bc block = Ok true
  ↔ index block = 0
    ∨ ∃ head,
        last (chain bc) = Some head
        ∧ index block = index head + 1
        ∧ previous_hash block = block_hash head
        ∧ block_hash block = Block_calculate_hash sha256 block
        ∧ merkle_root block = Block_calculate_merkle_root sha256 block
        ∧ forallb (validate_transaction sha256) (transactions block) = true.
Proof.
  unfold validate_block.
  destruct (Z.eqb_spec (index block) 0) as [H0|H0]; [by split; [left|]|].
  destruct (last (chain bc)) as [head|].
  2:{ split; [done|]. by intros [?|(? & ? & _)]. }
  destruct (Z.eqb_spec (index block) (index head + 1)) as [Hi|Hi]; cbn [negb].
  2:{ split; [done|]. intros [?|(? & [= <-] & ? & _)]; done. }
  destruct (String.eqb_spec (previous_hash block) (block_hash head)) as [Hp|Hp];
    cbn [negb].
  2:{ split; [done|]. intros [?|(? & [= <-] & ? & ? & _)]; done. }
  destruct (String.eqb_spec (block_hash block) (Block_calculate_hash sha256 block))
    as [Hb|Hb]; cbn [negb].
  2:{ split; [done|]. intros [?|(? & [= <-] & ? & ? & ? & _)]; done. }
  destruct (String.eqb_spec (merkle_root block)
              (Block_calculate_merkle_root sha256 block)) as [Hm|Hm]; cbn [negb].
  2:{ split; [done|]. intros [?|(? & [= <-] & ? & ? & ? & ? & _)]; done. }
  split.
  - intros [= Hall]. right. by exists head.
  - intros [?|(? & _ & _ & _ & _ & _ & ->)]; done.
Qed.

(** X7. A stored block whose last transaction is appended a second time
    passes the validation the original block passes, when it holds an odd
    number of transactions, three or more: its Merkle root is the same. *)
Theorem duplicated_last_transaction_accepted
    (bc : Blockchain) (block : Block) (tx : Transaction) :
  (add_block sha256 block bc).1 = Ok true →
  Nat.odd (length (transactions block)) = true →
  (3 ≤ length (transactions block))%nat →
  last (transactions block) = Some tx →
  (add_block sha256 (set_transactions (transactions block ++ [tx]) block) bc).1
  = Ok true
  ∧ merkle_root (new_Block sha256 (index block) (timestamp_micros block)
                   (previous_hash block) (validator block)
                   (transactions block ++ [tx]))
    = merkle_root (new_Block sha256 (index block) (timestamp_micros block)
                     (previous_hash block) (validator block)
                     (transactions block)).
Proof.
  intros Hadd Hodd Hlen Hlast.
  assert (Hroot : calculate_merkle_root sha256 (transactions block ++ [tx])
                  = calculate_merkle_root sha256 (transactions block)).
  { unfold calculate_merkle_root.
    destruct (transactions block) as [|t0 txs] eqn:Htxs; [done|].
    change ((t0 :: txs) ++ [tx])%list with (t0 :: (txs ++ [tx]))%list.
    cbv iota.
    change (t0 :: (txs ++ [tx]))%list with ((t0 :: txs) ++ [tx])%list.
    rewrite map_app. change (map data_hash [tx]) with [data_hash tx].
    apply merkle_loop_repeat_last; rewrite ?length_map; try done.
    change (map data_hash (t0 :: txs)) with (data_hash <$> (t0 :: txs)).
    by rewrite fmap_last, Hlast. }
  split; [|exact Hroot].
  unfold add_block in *.
  destruct (validate_block sha256 bc block) as [[]|] eqn:Hv; try done.
  assert (Hv' : validate_block sha256 bc
                  (set_transactions (transactions block ++ [tx]) block) = Ok true);
    [|by rewrite Hv'].
  apply validate_block_true_iff.
  apply validate_block_true_iff in Hv
    as [H0|(head & Hhead & Hi & Hp & Hb & Hm & Hall)]; [by left|].
  right. exists head. repeat split; try done.
  - unfold Block_calculate_merkle_root. cbn [merkle_root set_transactions transactions].
    by rewrite Hroot.
  - cbn [transactions set_transactions]. rewrite forallb_app, Hall. cbn.
    rewrite andb_true_r. eapply forallb_forall in Hall; [exact Hall|].
    apply last_Some in Hlast as [l ->]. apply in_or_app. right. by left.
Qed.

End LedgerBlocks.

(** ** Strings as lists of characters *)

Section StringFacts.

Lemma chars_app a b :
  String.list_ascii_of_string (a +:+ b)
  = (String.list_ascii_of_string a ++ String.list_ascii_of_string b)%list.
Proof. induction a as [|c a IH]; simpl; by rewrite ?IH. Qed.

Lemma chars_inj a b :
  String.list_ascii_of_string a = String.list_ascii_of_string b → a = b.
Proof.
  intros H. rewrite <- (String.string_of_list_ascii_of_string a),
    <- (String.string_of_list_ascii_of_string b). by rewrite H.
Qed.

Lemma string_app_assoc a b c : (a +:+ b) +:+ c = a +:+ (b +:+ c).
Proof. apply chars_inj. by rewrite !chars_app, app_assoc. Qed.

Lemma string_app_inv_tail a b s : a +:+ s = b +:+ s → a = b.
Proof.
  intros H. apply chars_inj. apply (f_equal String.list_ascii_of_string) in H.
  rewrite !chars_app in H. by apply app_inv_tail in H.
Qed.

Lemma string_app_inv_head s a b : s +:+ a = s +:+ b → a = b.
Proof. apply (inj (String.app s)). Qed.

End StringFacts.

Section Tampering.
Import Core Queries.

Variable sha256 : string → string.

(** With every other field fixed, the hashed text of a block header
    determines the nonce. *)
Lemma header_text_nonce_inj index timestamp previous signer root n n' :
  Json.dumps (VDict [("index", VInt index);
                     ("timestamp_micros", VInt timestamp);
                     ("previous_hash", VStr previous);
                     ("validator", VStr signer);
                     ("merkle_root", VStr root);
                     ("nonce", VInt n)])
  = Json.dumps (VDict [("index", VInt index);
                       ("timestamp_micros", VInt timestamp);
                       ("previous_hash", VStr previous);
                       ("validator", VStr signer);
                       ("merkle_root", VStr root);
                       ("nonce", VInt n')]) →
  n = n'.
Proof.
  rewrite !dumps_dict.
  change (Json.sort_items (map _ [_; _; _; _; _; ("nonce", VInt n)]))
    with [("index", pretty index); ("merkle_root", Json.quote root);
          ("nonce", pretty n); ("previous_hash", Json.quote previous);
          ("timestamp_micros", pretty timestamp);
          ("validator", Json.quote signer)].
  change (Json.sort_items (map _ [_; _; _; _; _; ("nonce", VInt n')]))
    with [("index", pretty index); ("merkle_root", Json.quote root);
          ("nonce", pretty n'); ("previous_hash", Json.quote previous);
          ("timestamp_micros", pretty timestamp);
          ("validator", Json.quote signer)].
  cbn [map String.concat]. unfold Json.render_item. cbn [fst snd].
  rewrite !string_app_assoc. intros H.
  repeat apply string_app_inv_head in H.
  apply string_app_inv_tail in H. by apply (inj pretty) in H.
Qed.

Lemma Block_calculate_hash_text (b : Block) :
  Block_calculate_hash sha256 b = sha256 (header_text b).
Proof. reflexivity. Qed.

(** X8. A block, other than one of index 0, whose nonce is changed after
    its hash was computed is refused, [add_block] returning false and
    leaving the ledger as it was, unless the digest maps the header text
    with the new nonce and the header text with the old one, which are
    different texts, to the same value. *)
Theorem tampered_nonce_rejected
    (bc : Blockchain) (block : Block) (n : Z) :
  (sha256 (header_text (set_nonce n block)) = sha256 (header_text block) →
   header_text (set_nonce n block) = header_text block) →
  chain bc ≠ [] →
  index block ≠ 0 →
  block_hash block = Block_calculate_hash sha256 block →
  n ≠ nonce block →
  add_block sha256 (set_nonce n block) bc = (Ok false, bc).
Proof.
  intros Hpair Hne Hidx Hhash Hn.
  assert (Hv : validate_block sha256 bc (set_nonce n block) ≠ Ok true).
  { rewrite validate_block_true_iff. cbn [index set_nonce].
    intros [?|(head & _ & _ & _ & Hb & _)]; [done|].
    cbn [block_hash set_nonce] in Hb.
    rewrite Hhash, !Block_calculate_hash_text in Hb.
    symmetry in Hb. apply Hpair in Hb. unfold header_text in Hb.
    cbn [index timestamp_micros previous_hash validator merkle_root nonce set_nonce] in Hb.
    apply header_text_nonce_inj in Hb. done. }
  unfold add_block.
  destruct (validate_block_no_raise sha256 bc (set_nonce n block) Hne) as [[] Hr];
    rewrite Hr in *; done.
Qed.

End Tampering.

(** Sample ledgers for the properties above. *)
Module Runs.
Import Core.

Definition busy_ledger : Blockchain :=
  (create_transaction Sample.digest "create_entity"
     [("name", VStr "Entity1")] None 2000 Sample.ledger).2.

(** Three pending transactions, then the block [create_block()] makes of
    them. *)
Definition three_pending : Blockchain :=
  (create_transaction Sample.digest "add_observation"
     [("entity", VStr "Entity1"); ("observation", VStr "Test")] None 2002
     (create_transaction Sample.digest "create_entity"
        [("name", VStr "Entity2")] None 2001 busy_ledger).2).2.

Definition block_of (bc : Blockchain) (now : Z) : Block :=
  match create_block Sample.digest None None now bc with
  | (Ok block, _) => block
  | (Raise _, _) => new_Block Sample.digest 0 0 "" "" []
  end.

Definition after_create_block (bc : Blockchain) (now : Z) : Blockchain :=
  (create_block Sample.digest None None now bc).2.

Definition sealed_ledger : Blockchain :=
  (add_block Sample.digest (block_of busy_ledger 3000)
     (after_create_block busy_ledger 3000)).2.

End Runs.

Lemma digest_no_collision a b : Sample.digest a = Sample.digest b → a = b.
Proof. unfold Sample.digest. simpl. by intros [= ?]. Qed.


Lemma create_block_takes_oldest_sample :
  ∃ block,
    (Core.create_block Sample.digest None None 3000 Runs.three_pending).1
    = Ok block
    ∧ length (Core.transactions block) = 3%nat
    ∧ Core.index block = 1.
Proof.
  edestruct (create_block_takes_oldest Sample.digest None 3000
               Runs.three_pending) as [_ Htake].
  - vm_compute. reflexivity.
  - destruct Htake as (block & Hblock & Hsplit & _ & Hindex & _).
    + vm_compute. discriminate.
    + exists block. split; [exact Hblock|]. split; [|exact Hindex].
      apply (f_equal length) in Hsplit. rewrite length_app in Hsplit.
      assert (Hb : block = Runs.block_of Runs.three_pending 3000).
      { unfold Runs.block_of.
        destruct (Core.create_block Sample.digest None None 3000
                    Runs.three_pending) as [[b|e] bc']; simpl in Hblock;
          congruence. }
      rewrite Hb. vm_compute. reflexivity.
Defined.

Lemma own_block_accepted_iff_sample :
  ∃ block bc1,
    Core.create_block Sample.digest None None 3000 Runs.busy_ledger
    = (Ok block, bc1)
    ∧ (Core.add_block Sample.digest block bc1).1 = Ok true.
Proof.
  edestruct (own_block_accepted_iff Sample.digest None 3000 Runs.busy_ledger)
    as (block & bc1 & Hcreate & Hadd).
  - vm_compute. reflexivity.
  - vm_compute. discriminate.
  - repeat constructor.
  - exists block, bc1. split; [exact Hcreate|]. rewrite Hadd. reflexivity.
Defined.

Lemma verify_integrity_false_unless_head_index_zero_sample :
  Core.verify_integrity Sample.digest Runs.sealed_ledger = Ok false.
Proof.
  eapply (verify_integrity_false_unless_head_index_zero Sample.digest).
  - vm_compute. reflexivity.
  - vm_compute. discriminate.
Defined.

Lemma duplicated_last_transaction_accepted_sample :
  ∃ tx,
    last (Core.transactions (Runs.block_of Runs.three_pending 3000)) = Some tx
    ∧ (Core.add_block Sample.digest
         (Queries.set_transactions
            (Core.transactions (Runs.block_of Runs.three_pending 3000) ++ [tx])
            (Runs.block_of Runs.three_pending 3000))
         (Runs.after_create_block Runs.three_pending 3000)).1
      = Ok true.
Proof.
  eexists. split; [vm_compute; reflexivity|].
  eapply (duplicated_last_transaction_accepted Sample.digest).
  - vm_compute. reflexivity.
  - vm_compute. reflexivity.
  - vm_compute. lia.
  - vm_compute. reflexivity.
Defined.

Lemma tampered_nonce_rejected_sample :
  Core.add_block Sample.digest
    (Queries.set_nonce 999999 (Runs.block_of Runs.busy_ledger 3000))
    (Runs.after_create_block Runs.busy_ledger 3000)
  = (Ok false, Runs.after_create_block Runs.busy_ledger 3000).
Proof.
  apply (tampered_nonce_rejected Sample.digest).
  - apply digest_no_collision.
  - vm_compute. discriminate.
  - vm_compute. discriminate.
  - vm_compute. reflexivity.
  - vm_compute. discriminate.
Defined.

(** ** [get_audit_trail] ([blockchain/core.py]) *)

Module Audit.
Import Core Queries.

(** [json.dumps(v)] with the default [sort_keys=False]: the items of a
    dict are written in insertion order. *)
Fixpoint dumps_plain (v : pyval) : string :=
  match v with
  | VNone => "null"
  | VBool true => "true"
  | VBool false => "false"
  | VInt z => pretty z
  | VStr s => Json.quote s
  | VList l => "[" +:+ String.concat ", " (map dumps_plain l) +:+ "]"
  | VDict kvs =>
      "{" +:+ String.concat ", "
                (map (λ kv, Json.quote kv.1 +:+ ": " +:+ dumps_plain kv.2) kvs)
          +:+ "}"
  end.

(** [needle in hay] on strings. *)
Fixpoint contains (needle hay : string) : bool :=
  String.prefix needle hay
  || match hay with
     | EmptyString => false
     | String _ hay' => contains needle hay'
     end.

(** The arguments: each is optional, and a given value that is falsy (the
    number 0, the empty string) filters nothing either. *)
Record Criteria : Type := mkCriteria {
  entity_name : option string;
  operation : option string;
  start_time : option Z;
  end_time : option Z
}.

Definition given_time (t : option Z) : option Z :=
  match t with
  | Some z => if Z.eqb z 0 then None else Some z
  | None => None
  end.

Definition given_text (s : option string) : option string :=
  match s with
  | Some s => if String.eqb s "" then None else Some s
  | None => None
  end.

(** The body of the inner loop: does the transaction reach
    [results.append(tx)]? *)
Definition selected (q : Criteria) (tx : Transaction) : bool :=
  match given_time (start_time q) with
  | Some s => negb (Z.ltb (tx_timestamp_micros tx) s)
  | None => true
  end
  && match given_time (end_time q) with
     | Some e => negb (Z.ltb e (tx_timestamp_micros tx))
     | None => true
     end
  && match given_text (operation q) with
     | Some op => String.eqb (tx_operation tx) op
     | None => true
     end
  && match given_text (entity_name q) with
     | Some name => contains name (dumps_plain (VDict (tx_data tx)))
     | None => true
     end.

(** [sorted(results, key=lambda tx: tx.timestamp_micros)]: a stable sort,
    transactions of equal timestamp keep their order. *)
Fixpoint insert_by_time (tx : Transaction) (l : list Transaction)
  : list Transaction :=
  match l with
  | [] => [tx]
  | tx' :: l' =>
      if Z.leb (tx_timestamp_micros tx) (tx_timestamp_micros tx')
      then tx :: l
      else tx' :: insert_by_time tx l'
  end.

Definition sorted_by_time (l : list Transaction) : list Transaction :=
  foldr insert_by_time [] l.

Definition get_audit_trail (q : Criteria) (bc : Blockchain)
  : list Transaction :=
  sorted_by_time (List.filter (selected q) (chain_transactions bc)).

End Audit.

Section AuditTrail.
Import Core Queries Audit.

Lemma prefix_iff a b : String.prefix a b = true ↔ ∃ post, b = a +:+ post.
Proof.
  revert b. induction a as [|c a IH]; intros [|d b]; simpl.
  - split; [intros _; by exists "" | done].
  - split; [intros _; by exists (String d b) | done].
  - split; [done|by intros [? ?]].
  - destruct (Ascii.ascii_dec c d) as [->|Hne].
    + rewrite IH. split; intros [post Hp]; exists post; [by rewrite Hp|].
      by injection Hp.
    + split; [done|]. intros [post Hp]. by injection Hp.
Qed.

(** [contains] is the substring relation. *)
Lemma contains_iff needle hay :
  contains needle hay = true ↔ ∃ pre post, hay = pre +:+ needle +:+ post.
Proof.
  induction hay as [|c hay IH]; cbn [contains].
  - rewrite orb_false_r, prefix_iff. split.
    + intros [post ->]. by exists "", post.
    + intros (pre & post & H). destruct pre; [by exists post|done].
  - rewrite orb_true_iff, prefix_iff, IH. split.
    + intros [[post ->]|(pre & post & ->)]; [by exists "", post|].
      by exists (String c pre), post.
    + intros ([|d pre] & post & H); [left; by exists post|].
      right. exists pre, post. simpl in H. by injection H.
Qed.

Lemma insert_by_time_perm tx l : insert_by_time tx l ≡ₚ tx :: l.
Proof.
  induction l as [|tx' l IH]; simpl; [done|].
  destruct (Z.leb _ _); [done|]. rewrite IH. apply perm_swap.
Qed.

Lemma sorted_by_time_perm l : sorted_by_time l ≡ₚ l.
Proof.
  induction l as [|tx l IH]; simpl; [done|].
  by rewrite insert_by_time_perm, IH.
Qed.

Definition earlier (a b : Transaction) : Prop :=
  (tx_timestamp_micros a ≤ tx_timestamp_micros b)%Z.

Lemma insert_by_time_sorted tx l :
  StronglySorted earlier l → StronglySorted earlier (insert_by_time tx l).
Proof.
  induction 1 as [|tx' l Hl IH Hall]; simpl; [repeat constructor|].
  destruct (Z.leb_spec (tx_timestamp_micros tx) (tx_timestamp_micros tx')).
  - constructor; [by constructor|]. constructor; [done|].
    eapply Forall_impl; [exact Hall|]. unfold earlier. intros; simpl in *; lia.
  - constructor; [done|]. rewrite insert_by_time_perm.
    constructor; [unfold earlier; lia|done].
Qed.

Lemma sorted_by_time_sorted l : StronglySorted earlier (sorted_by_time l).
Proof.
  induction l as [|tx l IH]; simpl; [constructor|].
  by apply insert_by_time_sorted.
Qed.

(** X9. The audit trail lists, in ascending order of timestamp, exactly the
    transactions of the chain that meet every criterion given: the time
    bounds are inclusive, the operation is compared for equality, the
    entity name is searched in the JSON text of the data; a criterion left
    out, and likewise a bound of 0 or an empty text, excludes nothing.
    Pending transactions are never listed. *)
Theorem audit_trail_sorted_and_exact (q : Criteria) (bc : Blockchain) :
  StronglySorted earlier (get_audit_trail q bc)
  ∧ (∀ tx,
       tx ∈ get_audit_trail q bc
       ↔ tx ∈ chain_transactions bc
         ∧ (∀ s, start_time q = Some s → s ≠ 0 → (s ≤ tx_timestamp_micros tx)%Z)
         ∧ (∀ e, end_time q = Some e → e ≠ 0 → (tx_timestamp_micros tx ≤ e)%Z)
         ∧ (∀ op, operation q = Some op → op ≠ "" → tx_operation tx = op)
         ∧ (∀ name, entity_name q = Some name → name ≠ "" →
              ∃ pre post,
                dumps_plain (VDict (tx_data tx)) = pre +:+ name +:+ post))
  ∧ (length (get_audit_trail q bc) ≤ length (chain_transactions bc))%nat.
Proof.
  unfold get_audit_trail. split; [apply sorted_by_time_sorted|]. split.
  - intros tx. rewrite sorted_by_time_perm, list_elem_of_In, List.filter_In,
      <- list_elem_of_In.
    apply and_iff_compat_l. unfold selected, given_time, given_text.
    rewrite !andb_true_iff.
    destruct q as [name op s e]; cbn [start_time end_time operation entity_name].
    split.
    + intros [[[Hs He] Hop] Hname]. repeat split.
      * intros s' [= ->] Hs0. destruct (Z.eqb_spec s' 0); [done|].
        apply negb_true_iff, Z.ltb_ge in Hs. done.
      * intros e' [= ->] He0. destruct (Z.eqb_spec e' 0); [done|].
        apply negb_true_iff, Z.ltb_ge in He. done.
      * intros op' [= ->] Hop0. destruct (String.eqb_spec op' ""); [done|].
        by apply String.eqb_eq.
      * intros name' [= ->] Hn0. destruct (String.eqb_spec name' ""); [done|].
        by apply contains_iff.
    + intros (Hs & He & Hop & Hname). repeat split.
      * destruct s as [s|]; [|done]. destruct (Z.eqb_spec s 0); [done|].
        apply negb_true_iff, Z.ltb_ge. by apply Hs.
      * destruct e as [e|]; [|done]. destruct (Z.eqb_spec e 0); [done|].
        apply negb_true_iff, Z.ltb_ge. by apply He.
      * destruct op as [op|]; [|done]. destruct (String.eqb_spec op ""); [done|].
        apply String.eqb_eq. by apply Hop.
      * destruct name as [name|]; [|done].
        destruct (String.eqb_spec name ""); [done|].
        apply contains_iff. by apply Hname.
  - rewrite sorted_by_time_perm. clear.
    induction (chain_transactions bc) as [|tx l IH]; simpl; [done|].
    destruct (selected q tx); simpl; lia.
Qed.

End AuditTrail.

(** * Further functions of the scheduler *)

(** ** The block-creation loops ([scripts/blockchain_node.py], [server.py]) *)

(** Both loops read the clock once in their own test of
    [can_create_block] and again inside [create_block]; a raised exception
    is caught and logged by the loop, the objects staying as the
    exception left them. The ledger of the scheduler is the ledger of the
    node: one object. *)
Module Node.
Import Core Consensus.

Section Loop.

Variable sha256 : string → string.

(** One iteration of [BlockchainNode.consensus_loop]: a created block is
    added to the node's own chain. Saving the chain to disk is left out. *)
Definition consensus_tick (id : string) (now_ms now_ms' : Q) (now : Z)
    (poa : ProofOfAuthority) : ProofOfAuthority :=
  if can_create_block id now_ms poa then
    match Consensus.create_block sha256 id now_ms' now poa with
    | (Ok (Some block), poa) =>
        set_blockchain (add_block sha256 block (blockchain poa)).2 poa
    | (_, poa) => poa
    end
  else poa.

(** One iteration of [MemoryBlockchainServer._consensus_loop]: the created
    block is logged, nothing more. *)
Definition server_tick (id : string) (now_ms now_ms' : Q) (now : Z)
    (poa : ProofOfAuthority) : ProofOfAuthority :=
  if can_create_block id now_ms poa then
    (Consensus.create_block sha256 id now_ms' now poa).2
  else poa.

(** What the server does to its ledger: a tool handler records a
    transaction, or the loop runs once. *)
Inductive server_event : Type :=
| Submit (operation : string) (data : list (string * pyval)) (now : Z)
| Tick (now_ms now_ms' : Q) (now : Z).

Definition server_step (id : string) (poa : ProofOfAuthority)
    (e : server_event) : ProofOfAuthority :=
  match e with
  | Submit operation data now =>
      set_blockchain
        (create_transaction sha256 operation data None now (blockchain poa)).2
        poa
  | Tick now_ms now_ms' now => server_tick id now_ms now_ms' now poa
  end.

End Loop.

(** Changes of the registry through its two methods. *)
Inductive registry_op : Type :=
| Add (v : Validator)
| Remove (id : string).

Definition registry_step (poa : ProofOfAuthority) (op : registry_op)
  : ProofOfAuthority :=
  match op with
  | Add v => (add_validator v poa).2
  | Remove id => (remove_validator id poa).2
  end.

End Node.

(** ** The scheduler: registry, turns, loops *)

Section SchedulerProperties.
Import Core Consensus Queries Node.

Variable sha256 : string → string.

Lemma dict_get_None {A} k (kvs : list (string * A)) :
  dict_get k kvs = None ↔ k ∉ kvs.*1.
Proof.
  induction kvs as [|[k' v'] kvs IH]; [by split; [intros _ ?%elem_of_nil|]|].
  rewrite dict_get_cons, fmap_cons, not_elem_of_cons. cbn [fst].
  destruct (String.eqb_spec k' k) as [->|Hne]; [by split; [|intros [? _]]|].
  rewrite IH. split; [by intros ?|by intros [_ ?]].
Qed.

Lemma dict_get_elem {A} k (v : A) kvs :
  NoDup kvs.*1 → (k, v) ∈ kvs → dict_get k kvs = Some v.
Proof.
  induction kvs as [|[k' v'] kvs IH]; [by intros _ ?%elem_of_nil|].
  rewrite fmap_cons, NoDup_cons, dict_get_cons. cbn [fst].
  intros [Hnotin Hnd] [[= -> ->]|Hin]%elem_of_cons.
  - by rewrite String.eqb_refl.
  - destruct (String.eqb_spec k' k) as [->|_]; [|by apply IH].
    destruct Hnotin. by apply (list_elem_of_fmap_2 fst) in Hin.
Qed.

Lemma registry_wf_app vs v :
  registry_wf vs → instance_id v ∉ vs.*1 →
  registry_wf (vs ++ [(instance_id v, v)]).
Proof.
  intros [Hnd Hkeys] Hnew. split.
  - rewrite fmap_app. apply NoDup_app. split; [done|]. split.
    + intros k Hk [->|[]%elem_of_nil]%elem_of_cons. done.
    + apply NoDup_singleton.
  - apply Forall_app. split; [done|]. by constructor.
Qed.

Lemma registry_wf_alter f id vs :
  (∀ v, instance_id (f v) = instance_id v) →
  registry_wf vs → registry_wf (dict_alter f id vs).
Proof.
  intros Hf [Hnd Hkeys]. split; [by rewrite dict_alter_keys|].
  clear Hnd. induction Hkeys as [|[k v] vs Hk Hrest IH]; [constructor|].
  simpl in *. destruct (String.eqb k id); constructor; try done.
  simpl. by rewrite Hf.
Qed.

Lemma registry_step_wf poa op :
  registry_wf (validators poa) → registry_wf (validators (registry_step poa op)).
Proof.
  intros Hwf. destruct op as [v|id]; simpl.
  - unfold add_validator.
    destruct (dict_get (instance_id v) (validators poa)) eqn:Hget; [done|].
    apply registry_wf_app; [done|]. by apply dict_get_None.
  - unfold remove_validator. destruct (dict_get id (validators poa)); [|done].
    by apply registry_wf_alter.
Qed.

Lemma registry_step_keys poa op :
  ∃ added, (validators (registry_step poa op)).*1
           = ((validators poa).*1 ++ added)%list.
Proof.
  destruct op as [v|id]; simpl.
  - unfold add_validator. destruct (dict_get _ _).
    + exists []. by rewrite app_nil_r.
    + exists [instance_id v]. cbn. by rewrite fmap_app.
  - exists []. rewrite app_nil_r. unfold remove_validator.
    destruct (dict_get _ _); [apply dict_alter_keys|done].
Qed.

Lemma new_ProofOfAuthority_wf bc block_time vs :
  registry_wf (validators (new_ProofOfAuthority bc block_time vs)).
Proof.
  unfold new_ProofOfAuthority.
  assert (H : ∀ l poa, registry_wf (validators poa) →
            registry_wf (validators (foldl (λ poa v, (add_validator v poa).2) poa l))).
  { induction l as [|v l IH]; intros poa Hwf; [done|]. simpl. apply IH.
    apply (registry_step_wf poa (Add v) Hwf). }
  apply H. split; constructor.
Qed.

(** X10. In a scheduler as its constructor builds it, and after any sequence of
    [add_validator] and [remove_validator] calls, the ids of the registry
    are distinct and each entry is filed under the id of its validator;
    no call takes an id out of the registry or moves it: the ids
    registered before the calls are the first ids after them, in the same
    order. *)
Theorem registry_only_grows
    (bc : Blockchain) (block_time : Z) (vs : option (list Validator))
    (ops : list registry_op) :
  let start := new_ProofOfAuthority bc block_time vs in
  let final := foldl registry_step start ops in
  registry_wf (validators final)
  ∧ ∃ added, (validators final).*1 = ((validators start).*1 ++ added)%list.
Proof.
  cbv zeta.
  assert (H : ∀ poa, registry_wf (validators poa) →
            registry_wf (validators (foldl registry_step poa ops))
            ∧ ∃ added, (validators (foldl registry_step poa ops)).*1
                       = ((validators poa).*1 ++ added)%list).
  { induction ops as [|op ops IH]; intros poa Hwf.
    - split; [done|]. exists []. by rewrite app_nil_r.
    - simpl. destruct (IH _ (registry_step_wf poa op Hwf)) as [Hwf' [added Hk]].
      split; [done|]. destruct (registry_step_keys poa op) as [added0 Hk0].
      exists (added0 ++ added)%list. by rewrite Hk, Hk0, app_assoc. }
  apply H, new_ProofOfAuthority_wf.
Qed.

(** X11. The scheduler names no validator exactly when none is active, and a
    validator it names is an active one of the registry. *)
Theorem current_validator_is_active (poa : ProofOfAuthority) :
  (get_current_validator poa = None ↔ active_validators poa = [])
  ∧ ∀ v, get_current_validator poa = Some v →
         is_active v = true ∧ ∃ k, (k, v) ∈ validators poa.
Proof.
  unfold get_current_validator.
  destruct (active_validators poa) as [|a l] eqn:Hact; [by split|].
  assert (Hlt : (Z.to_nat (current_validator_index poa `mod` Z.of_nat (length (a :: l)))
                 < length (a :: l))%nat).
  { simpl length. Z.to_euclidean_division_equations. lia. }
  split.
  - split; [|done]. intros Hnone. apply lookup_ge_None in Hnone. lia.
  - intros v Hv. apply list_elem_of_lookup_2 in Hv. rewrite <- Hact in Hv.
    unfold active_validators in Hv.
    apply list_elem_of_In, List.filter_In in Hv as [Hin Hv]. split; [done|].
    apply List.in_map_iff in Hin as ([k v'] & <- & Hin). exists k.
    by apply list_elem_of_In.
Qed.

End SchedulerProperties.

Section LoopProperties.
Import Core Consensus Queries Node.

Variable sha256 : string → string.

Lemma can_create_block_pending id now_ms poa :
  can_create_block id now_ms poa = true →
  is_my_turn id poa = true ∧ pending_transactions (blockchain poa) ≠ [].
Proof.
  unfold can_create_block. destruct (is_my_turn id poa); [|done]. cbn [negb].
  destruct (match last _ with Some _ => _ | None => _ end); [done|].
  destruct (pending_transactions (blockchain poa)); done.
Qed.


(** X13. The server's loop never appends a block, and no other ledger
    operation of the server does: whatever transactions are submitted and
    however often the loop runs, the chain is the one the server started
    with, so that the audit trail lists what it listed at the start. *)
Theorem server_chain_never_grows
    (id : string) (poa : ProofOfAuthority) (events : list server_event)
    (q : Audit.Criteria) :
  let final := foldl (server_step sha256 id) poa events in
  chain (blockchain final) = chain (blockchain poa)
  ∧ Audit.get_audit_trail q (blockchain final)
    = Audit.get_audit_trail q (blockchain poa).
Proof.
  cbv zeta.
  assert (H : chain (blockchain (foldl (server_step sha256 id) poa events))
              = chain (blockchain poa)).
  { revert poa. induction events as [|e events IH]; intros poa; [done|].
    simpl. rewrite IH. destruct e as [operation data now|now_ms now_ms' now].
    - done.
    - unfold server_step, server_tick.
      destruct (can_create_block id now_ms poa); [|done].
      unfold Consensus.create_block.
      destruct (negb (can_create_block id now_ms' poa)); [done|].
      destruct (dict_get id (validators poa)) as [v|]; [|done].
      destruct (negb (is_active v)); [done|].
      unfold Core.create_block.
      destruct (take 10 _); [done|]. cbn [chain set_pending].
      by destruct (last (chain (blockchain poa))). }
  split; [done|].
  unfold Audit.get_audit_trail, chain_transactions. by rewrite H.
Qed.

End LoopProperties.

Section Sealing.
Import Core Consensus Queries Node.

Variable sha256 : string → string.

Lemma current_validator_registered poa v :
  registry_wf (validators poa) →
  get_current_validator poa = Some v →
  dict_get (instance_id v) (validators poa) = Some v ∧ is_active v = true.
Proof.
  intros [Hnd Hkeys] Hv.
  unfold get_current_validator in Hv.
  destruct (active_validators poa) eqn:Hact; [done|].
  apply list_elem_of_lookup_2 in Hv. rewrite <- Hact in Hv.
  apply list_elem_of_In, List.filter_In in Hv as [Hin Hv]. split; [|done].
  apply List.in_map_iff in Hin as ([k v'] & <- & Hin). simpl.
  apply list_elem_of_In in Hin.
  pose proof (proj1 (Forall_forall _ _) Hkeys _ Hin) as Hk. simpl in Hk.
  rewrite Hk. by apply dict_get_elem.
Qed.

(** X14. One iteration of the node's loop, run when [can_create_block] holds
    on a ledger whose blocks are numbered by position and whose pending
    transactions carry their own data hash: the chain grows by one block,
    signed by the node, that holds the first ten pending transactions at
    most; their identifiers leave the pool index; the pointer advances by
    one; and the ledger is again numbered by position. *)
Theorem node_tick_appends_block
    (id : string) (now_ms now_ms' : Q) (now : Z) (poa : ProofOfAuthority) :
  ledger_inv sha256 (blockchain poa) →
  registry_wf (validators poa) →
  id ≠ "" →
  can_create_block id now_ms poa = true →
  can_create_block id now_ms' poa = true →
  let poa' := consensus_tick sha256 id now_ms now_ms' now poa in
  ∃ block,
    chain (blockchain poa') = (chain (blockchain poa) ++ [block])%list
    ∧ transactions block = take 10 (pending_transactions (blockchain poa))
    ∧ Core.validator block = id
    ∧ index block = Z.of_nat (length (chain (blockchain poa)))
    ∧ timestamp_micros block = now
    ∧ (∀ tx, tx ∈ transactions block →
             transaction_pool (blockchain poa') !! tx_id tx = None)
    ∧ current_validator_index poa' = current_validator_index poa + 1
    ∧ ledger_inv sha256 (blockchain poa').
Proof.
  intros Hinv Hwf Hid Hcan Hcan'. cbv zeta. unfold consensus_tick. rewrite Hcan.
  unfold Consensus.create_block. rewrite Hcan'. cbn [negb].
  apply can_create_block_pending in Hcan as [Hturn Hpending].
  unfold is_my_turn in Hturn.
  destruct (get_current_validator poa) as [v|] eqn:Hv; [|done].
  apply String.eqb_eq in Hturn.
  destruct (current_validator_registered poa v Hwf Hv) as [Hget Hactive].
  rewrite Hturn in Hget. rewrite Hget, Hactive. cbn [negb].
  pose proof Hinv as (Hne & Hidx & Hvalid).
  unfold Core.create_block.
  destruct (take 10 (pending_transactions (blockchain poa))) as [|tx txs] eqn:Htake.
  { destruct (pending_transactions (blockchain poa)); done. }
  cbn [chain set_pending].
  destruct (last (chain (blockchain poa))) as [head|] eqn:Hlast;
    [|by apply last_None in Hlast].
  destruct (String.eqb_spec id ""); [done|].
  set (bc1 := set_pending _ (blockchain poa)).
  set (block := new_Block sha256 _ now _ id _).
  assert (Hinv1 : ledger_inv sha256 bc1).
  { split; [done|]. split; [done|]. by apply Forall_drop. }
  assert (Htxs : Forall (λ tx, validate_transaction sha256 tx = true) (tx :: txs)).
  { rewrite <- Htake. by apply Forall_take. }
  pose proof (new_Block_valid sha256 bc1 head now id _ Hinv1 Hlast Htxs) as Hvb.
  change (chain bc1) with (chain (blockchain poa)) in Hvb. fold block in Hvb.
  cbn [blockchain set_blockchain set_validators advance
       set_current_validator_index validators current_validator_index block_time].
  unfold add_block. rewrite Hvb. cbn [snd blockchain current_validator_index].
  exists block. rewrite forget_transactions_chain. cbn [chain set_chain].
  repeat split; try done.
  - intros tx' Htx'.
    rewrite forget_transactions_pool, bool_decide_eq_true_2; [done|].
    by apply list_elem_of_fmap_2.
  - rewrite forget_transactions_chain. cbn [chain set_chain bc1 set_pending].
    by destruct (chain (blockchain poa)).
  - rewrite forget_transactions_chain. cbn [chain set_chain]. intros i b Hb.
    apply lookup_app_Some in Hb as [Hb|[Hge Hb]]; [by apply Hidx|].
    apply list_lookup_singleton_Some in Hb as [Hi <-].
    unfold block. cbn [index new_Block].
    change (chain bc1) with (chain (blockchain poa)) in *. lia.
  - apply Forall_forall. intros x Hx.
    apply forget_transactions_pending in Hx. cbn in Hx.
    destruct Hinv1 as (_ & _ & Hp). by eapply Forall_forall in Hp.
Qed.

End Sealing.

Section Succession.
Import Core Consensus Queries Node.

Variable sha256 : string → string.






End Succession.

(** Sample schedulers for the properties above. *)
Module SchedulerRuns.
Import Core Consensus.



End SchedulerRuns.

Example audit_trail_by_entity :
  map Core.tx_id
    (Audit.get_audit_trail
       (Audit.mkCriteria (Some "Entity1") None None None) Runs.sealed_ledger)
  = ["2000-TEST-001-#create_"].
Proof. vm_compute. reflexivity. Qed.


(** Recording a transaction keeps the ledger numbered by position and its
    pending transactions valid. *)
Lemma create_transaction_inv sha256 operation data key now bc :
  ledger_inv sha256 bc →
  ledger_inv sha256
    (Core.create_transaction sha256 operation data key now bc).2.
Proof.
  intros (Hne & Hidx & Hvalid). split; [done|]. split; [done|].
  cbn. apply Forall_app. split; [done|]. constructor; [|done].
  destruct key as [key|]; [destruct (String.eqb key "")|]; apply String.eqb_refl.
Qed.

Lemma sample_ledger_inv : ledger_inv Sample.digest Runs.busy_ledger.
Proof. apply create_transaction_inv, new_Blockchain_inv. Qed.

Lemma sample_registry_wf : registry_wf (Consensus.validators Sample.busy_scheduler).
Proof. apply new_ProofOfAuthority_wf. Qed.

Lemma node_tick_appends_block_sample :
  ∃ block,
    Core.chain
      (Consensus.blockchain
         (Node.consensus_tick Sample.digest "Melchior-001" 5000 5001 5000000
            Sample.busy_scheduler))
    = (Core.chain (Consensus.blockchain Sample.busy_scheduler) ++ [block])%list
    ∧ Core.validator block = "Melchior-001".
Proof.
  edestruct (node_tick_appends_block Sample.digest "Melchior-001" 5000 5001
               5000000 Sample.busy_scheduler)
    as (block & Hchain & _ & Hsigner & _).
  - exact sample_ledger_inv.
  - exact sample_registry_wf.
  - discriminate.
  - vm_compute. reflexivity.
  - vm_compute. reflexivity.
  - exists block. split; [exact Hchain | exact Hsigner].
Defined.


(** * Further properties of the contracts *)

(** ** Locks: lifetime, eviction, extension *)

Section LockLifetime.
Import MemoryLock.

Context (c : MemoryLockContract) (params : gmap string pyval)
        (entity : string).
Hypothesis entity_given : params !! "entity_name" = Some (VStr entity).
Hypothesis entity_not_empty : entity ≠ "".

Let key : pykey := KStr entity.

Lemma set_locks_same : set_locks (locks c) c = c.
Proof. by destruct c. Qed.

Lemma lock_entity_name :
  params_get params "entity_name" = VStr entity
  ∧ truthy (params_get params "entity_name") = true.
Proof. by apply params_get_str. Qed.

(** X16. [check_lock] reports a lock exactly while the entry has not expired
    (an entry that expires at [now] counts as expired); it changes the
    table only by deleting the expired entry; and a call of
    [acquire_lock] at the same instant has the same result and leaves the
    same table whether [check_lock] ran before it or not. *)
Theorem check_lock_evicts_expired (caller : string) (now : Z) :
  (∀ lock, locks c !! key = Some lock → now < expires lock →
     check_lock params now c
     = (Ok [("success", VBool true);
            ("locked", VBool true);
            ("holder", VStr (holder lock));
            ("expires", VInt (expires lock))], c))
  ∧ ((∀ lock, locks c !! key = Some lock → (expires lock ≤ now)%Z) →
     check_lock params now c
     = (Ok [("success", VBool true); ("locked", VBool false)],
        set_locks (delete key (locks c)) c))
  ∧ (∀ duration_ms,
       py_num (params_get_default params "duration_ms"
                 (VInt (lock_duration_ms c))) = Ok duration_ms →
       acquire_lock params caller now (check_lock params now c).2
       = acquire_lock params caller now c).
Proof.
  destruct lock_entity_name as [Hget Htruthy].
  assert (Hcheck :
    check_lock params now c
    = match locks c !! key with
      | Some lock =>
          if Z.leb (expires lock) now
          then (Ok [("success", VBool true); ("locked", VBool false)],
                set_locks (delete key (locks c)) c)
          else (Ok [("success", VBool true);
                    ("locked", VBool true);
                    ("holder", VStr (holder lock));
                    ("expires", VInt (expires lock))], c)
      | None => (Ok [("success", VBool true); ("locked", VBool false)], c)
      end).
  { unfold check_lock. by rewrite Htruthy, Hget. }
  split; [|split].
  - intros lock Hlock Hlt. rewrite Hcheck, Hlock.
    destruct (Z.leb_spec (expires lock) now); [lia|done].
  - intros Hexpired. rewrite Hcheck.
    destruct (locks c !! key) as [lock|] eqn:Hlock.
    + specialize (Hexpired lock eq_refl).
      destruct (Z.leb_spec (expires lock) now); [done|lia].
    + by rewrite delete_id, set_locks_same.
  - intros duration_ms Hdur. rewrite Hcheck.
    destruct (locks c !! key) as [lock|] eqn:Hlock; [|done].
    destruct (Z.leb_spec (expires lock) now) as [Hle|Hgt]; [|done].
    cbn [snd]. unfold acquire_lock. rewrite Htruthy, Hget. cbn [negb py_hash].
    fold key. cbn [locks set_locks lock_duration_ms].
    rewrite lookup_delete_eq, Hlock, Hdur.
    destruct (Z.ltb_spec now (expires lock)); [lia|].
    rewrite insert_delete_eq. by destruct c.
Qed.

(** X17. A lock acquired at [now] for [duration_ms] is reported at time [t]
    exactly when [t < now + duration_ms * 1000], whatever the duration
    (its sign and size are not checked), and the first check after that
    instant removes the entry. *)
Theorem lock_lifetime (caller : string) (now duration_ms t : Z) :
  py_num (params_get_default params "duration_ms" (VInt (lock_duration_ms c)))
  = Ok duration_ms →
  (∀ lock, locks c !! key = Some lock → (expires lock ≤ now)%Z) →
  let acquired := acquire_lock params caller now c in
  acquired.1 = Ok [("success", VBool true);
                   ("entity_name", VStr entity);
                   ("holder", VStr caller);
                   ("expires", VInt (now + duration_ms * 1000))]
  ∧ (t < now + duration_ms * 1000 →
     check_lock params t acquired.2
     = (Ok [("success", VBool true);
            ("locked", VBool true);
            ("holder", VStr caller);
            ("expires", VInt (now + duration_ms * 1000))], acquired.2))
  ∧ ((now + duration_ms * 1000 ≤ t)%Z →
     (check_lock params t acquired.2).1
     = Ok [("success", VBool true); ("locked", VBool false)]
     ∧ locks (check_lock params t acquired.2).2 !! key = None).
Proof.
  intros Hdur Hfree. cbv zeta.
  destruct lock_entity_name as [Hget Htruthy].
  assert (Hacq :
    acquire_lock params caller now c
    = (Ok [("success", VBool true);
           ("entity_name", VStr entity);
           ("holder", VStr caller);
           ("expires", VInt (now + duration_ms * 1000))],
       set_locks (<[key := mkLock caller now (now + duration_ms * 1000)]> (locks c)) c)).
  { unfold acquire_lock. rewrite Htruthy, Hget, Hdur. cbn [negb py_hash]. fold key.
    destruct (locks c !! key) as [lock|] eqn:Hlock; [|done].
    specialize (Hfree lock eq_refl).
    destruct (Z.ltb_spec now (expires lock)); [lia|done]. }
  rewrite Hacq. cbn [fst snd]. split; [done|].
  unfold check_lock. rewrite Htruthy, Hget. cbn [negb py_hash]. fold key.
  cbn [locks set_locks]. rewrite lookup_insert_eq. cbn [expires holder].
  split; intros Ht.
  - by destruct (Z.leb_spec (now + duration_ms * 1000) t); [lia|].
  - destruct (Z.leb_spec (now + duration_ms * 1000) t); [|lia].
    split; [done|]. cbn [snd locks set_locks]. apply lookup_delete_eq.
Qed.

(** X18. Acquiring a free entity and releasing it again leaves no entry for
    it; when there was none before, the contract is exactly as it was. *)
Theorem acquire_then_release (caller : string) (now duration_ms : Z) :
  py_num (params_get_default params "duration_ms" (VInt (lock_duration_ms c)))
  = Ok duration_ms →
  (∀ lock, locks c !! key = Some lock → (expires lock ≤ now)%Z) →
  let released :=
    release_lock params caller (acquire_lock params caller now c).2 in
  released
  = (Ok [("success", VBool true); ("entity_name", VStr entity)],
     set_locks (delete key (locks c)) c)
  ∧ (locks c !! key = None → released.2 = c).
Proof.
  intros Hdur Hfree. cbv zeta.
  destruct lock_entity_name as [Hget Htruthy].
  assert (Hrel :
    release_lock params caller (acquire_lock params caller now c).2
    = (Ok [("success", VBool true); ("entity_name", VStr entity)],
       set_locks (delete key (locks c)) c)).
  { unfold acquire_lock. rewrite Htruthy, Hget, Hdur. cbn [negb py_hash]. fold key.
    assert (Hinstall :
      match locks c !! key with
      | Some lock =>
          if Z.ltb now (expires lock)
          then (Ok [("success", VBool false);
                    ("error", VStr "Entity already locked");
                    ("holder", VStr (holder lock));
                    ("expires", VInt (expires lock))], c)
          else (Ok [("success", VBool true);
                    ("entity_name", VStr entity);
                    ("holder", VStr caller);
                    ("expires", VInt (expires (mkLock caller now (now + duration_ms * 1000))))],
                set_locks (<[key := mkLock caller now (now + duration_ms * 1000)]> (locks c)) c)
      | None =>
          (Ok [("success", VBool true);
               ("entity_name", VStr entity);
               ("holder", VStr caller);
               ("expires", VInt (expires (mkLock caller now (now + duration_ms * 1000))))],
           set_locks (<[key := mkLock caller now (now + duration_ms * 1000)]> (locks c)) c)
      end
      = (Ok [("success", VBool true);
             ("entity_name", VStr entity);
             ("holder", VStr caller);
             ("expires", VInt (now + duration_ms * 1000))],
         set_locks (<[key := mkLock caller now (now + duration_ms * 1000)]> (locks c)) c)).
    { destruct (locks c !! key) as [lock|] eqn:Hlock; [|done].
      specialize (Hfree lock eq_refl).
      destruct (Z.ltb_spec now (expires lock)); [lia|done]. }
    rewrite Hinstall. cbn [snd]. unfold release_lock.
    rewrite Htruthy, Hget. cbn [negb py_hash]. fold key.
    cbn [locks set_locks]. rewrite lookup_insert_eq. cbn [holder].
    rewrite String.eqb_refl. cbn [negb]. rewrite delete_insert_eq. by destruct c. }
  split; [done|]. intros Hnone. rewrite Hrel. cbn [snd].
  by rewrite delete_id, set_locks_same.
Qed.

(** X19. [extend_lock] by the holder adds [extension_ms * 1000] to the expiry
    without looking at the clock, so that it also revives a lock that has
    expired: until the new expiry, another caller's [acquire_lock] is
    refused. A caller that is not the holder changes nothing. *)
Theorem extend_lock_ignores_expiry
    (caller : string) (lock : Lock) (extension_ms : Z) :
  locks c !! key = Some lock →
  py_num (params_get_default params "extension_ms" (VInt (lock_duration_ms c)))
  = Ok extension_ms →
  (holder lock = caller →
   extend_lock params caller c
   = (Ok [("success", VBool true);
          ("entity_name", VStr entity);
          ("new_expires", VInt (expires lock + extension_ms * 1000))],
      set_locks
        (<[key := mkLock (holder lock) (acquired lock)
                    (expires lock + extension_ms * 1000)]> (locks c)) c)
   ∧ ∀ other now,
       now < expires lock + extension_ms * 1000 →
       acquire_lock params other now (extend_lock params caller c).2
       = (Ok [("success", VBool false);
              ("error", VStr "Entity already locked");
              ("holder", VStr caller);
              ("expires", VInt (expires lock + extension_ms * 1000))],
          (extend_lock params caller c).2))
  ∧ (holder lock ≠ caller →
     extend_lock params caller c
     = (Ok [("success", VBool false);
            ("error", VStr "Only lock holder can extend")], c)).
Proof.
  intros Hlock Hext. destruct lock_entity_name as [Hget Htruthy].
  unfold extend_lock. rewrite Htruthy, Hget, Hext. cbn [negb py_hash]. fold key.
  rewrite Hlock. split.
  - intros <-. rewrite String.eqb_refl. cbn [negb]. split; [done|].
    intros other now Hnow. cbn [snd expires]. unfold acquire_lock.
    rewrite Htruthy, Hget. cbn [negb py_hash]. fold key.
    cbn [locks set_locks]. rewrite lookup_insert_eq. cbn [expires holder].
    by destruct (Z.ltb_spec now (expires lock + extension_ms * 1000)); [|lia].
  - intros Hother. by destruct (String.eqb_spec (holder lock) caller).
Qed.

End LockLifetime.

(** ** Resources: round trip and frame *)

Section ResourceRoundTrip.
Import ResourceAllocation.

Lemma set_state_same c : set_state (allocations c) (used c) c = c.
Proof. by destruct c. Qed.

(** X20. With quantities that are integers, an admitted request of a
    caller that held nothing, followed by that caller's release, leaves
    the contract exactly as it was. (With floats it need not:
    [round_trip_drifts_on_floats].) *)
Theorem request_then_release
    (c : ResourceAllocationContract) (params params' : gmap string pyval)
    (caller : string) (now n m s : Z) :
  allocations c !! caller = None →
  py_num (params_get_default params "cpu" (VInt 0)) = Ok n →
  py_num (params_get_default params "memory" (VInt 0)) = Ok m →
  py_num (params_get_default params "storage" (VInt 0)) = Ok s →
  (used_cpu (used c) + n ≤ total_cpu (limits c))%Z →
  (used_memory (used c) + m ≤ total_memory (limits c))%Z →
  (used_storage (used c) + s ≤ total_storage (limits c))%Z →
  release_resources params' caller (request_resources params caller now c).2
  = (Ok [("success", VBool true)], c).
Proof.
  intros Hfree Hn Hm Hs Hc Hmem Hst.
  rewrite (request_resources_outcome c params caller now n m s Hn Hm Hs).
  rewrite bool_decide_eq_true_2 by done. rewrite Hfree. cbn [default snd].
  unfold release_resources. cbn [allocations set_state used].
  rewrite lookup_insert_eq. cbn [cpu memory storage used_cpu used_memory used_storage].
  f_equal. rewrite delete_insert_id by done.
  replace (mkUsage _ _ _) with (used c); [by destruct c|].
  destruct (used c); cbn. f_equal; lia.
Qed.

(** X21. A request or a release by one caller never changes the allocation
    recorded for another caller, and an admitted request is what
    [get_allocation] then reports for the caller. *)
Theorem allocations_of_others_untouched
    (c : ResourceAllocationContract) (params : gmap string pyval)
    (caller other : string) (now : Z) :
  other ≠ caller →
  allocations (request_resources params caller now c).2 !! other
  = allocations c !! other
  ∧ allocations (release_resources params caller c).2 !! other
    = allocations c !! other
  ∧ ∀ query alloc,
      query !! "instance_id" = Some (VStr caller) → caller ≠ "" →
      allocations (request_resources params caller now c).2 !! caller
      = Some alloc →
      get_allocation query (request_resources params caller now c).2
      = (Ok [("success", VBool true); ("allocation", allocation_dict alloc)],
         (request_resources params caller now c).2).
Proof.
  intros Hne. split; [|split].
  - destruct (request_resources_cases params caller now c)
      as [->|(n & m & s & Hn & Hm & Hs)]; [done|].
    rewrite (request_resources_outcome c params caller now n m s Hn Hm Hs).
    case_bool_decide; [|done]. cbn. by rewrite lookup_insert_ne.
  - rewrite release_resources_state.
    destruct (allocations c !! caller); [|done]. cbn. by rewrite lookup_delete_ne.
  - intros query alloc Hq Hcaller Halloc. unfold get_allocation.
    destruct (params_get_str query "instance_id" caller Hq Hcaller) as [-> ->].
    cbn [negb py_hash]. by rewrite Halloc.
Qed.

End ResourceRoundTrip.

(** ** Workflows: registration, triggering, execution records *)

Section WorkflowRecords.
Import WorkflowAutomation.

(** X22. Triggering a workflow succeeds exactly when it is registered; the
    execution it records is found by [get_execution_status] under the
    identifier returned, "<workflow_id>-<now>", as a running execution at
    step 0 with no step result; triggering an unregistered workflow
    changes nothing. *)
Theorem trigger_workflow_records_execution
    (c : WorkflowAutomationContract) (params query : gmap string pyval)
    (wid caller : string) (now now' : Z) :
  wid ≠ "" →
  params !! "workflow_id" = Some (VStr wid) →
  let id := wid +:+ "-" +:+ pretty now in
  let input := params_get_default params "input_data" (VDict []) in
  let triggered := trigger_workflow params caller now now' c in
  (workflows c !! KStr wid = None →
   triggered = (Ok [("success", VBool false); ("error", VStr "Workflow not found")], c))
  ∧ (is_Some (workflows c !! KStr wid) →
     query !! "execution_id" = Some (VStr id) →
     triggered.1 = Ok [("success", VBool true); ("execution_id", VStr id)]
     ∧ workflows triggered.2 = workflows c
     ∧ get_execution_status query triggered.2
       = (Ok [("success", VBool true);
              ("execution",
               VDict [("workflow_id", VStr wid);
                      ("triggered_by", VStr caller);
                      ("started_at", VInt now');
                      ("status", VStr "running");
                      ("current_step", VInt 0);
                      ("input_data", input);
                      ("step_results", VList [])])],
          triggered.2)).
Proof.
  intros Hwid Hparam. cbv zeta.
  destruct (params_get_str params "workflow_id" wid Hparam Hwid) as [Hget Htruthy].
  unfold trigger_workflow. rewrite Htruthy, Hget. cbn [negb py_hash py_str].
  split.
  - by intros ->.
  - intros [w Hw] Hq. rewrite Hw. cbn [fst snd workflows].
    split; [done|]. split; [done|].
    unfold get_execution_status.
    assert (Hid : wid +:+ "-" +:+ pretty now ≠ "").
    { destruct wid; [done|]. discriminate. }
    destruct (params_get_str query "execution_id" _ Hq Hid) as [-> ->].
    cbn [negb py_hash executions]. by rewrite lookup_insert_eq.
Qed.

(** X23. Two executions of one workflow get the same identifier exactly when
    the clock read the same microsecond for both; the later one then
    replaces the record of the earlier one. With different readings both
    records are kept. *)
Theorem execution_ids_collide_on_equal_clock
    (c : WorkflowAutomationContract) (params : gmap string pyval)
    (wid caller1 caller2 : string) (now1 now1' now2 now2' : Z) :
  wid ≠ "" →
  params !! "workflow_id" = Some (VStr wid) →
  is_Some (workflows c !! KStr wid) →
  let id1 := wid +:+ "-" +:+ pretty now1 in
  let id2 := wid +:+ "-" +:+ pretty now2 in
  let final :=
    (trigger_workflow params caller2 now2 now2'
       (trigger_workflow params caller1 now1 now1' c).2).2 in
  (id1 = id2 ↔ now1 = now2)
  ∧ (triggered_by <$> executions final !! id2) = Some caller2
  ∧ (now1 ≠ now2 → (triggered_by <$> executions final !! id1) = Some caller1)
  ∧ (now1 = now2 → (started_at <$> executions final !! id1) = Some now2').
Proof.
  intros Hwid Hparam [w Hw]. cbv zeta.
  destruct (params_get_str params "workflow_id" wid Hparam Hwid) as [Hget Htruthy].
  assert (Hids : wid +:+ "-" +:+ pretty now1 = wid +:+ "-" +:+ pretty now2
                 ↔ now1 = now2).
  { split; [|by intros ->]. intros H.
    apply string_app_inv_head in H. apply (string_app_inv_head "-") in H.
    by apply (inj pretty) in H. }
  unfold trigger_workflow. rewrite Htruthy, Hget. cbn [negb py_hash py_str].
  rewrite Hw. cbn [snd workflows]. rewrite Hw. cbn [snd executions].
  split; [exact Hids|]. split; [by rewrite lookup_insert_eq|]. split.
  - intros Hne. rewrite lookup_insert_ne, lookup_insert_eq; [done|].
    intros Heq. apply Hne. by apply Hids.
  - intros ->. by rewrite lookup_insert_eq.
Qed.

End WorkflowRecords.

(** Sample contracts for the properties above. *)
Module ContractRuns.

Definition lock_params : gmap string pyval :=
  {["entity_name" := VStr "TestEntity"; "duration_ms" := VInt 5000]}.

Definition fresh_locks : MemoryLock.MemoryLockContract :=
  MemoryLock.new "lock-contract-1" "TEST-001" 1.

(** Instance-001 holds TestEntity from 10 until 5000010. *)
Definition held_locks : MemoryLock.MemoryLockContract :=
  (MemoryLock.acquire_lock lock_params "Instance-001" 10 fresh_locks).2.

Definition fresh_resources : ResourceAllocation.ResourceAllocationContract :=
  ResourceAllocation.new "resource-contract-1" "TEST-001" 1.

Definition resource_params : gmap string pyval :=
  {["cpu" := VInt 50; "memory" := VInt 1024; "storage" := VInt 5120]}.

Definition workflow_params : gmap string pyval :=
  {["workflow_id" := VStr "test-workflow";
    "steps" := VList [VDict [("action", VStr "log")]]]}.

Definition registered : WorkflowAutomation.WorkflowAutomationContract :=
  (WorkflowAutomation.register_workflow workflow_params "Instance-001" 5
     (WorkflowAutomation.new "workflow-contract-2" "TEST-001" 1)).2.

End ContractRuns.

Lemma check_lock_evicts_expired_sample :
  MemoryLock.check_lock ContractRuns.lock_params 5000010 ContractRuns.held_locks
  = (Ok [("success", VBool true); ("locked", VBool false)],
     ContractRuns.fresh_locks).
Proof.
  assert (Hname : "TestEntity" ≠ "") by discriminate.
  destruct (check_lock_evicts_expired ContractRuns.held_locks
              ContractRuns.lock_params "TestEntity" eq_refl Hname
              "Instance-002" 5000010) as (_ & Hexpired & _).
  rewrite Hexpired; [reflexivity|].
  intros lock Hlock. vm_compute in Hlock. injection Hlock as <-.
  vm_compute. discriminate.
Defined.

Lemma lock_lifetime_sample :
  (MemoryLock.check_lock ContractRuns.lock_params 5000009
     ContractRuns.held_locks).1
  = Ok [("success", VBool true);
        ("locked", VBool true);
        ("holder", VStr "Instance-001");
        ("expires", VInt 5000010)].
Proof.
  assert (Hname : "TestEntity" ≠ "") by discriminate.
  assert (Hfree : ∀ lock,
            MemoryLock.locks ContractRuns.fresh_locks !! KStr "TestEntity"
            = Some lock → (MemoryLock.expires lock ≤ 10)%Z)
    by (intros lock Hlock; discriminate Hlock).
  destruct (lock_lifetime ContractRuns.fresh_locks ContractRuns.lock_params
              "TestEntity" eq_refl Hname "Instance-001" 10 5000 5000009
              eq_refl Hfree) as (_ & Hheld & _).
  unfold ContractRuns.held_locks. rewrite Hheld; [reflexivity|]. lia.
Defined.

Lemma acquire_then_release_sample :
  MemoryLock.release_lock ContractRuns.lock_params "Instance-001"
    ContractRuns.held_locks
  = (Ok [("success", VBool true); ("entity_name", VStr "TestEntity")],
     ContractRuns.fresh_locks).
Proof.
  assert (Hname : "TestEntity" ≠ "") by discriminate.
  assert (Hfree : ∀ lock,
            MemoryLock.locks ContractRuns.fresh_locks !! KStr "TestEntity"
            = Some lock → (MemoryLock.expires lock ≤ 10)%Z)
    by (intros lock Hlock; discriminate Hlock).
  destruct (acquire_then_release ContractRuns.fresh_locks
              ContractRuns.lock_params "TestEntity" eq_refl Hname
              "Instance-001" 10 5000 eq_refl Hfree) as [Hrel _].
  unfold ContractRuns.held_locks. rewrite Hrel. reflexivity.
Defined.

Lemma extend_lock_ignores_expiry_sample :
  (MemoryLock.acquire_lock ContractRuns.lock_params "Instance-002" 9000000
     (MemoryLock.extend_lock ContractRuns.lock_params "Instance-001"
        ContractRuns.held_locks).2).1
  = Ok [("success", VBool false);
        ("error", VStr "Entity already locked");
        ("holder", VStr "Instance-001");
        ("expires", VInt 35000010)].
Proof.
  assert (Hname : "TestEntity" ≠ "") by discriminate.
  destruct (extend_lock_ignores_expiry ContractRuns.held_locks
              ContractRuns.lock_params "TestEntity" eq_refl Hname
              "Instance-001" (MemoryLock.mkLock "Instance-001" 10 5000010)
              30000 eq_refl eq_refl) as [Hholder _].
  destruct (Hholder eq_refl) as [_ Hrefused].
  rewrite (Hrefused "Instance-002" 9000000); [reflexivity|]. cbn. lia.
Defined.

Lemma request_then_release_sample :
  ResourceAllocation.release_resources ∅ "Instance-001"
    (ResourceAllocation.request_resources ContractRuns.resource_params
       "Instance-001" 10 ContractRuns.fresh_resources).2
  = (Ok [("success", VBool true)], ContractRuns.fresh_resources).
Proof.
  apply (request_then_release ContractRuns.fresh_resources
           ContractRuns.resource_params ∅ "Instance-001" 10 50 1024 5120);
    try reflexivity; cbn; lia.
Defined.

Lemma allocations_of_others_untouched_sample :
  ResourceAllocation.allocations
    (ResourceAllocation.request_resources ContractRuns.resource_params
       "Instance-002" 20
       (ResourceAllocation.request_resources ContractRuns.resource_params
          "Instance-001" 10 ContractRuns.fresh_resources).2).2
    !! "Instance-001"
  = Some (ResourceAllocation.mkAllocation 50 1024 5120 10).
Proof.
  edestruct (allocations_of_others_untouched
               (ResourceAllocation.request_resources ContractRuns.resource_params
                  "Instance-001" 10 ContractRuns.fresh_resources).2
               ContractRuns.resource_params "Instance-002" "Instance-001" 20)
    as [Hother _].
  - discriminate.
  - rewrite Hother. reflexivity.
Defined.

Lemma trigger_workflow_records_execution_sample :
  (WorkflowAutomation.trigger_workflow {["workflow_id" := VStr "test-workflow"]}
     "Instance-002" 7 8 ContractRuns.registered).1
  = Ok [("success", VBool true); ("execution_id", VStr "test-workflow-7")].
Proof.
  edestruct (trigger_workflow_records_execution ContractRuns.registered
               {["workflow_id" := VStr "test-workflow"]}
               {["execution_id" := VStr "test-workflow-7"]}
               "test-workflow" "Instance-002" 7 8) as [_ Hok].
  - discriminate.
  - reflexivity.
  - destruct Hok as [Hres _]; [by eexists|reflexivity|exact Hres].
Defined.

Lemma execution_ids_collide_on_equal_clock_sample :
  WorkflowAutomation.started_at
  <$> WorkflowAutomation.executions
        (WorkflowAutomation.trigger_workflow
           {["workflow_id" := VStr "test-workflow"]} "Instance-003" 7 9
           (WorkflowAutomation.trigger_workflow
              {["workflow_id" := VStr "test-workflow"]} "Instance-002" 7 8
              ContractRuns.registered).2).2
      !! "test-workflow-7"
  = Some 9.
Proof.
  edestruct (execution_ids_collide_on_equal_clock ContractRuns.registered
               {["workflow_id" := VStr "test-workflow"]}
               "test-workflow" "Instance-002" "Instance-003" 7 8 7 9)
    as (_ & _ & _ & Hsame).
  - discriminate.
  - reflexivity.
  - by eexists.
  - exact (Hsame eq_refl).
Defined.

(** ** The node's loop and the waiting transactions *)

Section Conservation.
Import Core Consensus Queries Node.

Variable sha256 : string → string.

Definition remove_all (l txs : list Transaction) : list Transaction :=
  foldl (λ l tx, list_remove_first tx l) l txs.

Lemma forget_transactions_remove_all txs bc :
  pending_transactions (foldl forget_transaction bc txs)
  = remove_all (pending_transactions bc) txs.
Proof.
  revert bc. induction txs as [|tx txs IH]; intros bc; [done|].
  cbn [foldl remove_all]. by rewrite IH.
Qed.

Lemma list_remove_first_absent x l :
  existsb (λ y, Transaction_eqb y x) l = false → list_remove_first x l = l.
Proof.
  induction l as [|y l IH]; [done|]. cbn [existsb list_remove_first].
  intros [Hy Hl]%orb_false_iff. rewrite Hy. by rewrite IH.
Qed.

Lemma list_remove_first_present x l :
  existsb (λ y, Transaction_eqb y x) l = true →
  S (length (list_remove_first x l)) = length l.
Proof.
  induction l as [|y l IH]; [done|]. cbn [existsb list_remove_first].
  destruct (Transaction_eqb y x); [done|]. cbn [orb length].
  intros Hl. by rewrite IH.
Qed.

Lemma list_remove_first_length x l :
  (length (list_remove_first x l) ≤ length l)%nat.
Proof.
  destruct (existsb (λ y, Transaction_eqb y x) l) eqn:Hx.
  - apply list_remove_first_present in Hx. lia.
  - by rewrite list_remove_first_absent.
Qed.

Lemma remove_all_length l txs : (length (remove_all l txs) ≤ length l)%nat.
Proof.
  revert l. induction txs as [|tx txs IH]; intros l; [done|].
  cbn [remove_all foldl]. etrans; [apply IH|]. apply list_remove_first_length.
Qed.

Lemma remove_all_absent l txs :
  (∀ x y, x ∈ txs → y ∈ l → Transaction_eqb y x = false) →
  remove_all l txs = l.
Proof.
  revert l. induction txs as [|tx txs IH]; intros l Hno; [done|].
  cbn [remove_all foldl]. rewrite list_remove_first_absent.
  - apply IH. intros x y Hx Hy. apply Hno; [by right|done].
  - apply not_true_iff_false. intros (y & Hy & Heq)%existsb_exists.
    apply list_elem_of_In in Hy. rewrite (Hno tx y) in Heq; [done|left|done].
Qed.

Lemma remove_all_present l txs x y :
  x ∈ txs → y ∈ l → Transaction_eqb y x = true →
  (length (remove_all l txs) < length l)%nat.
Proof.
  revert l. induction txs as [|tx txs IH]; intros l Hx Hy Heq;
    [by apply elem_of_nil in Hx|].
  cbn [remove_all foldl].
  destruct (existsb (λ y, Transaction_eqb y tx) l) eqn:Htx.
  - apply list_remove_first_present in Htx.
    pose proof (remove_all_length (list_remove_first tx l) txs).
    unfold remove_all in *. lia.
  - rewrite list_remove_first_absent by done.
    apply elem_of_cons in Hx as [->|Hx]; [|by apply IH].
    apply not_true_iff_false in Htx. destruct Htx.
    apply existsb_exists. exists y. split; [by apply list_elem_of_In|done].
Qed.

(** The ledger one iteration of the node's loop leaves, when the node may
    create a block. *)
Lemma consensus_tick_ledger
    (id : string) (now_ms now_ms' : Q) (now : Z) (poa : ProofOfAuthority) :
  ledger_inv sha256 (blockchain poa) →
  registry_wf (validators poa) →
  id ≠ "" →
  can_create_block id now_ms poa = true →
  can_create_block id now_ms' poa = true →
  ∃ block,
    transactions block = take 10 (pending_transactions (blockchain poa))
    ∧ blockchain (consensus_tick sha256 id now_ms now_ms' now poa)
      = foldl forget_transaction
          (set_chain (chain (blockchain poa) ++ [block])
             (set_pending (drop 10 (pending_transactions (blockchain poa)))
                (blockchain poa)))
          (take 10 (pending_transactions (blockchain poa))).
Proof.
  intros Hinv Hwf Hid Hcan Hcan'. unfold consensus_tick. rewrite Hcan.
  unfold Consensus.create_block. rewrite Hcan'. cbn [negb].
  apply can_create_block_pending in Hcan as [Hturn Hpending].
  unfold is_my_turn in Hturn.
  destruct (get_current_validator poa) as [v|] eqn:Hv; [|done].
  apply String.eqb_eq in Hturn.
  destruct (current_validator_registered poa v Hwf Hv) as [Hget Hactive].
  rewrite Hturn in Hget. rewrite Hget, Hactive. cbn [negb].
  pose proof Hinv as (Hne & Hidx & Hvalid).
  unfold Core.create_block.
  destruct (take 10 (pending_transactions (blockchain poa))) as [|tx txs] eqn:Htake.
  { destruct (pending_transactions (blockchain poa)); done. }
  cbn [chain set_pending].
  destruct (last (chain (blockchain poa))) as [head|] eqn:Hlast;
    [|by apply last_None in Hlast].
  destruct (String.eqb_spec id ""); [done|].
  set (bc1 := set_pending _ (blockchain poa)).
  set (block := new_Block sha256 _ now _ id _).
  assert (Hinv1 : ledger_inv sha256 bc1).
  { split; [done|]. split; [done|]. by apply Forall_drop. }
  assert (Htxs : Forall (λ tx, validate_transaction sha256 tx = true) (tx :: txs)).
  { rewrite <- Htake. by apply Forall_take. }
  pose proof (new_Block_valid sha256 bc1 head now id _ Hinv1 Hlast Htxs) as Hvb.
  change (chain bc1) with (chain (blockchain poa)) in Hvb. fold block in Hvb.
  cbn [blockchain set_blockchain set_validators advance
       set_current_validator_index validators current_validator_index block_time].
  unfold add_block. rewrite Hvb. cbn [snd blockchain].
  exists block. split; done.
Qed.

Section Tick.

Context (id : string) (now_ms now_ms' : Q) (now : Z) (poa : ProofOfAuthority).
Hypothesis ledger_numbered : ledger_inv sha256 (blockchain poa).
Hypothesis registry_filed : registry_wf (validators poa).
Hypothesis id_given : id ≠ "".
Hypothesis turn : can_create_block id now_ms poa = true.
Hypothesis turn' : can_create_block id now_ms' poa = true.

Let before : Blockchain := blockchain poa.
Let after : Blockchain :=
  blockchain (consensus_tick sha256 id now_ms now_ms' now poa).

Lemma tick_chain_and_pending :
  chain_transactions after
  = (chain_transactions before ++ take 10 (pending_transactions before))%list
  ∧ pending_transactions after
    = remove_all (drop 10 (pending_transactions before))
        (take 10 (pending_transactions before)).
Proof.
  destruct (consensus_tick_ledger id now_ms now_ms' now poa ledger_numbered
              registry_filed id_given turn turn') as (block & Htxs & Hbc).
  unfold after, before. rewrite Hbc. split.
  - unfold chain_transactions. rewrite forget_transactions_chain.
    cbn [chain set_chain set_pending].
    rewrite map_app, concat_app. cbn. by rewrite app_nil_r, Htxs.
  - by rewrite forget_transactions_remove_all.
Qed.

(** X24. When the waiting transactions have distinct identifiers, one
    iteration of the node's loop moves the first ten of them (or all, if
    fewer) into the chain and leaves the others waiting in their order:
    no transaction is lost and none is listed twice. *)
Theorem node_tick_conserves_transactions :
  NoDup (tx_id <$> pending_transactions before) →
  pending_transactions after = drop 10 (pending_transactions before)
  ∧ (chain_transactions after ++ pending_transactions after)%list
    = (chain_transactions before ++ pending_transactions before)%list.
Proof.
  intros Hids. destruct tick_chain_and_pending as [Hchain Hpending].
  assert (Hrest : pending_transactions after
                  = drop 10 (pending_transactions before)).
  { rewrite Hpending. apply remove_all_absent. intros x y Hx Hy.
    rewrite <- (take_drop 10 (pending_transactions before)), fmap_app in Hids.
    apply NoDup_app in Hids as (_ & Hdisj & _).
    unfold Transaction_eqb.
    destruct (String.eqb_spec (tx_id y) (tx_id x)) as [Heq|_].
    - destruct (Hdisj (tx_id x)); [by apply list_elem_of_fmap_2|].
      rewrite <- Heq. by apply list_elem_of_fmap_2.
    - by rewrite !andb_false_r, ?andb_false_l. }
  split; [done|].
  by rewrite Hchain, Hrest, <- app_assoc, take_drop.
Qed.

(** X25. When a transaction waiting beyond the tenth place is equal, field by
    field, to one of the first ten, the iteration that seals the first
    ten also removes a waiting transaction that is in no block: fewer
    transactions are in the chain or waiting after it than before. *)
Theorem node_tick_drops_equal_transaction (x y : Transaction) :
  x ∈ take 10 (pending_transactions before) →
  y ∈ drop 10 (pending_transactions before) →
  Transaction_eqb y x = true →
  (length (chain_transactions after) + length (pending_transactions after)
   < length (chain_transactions before) + length (pending_transactions before))%nat.
Proof.
  intros Hx Hy Heq. destruct tick_chain_and_pending as [-> ->].
  pose proof (remove_all_present _ _ x y Hx Hy Heq) as Hlt.
  rewrite length_app.
  rewrite <- (take_drop 10 (pending_transactions before)) at 4.
  rewrite length_app. lia.
Qed.

End Tick.

End Conservation.

(** Sample runs of the node's loop. *)
Module TickRuns.
Import Core Consensus.

Definition submit (bc : Blockchain) (now : Z) : Blockchain :=
  (create_transaction Sample.digest "create_entity"
     [("name", VStr "Entity1")] None now bc).2.

(** Eleven submissions; the clock read the same microsecond for the first
    and the last. *)
Definition crowded_ledger : Blockchain :=
  foldl submit Sample.ledger
    [2000; 2001; 2002; 2003; 2004; 2005; 2006; 2007; 2008; 2009; 2000].

Definition crowded : ProofOfAuthority :=
  new_ProofOfAuthority crowded_ledger 1000 None.

Definition queued : ProofOfAuthority :=
  new_ProofOfAuthority Runs.three_pending 1000 None.

End TickRuns.

Lemma submit_inv times bc :
  ledger_inv Sample.digest bc →
  ledger_inv Sample.digest (foldl TickRuns.submit bc times).
Proof.
  revert bc. induction times as [|t times IH]; intros bc Hinv; [done|].
  simpl. apply IH. by apply create_transaction_inv.
Qed.

Lemma node_tick_conserves_transactions_sample :
  Core.pending_transactions
    (Consensus.blockchain
       (Node.consensus_tick Sample.digest "Melchior-001" 5000 5001 5000000
          TickRuns.queued))
  = [].
Proof.
  destruct (node_tick_conserves_transactions Sample.digest "Melchior-001"
              5000 5001 5000000 TickRuns.queued) as [Hrest _].
  - do 2 apply create_transaction_inv. exact sample_ledger_inv.
  - apply new_ProofOfAuthority_wf.
  - discriminate.
  - vm_compute. reflexivity.
  - vm_compute. reflexivity.
  - apply (bool_decide_unpack _). vm_compute. exact I.
  - rewrite Hrest. reflexivity.
Defined.

Lemma node_tick_drops_equal_transaction_sample :
  (length
     (Queries.chain_transactions
        (Consensus.blockchain
           (Node.consensus_tick Sample.digest "Melchior-001" 5000 5001 5000000
              TickRuns.crowded)))
   + length
       (Core.pending_transactions
          (Consensus.blockchain
             (Node.consensus_tick Sample.digest "Melchior-001" 5000 5001
                5000000 TickRuns.crowded)))
   < length (Queries.chain_transactions (Consensus.blockchain TickRuns.crowded))
     + length (Core.pending_transactions (Consensus.blockchain TickRuns.crowded)))%nat.
Proof.
  apply (node_tick_drops_equal_transaction Sample.digest "Melchior-001"
           5000 5001 5000000 TickRuns.crowded
           (submit_inv _ _ (new_Blockchain_inv _ _ _ _ _))
           (new_ProofOfAuthority_wf _ _ _)
           ltac:(discriminate) eq_refl eq_refl
           (Core.new_Transaction Sample.digest "create_entity"
              [("name", VStr "Entity1")] 2000 "TEST-001")
           (Core.new_Transaction Sample.digest "create_entity"
              [("name", VStr "Entity1")] 2000 "TEST-001")).
  - vm_compute. left.
  - vm_compute. left.
  - vm_compute. reflexivity.
Defined.

(** ** A block that carries the ledger's pending list *)

Module Sharing.
Import Core Queries.





Section Shared.

Variable sha256 : string → string.


End Shared.



End Sharing.

Section SharedList.
Import Core Queries Sharing.

Variable sha256 : string → string.










End SharedList.

(** Four submissions, then [create_block(transactions=
    bc.pending_transactions)] and [add_block] of the block it returns. *)
Module SharingRuns.
Import Core.




End SharingRuns.

